(** * Event ingestion and retry pipeline: a shallow embedding

    The development follows the TypeScript sources of the service:

    - [kafka/consumer.ts]   (class [KafkaConsumer]: [handleMessage],
      [storeEvent], [processEvent], the per-type handlers, [storeFailedEvent]);
    - [kafka/producer.ts]   (class [KafkaProducer]: [sendMessage],
      [sendUserEvent], [sendSystemEvent]);
    - [controllers/eventController.ts] ([getEvents], [getEventById],
      [createEvent], [getEventStats], [retryFailedEvents],
      [getEventsByType]);
    - [controllers/healthController.ts] (the health and readiness checks);
    - [routes/eventRoutes.ts] and [middleware/validation.ts] (the retry route
      and [validateRetryParams]);
    - the producer service ([POST /produce], [POST /purchase]);
    - [models/Event.ts], [models/User.ts] (the two Mongoose schemas).

    Asynchronous methods are sequential state transformers over the two
    collections; a rejected promise is a thrown [Error].  Calls to [logger]
    have no effect on the collections and appear only through the evaluation
    of their arguments, which may throw.  The store itself does not fail: a
    lost connection is outside the model.  What the sources leave to the
    runtime and to the libraries and the model does not follow is a
    parameter ([Platform]). *)

From Stdlib Require Import String Ascii List ZArith Bool Lia DecimalString.
From Stdlib Require Import Sorting.Sorted Permutation.
Import ListNotations.

Local Open Scope string_scope.
Local Open Scope Z_scope.
Set Warnings "-register-all".

(* ================================================================== *)
(** ** JavaScript values as the code meets them *)
(* ================================================================== *)

Module Js.

(** A decoded JSON document.  Numbers are the integral ones that print as
    their decimal digits (the safe integers); an object is the list of its
    own properties. *)
Inductive json : Type :=
| JNull
| JBool (b : bool)
| JNum (n : Z)
| JStr (s : string)
| JArr (xs : list json)
| JObj (fields : list (string * json)).

(** A JavaScript value read from a payload: [None] is [undefined]. *)
Definition value := option json.

(** What the code inspects of a thrown error: [error.code], [error.message]. *)
Record Error : Type := mkError {
  name : string;
  code : option Z;
  message : string
}.

Definition TypeError (msg : string) : Error := mkError "TypeError" None msg.
Definition SyntaxError (msg : string) : Error := mkError "SyntaxError" None msg.

Inductive Outcome (A : Type) : Type :=
| Return (a : A)
| Throw (e : Error).
Arguments Return {A} a.
Arguments Throw {A} e.

(** ToBoolean. *)
Definition truthy (v : value) : bool :=
  match v with
  | None => false
  | Some JNull => false
  | Some (JBool b) => b
  | Some (JNum n) => negb (n =? 0)
  | Some (JStr s) => negb (s =? "")%string
  | Some (JArr _) => true
  | Some (JObj _) => true
  end.

(** [a || b]. *)
Definition or_else (a b : value) : value := if truthy a then a else b.

Fixpoint lookup (k : string) (fields : list (string * json)) : value :=
  match fields with
  | [] => None
  | (k', v) :: rest => if (k =? k')%string then Some v else lookup k rest
  end.

(** Property read [v.k] for the keys the code uses (none of them is a
    property of a primitive or array prototype): reading from [undefined] or
    [null] throws, reading from a primitive or an array finds nothing. *)
Definition get (v : value) (k : string) : Outcome value :=
  match v with
  | None => Throw (TypeError "Cannot read properties of undefined")
  | Some JNull => Throw (TypeError "Cannot read properties of null")
  | Some (JObj fields) => Return (lookup k fields)
  | Some _ => Return None
  end.

(** Own enumerable string-keyed properties copied by [{...v}], restricted to
    named keys: spreading [undefined], [null] or a number, boolean copies
    nothing; strings and arrays contribute index keys only, which no schema
    path uses. *)
Definition spread (v : value) : list (string * json) :=
  match v with
  | Some (JObj fields) => fields
  | _ => []
  end.

Definition string_of_Z (n : Z) : string := NilZero.string_of_int (Z.to_int n).

(** *** Text

    A [string] holds a JavaScript string in UTF-8. *)

Definition byte (c : ascii) : nat := nat_of_ascii c.

Definition bytes (l : list nat) : string :=
  fold_right (fun n s => String (ascii_of_nat n) s) EmptyString l.

(** A byte [10xxxxxx], which continues a character. *)
Definition is_continuation (c : ascii) : bool :=
  (Nat.leb 128 (byte c) && Nat.leb (byte c) 191)%bool.

(** The characters of a text, each with the bytes that encode it. *)
Fixpoint chars (s : string) : list string :=
  match s with
  | EmptyString => []
  | String c rest =>
      match chars rest with
      | (String c' _ as next) :: more =>
          if is_continuation c' then String c next :: more
          else String c EmptyString :: next :: more
      | more => String c EmptyString :: more
      end
  end.

(** UTF-16 code units of a character: two beyond the basic plane (four
    bytes), one otherwise. *)
Definition units (ch : string) : nat :=
  match ch with
  | String c _ => if Nat.leb 240 (byte c) then 2%nat else 1%nat
  | EmptyString => 0%nat
  end.

(** [String.prototype.length] *)
Definition length16 (s : string) : nat :=
  fold_right (fun ch n => (units ch + n)%nat) 0%nat (chars s).

(** WhiteSpace and LineTerminator of ECMAScript: TAB, LF, VT, FF, CR, SP,
    U+00A0, U+1680, U+2000 to U+200A, U+2028, U+2029, U+202F, U+205F,
    U+3000, U+FEFF. *)
Definition white_space : list string :=
  map bytes
    [ [9]; [10]; [11]; [12]; [13]; [32]; [194; 160]; [225; 154; 128];
      [226; 128; 128]; [226; 128; 129]; [226; 128; 130]; [226; 128; 131];
      [226; 128; 132]; [226; 128; 133]; [226; 128; 134]; [226; 128; 135];
      [226; 128; 136]; [226; 128; 137]; [226; 128; 138]; [226; 128; 168];
      [226; 128; 169]; [226; 128; 175]; [226; 129; 159]; [227; 128; 128];
      [239; 187; 191] ]%nat.

Definition is_white (ch : string) : bool := existsb (String.eqb ch) white_space.

Fixpoint drop_white (l : list string) : list string :=
  match l with
  | [] => []
  | ch :: rest => if is_white ch then drop_white rest else l
  end.

Definition trimStart (s : string) : string :=
  String.concat "" (drop_white (chars s)).

(** [String.prototype.trim] *)
Definition trim (s : string) : string :=
  String.concat "" (rev (drop_white (rev (drop_white (chars s))))).

Definition lower_ascii (c : ascii) : ascii :=
  let n := nat_of_ascii c in
  if (Nat.leb 65 n && Nat.leb n 90)%bool then ascii_of_nat (n + 32) else c.

(** Lower case of a character: the ASCII letters, and the Kelvin sign
    U+212A, the one character outside ASCII whose lower case is an ASCII
    character.  Other characters are left as they are: the texts the model
    lowers are emails, and the pattern of [UserSchema.email] refuses a
    character outside ASCII in either case. *)
Definition lower (ch : string) : string :=
  match ch with
  | String c EmptyString => String (lower_ascii c) EmptyString
  | _ => if (ch =? bytes [226; 132; 170]%nat)%string then "k" else ch
  end.

(** [String.prototype.toLowerCase] *)
Definition toLowerCase (s : string) : string :=
  String.concat "" (map lower (chars s)).

(** *** Numbers

    A number of the runtime that is not [NaN]: a finite double
    [m * 2 ^ e], with [m] odd or [0], or an infinity. *)
Inductive number : Type :=
| Finite (m e : Z)
| Infinite (negative : bool).

Fixpoint strip (p : positive) (e : Z) : positive * Z :=
  match p with
  | xO p' => strip p' (e + 1)
  | _ => (p, e)
  end.

Definition normal (m e : Z) : number :=
  match m with
  | 0 => Finite 0 0
  | Zpos p => let (p', e') := strip p e in Finite (Zpos p') e'
  | Zneg p => let (p', e') := strip p e in Finite (Zneg p') e'
  end.

(** The integer nearest to [a / b], ties to even ([0 <= a], [0 < b]). *)
Definition round_half_even (a b : Z) : Z :=
  let k := a / b in
  match 2 * (a mod b) ?= b with
  | Lt => k
  | Gt => k + 1
  | Eq => if Z.even k then k else k + 1
  end.

(** The double nearest to [a / b] ([0 <= a], [0 < b]), with the given sign:
    53 bits of precision, exponents from [-1074], overflow to infinity. *)
Definition double_of_ratio (negative : bool) (a b : Z) : number :=
  if a =? 0 then Finite 0 0
  else
    let e0 := Z.log2 a - Z.log2 b in
    let reaches (k : Z) :=
      if 0 <=? k then b * 2 ^ k <=? a else b <=? a * 2 ^ (- k) in
    let e := if reaches e0 then e0 else e0 - 1 in
    let u := Z.max (e - 52) (-1074) in
    let m :=
      if 0 <=? u then round_half_even a (b * 2 ^ u)
      else round_half_even (a * 2 ^ (- u)) b in
    if ((0 <=? u) && (2 ^ 1024 <=? m * 2 ^ u))%bool then Infinite negative
    else normal (if negative then - m else m) u.

(** The double nearest to an integer. *)
Definition double_of_Z (n : Z) : number :=
  double_of_ratio (n <? 0) (Z.abs n) 1.

(** [m * 10 ^ e] as a double ([0 <= m]). *)
Definition double_of_decimal (negative : bool) (m e : Z) : number :=
  if 0 <=? e then double_of_ratio negative (m * 10 ^ e) 1
  else double_of_ratio negative m (10 ^ (- e)).

(** [x <= k] and [k <= x] for an integer [k]. *)
Definition at_most (x : number) (k : Z) : bool :=
  match x with
  | Finite m e => if 0 <=? e then m * 2 ^ e <=? k else m <=? k * 2 ^ (- e)
  | Infinite negative => negative
  end.

Definition at_least (x : number) (k : Z) : bool :=
  match x with
  | Finite m e => if 0 <=? e then k <=? m * 2 ^ e else k * 2 ^ (- e) <=? m
  | Infinite negative => negb negative
  end.

Definition digit_of (radix : Z) (c : ascii) : option Z :=
  let n := Z.of_nat (byte c) in
  let d :=
    if ((48 <=? n) && (n <=? 57))%bool then Some (n - 48)
    else if ((97 <=? n) && (n <=? 122))%bool then Some (n - 87)
    else if ((65 <=? n) && (n <=? 90))%bool then Some (n - 55)
    else None in
  match d with
  | Some v => if v <? radix then Some v else None
  | None => None
  end.

(** The longest prefix of [s] made of digits: its value after [acc], the
    number of its digits, and what follows it. *)
Fixpoint digits (radix : Z) (s : string) (acc : Z) (count : nat)
  : Z * nat * string :=
  match s with
  | EmptyString => (acc, count, s)
  | String c rest =>
      match digit_of radix c with
      | Some d => digits radix rest (acc * radix + d) (S count)
      | None => (acc, count, s)
      end
  end.

Definition signed (s : string) : bool * string :=
  match s with
  | String "-" rest => (true, rest)
  | String "+" rest => (false, rest)
  | _ => (false, s)
  end.

(** [s] without its first two characters when they are [0] and [x] or [X]
    (a letter, in either case). *)
Definition after_prefix (letter : ascii) (s : string) : option string :=
  match s with
  | String "0" (String c rest) =>
      if Ascii.eqb (lower_ascii c) letter then Some rest else None
  | _ => None
  end.

(** What [parseInt] returns. *)
Inductive parsed : Type :=
| Int (n : Z)
| NaN.

(** [parseInt(s)] without a radix: leading white space, a sign, [0x] for
    base 16, then the longest run of digits; the integer read is rounded to
    the nearest double.  (Beyond the range of doubles, some 308 digits,
    [parseInt] gives an infinity; the model keeps the integer.) *)
Definition parseInt (s : string) : parsed :=
  let (negative, s1) := signed (trimStart s) in
  let (radix, s2) :=
    match after_prefix "x" s1 with
    | Some rest => (16, rest)
    | None => (10, s1)
    end in
  match digits radix s2 0 0 with
  | (_, O, _) => NaN
  | (n, _, _) =>
      match double_of_Z (if negative then - n else n) with
      | Finite m e => Int (m * 2 ^ e)
      | Infinite _ => Int (if negative then - n else n)
      end
  end.

(** [Number(s)], the numeric value of a text; [None] is [NaN].  White space
    around the literal is skipped; the empty text is [0]; a literal is
    [0x], [0o] or [0b] with digits, or an optional sign before [Infinity]
    or before decimal digits with an optional fraction and exponent. *)
Definition Number (s : string) : option number :=
  let t := trim s in
  let based (radix : Z) (rest : string) : option number :=
    match digits radix rest 0 0 with
    | (_, O, _) => None
    | (n, _, EmptyString) => Some (double_of_Z n)
    | _ => None
    end in
  if (t =? "")%string then Some (Finite 0 0)
  else
    match after_prefix "x" t, after_prefix "o" t, after_prefix "b" t with
    | Some rest, _, _ => based 16 rest
    | _, Some rest, _ => based 8 rest
    | _, _, Some rest => based 2 rest
    | None, None, None =>
        let (negative, u) := signed t in
        if (u =? "Infinity")%string then Some (Infinite negative)
        else
          let '(i, ci, r1) := digits 10 u 0 0 in
          let '(m, cf, r2) :=
            match r1 with
            | String "." r => digits 10 r i 0
            | _ => (i, O, r1)
            end in
          let exponent : option Z :=
            match r2 with
            | EmptyString => Some 0
            | String c r =>
                if Ascii.eqb (lower_ascii c) "e" then
                  let (minus, r') := signed r in
                  match digits 10 r' 0 0 with
                  | (_, O, _) => None
                  | (x, _, EmptyString) => Some (if minus then - x else x)
                  | _ => None
                  end
                else None
            end in
          match (ci + cf)%nat, exponent with
          | O, _ => None
          | _, None => None
          | _, Some x =>
              Some (double_of_decimal negative m (x - Z.of_nat cf))
          end
    end.

(** A [Date] object: its instant in milliseconds; [None] is an Invalid
    Date. *)
Definition Date : Type := option Z.

(** [String(v)], as [new Date(v)] reads an array or an object. *)
Fixpoint text_of (j : json) : string :=
  match j with
  | JNull => "null"
  | JBool b => if b then "true" else "false"
  | JNum n => string_of_Z n
  | JStr s => s
  | JArr xs =>
      (fix items (xs : list json) : string :=
         match xs with
         | [] => ""
         | x :: rest =>
             (match x with JNull => "" | _ => text_of x end)
             ++ match rest with [] => "" | _ => "," ++ items rest end
         end) xs
  | JObj _ => "[object Object]"
  end.

End Js.

(* ================================================================== *)
(** ** Regular expressions (for the [match] validator of [UserSchema]) *)
(* ================================================================== *)

Module Regex.

Inductive regex : Type :=
| Void
| Eps
| Class (p : ascii -> bool)
| Seq (r s : regex)
| Alt (r s : regex)
| Star (r : regex).

Fixpoint nullable (r : regex) : bool :=
  match r with
  | Void => false
  | Eps => true
  | Class _ => false
  | Seq r s => nullable r && nullable s
  | Alt r s => nullable r || nullable s
  | Star _ => true
  end.

Fixpoint deriv (c : ascii) (r : regex) : regex :=
  match r with
  | Void => Void
  | Eps => Void
  | Class p => if p c then Eps else Void
  | Seq r s =>
      if nullable r then Alt (Seq (deriv c r) s) (deriv c s)
      else Seq (deriv c r) s
  | Alt r s => Alt (deriv c r) (deriv c s)
  | Star r => Seq (deriv c r) (Star r)
  end.

(** Whole-string match, as a pattern anchored by [^] and [$]. *)
Fixpoint test (r : regex) (s : string) : bool :=
  match s with
  | EmptyString => nullable r
  | String c rest => test (deriv c r) rest
  end.

Definition Plus (r : regex) : regex := Seq r (Star r).
Definition Opt (r : regex) : regex := Alt Eps r.
Definition Chr (c : ascii) : regex := Class (fun x => Ascii.eqb x c).

(** [\w] *)
Definition word_char (c : ascii) : bool :=
  let n := nat_of_ascii c in
  ((Nat.leb 48 n && Nat.leb n 57) || (Nat.leb 65 n && Nat.leb n 90)
   || (Nat.leb 97 n && Nat.leb n 122) || Nat.eqb n 95)%bool.

Definition W : regex := Class word_char.

End Regex.

(* ================================================================== *)
(** ** The two collections and the Mongoose schemas *)
(* ================================================================== *)

Module Event.

(** [IEvent.metadata].  [retryCount] has a schema default, so every
    document built by the model carries one. *)
Record Metadata : Type := mkMetadata {
  kafkaOffset : option Z;
  kafkaPartition : option Z;
  kafkaTopic : option string;
  retryCount : Z;
  errorMessage : option string
}.

(** A stored [IEvent].  [_id] is the ObjectId, drawn from a counter;
    [timestamp] is an instant in milliseconds. *)
Record Doc : Type := mkDoc {
  _id : nat;
  type : string;
  userId : option string;
  data : Js.json;
  source : string;
  timestamp : Z;
  processed : bool;
  metadata : Metadata
}.

(** The object handed to [new Event(...)]: [_id], [type], [userId] and
    [data] are values of a message or of a request; the rest is what the
    code computes ([kafkaOffset] with [parseInt], [timestamp] with
    [new Date]). *)
Record MetadataInit : Type := mkMetadataInit {
  init_kafkaOffset : option Js.parsed;
  init_kafkaPartition : option Z;
  init_kafkaTopic : option string;
  init_retryCount : option Z;
  init_errorMessage : option string
}.

Record Init : Type := mkInit {
  init_id : Js.value;
  init_type : Js.value;
  init_userId : Js.value;
  init_data : Js.value;
  init_source : option string;
  init_timestamp : option Js.Date;
  init_processed : option bool;
  init_metadata : option MetadataInit
}.

(** [EventSchema.type.enum] *)
Definition type_enum : list string :=
  [ "user.created"; "user.updated"; "user.deleted"; "user.login";
    "user.logout"; "order.created"; "order.updated"; "order.cancelled";
    "payment.processed"; "notification.sent"; "purchase.created";
    "purchase.updated"; "purchase.cancelled"; "system.health"; "custom" ].

(** [EventSchema.source.enum] *)
Definition source_enum : list string := [ "api"; "kafka"; "system"; "webhook" ].

End Event.

Module User.

Record Metadata : Type := mkMetadata {
  source : string;
  tags : list string;
  preferences : Js.json
}.

(** A stored [IUser]; [createdAt] and [updatedAt] are not tracked.  [age]
    and [isActive] may be missing or [null]. *)
Record Doc : Type := mkDoc {
  _id : nat;
  email : string;
  name : string;
  age : option Js.number;
  isActive : option bool;
  metadata : Metadata
}.

(** [UserSchema.metadata.source.enum] *)
Definition source_enum : list string := [ "api"; "kafka"; "import"; "manual" ].

(** [/^\w+([.-]?\w+)*@\w+([.-]?\w+)*(\.\w{2,3})+$/] *)
Definition email_pattern : Regex.regex :=
  let w := Regex.W in
  let dot_or_dash :=
    Regex.Class (fun c => (Ascii.eqb c "." || Ascii.eqb c "-")%bool) in
  let words := Regex.Seq (Regex.Plus w)
                 (Regex.Star (Regex.Seq (Regex.Opt dot_or_dash) (Regex.Plus w))) in
  let tld := Regex.Seq (Regex.Chr ".")
               (Regex.Seq w (Regex.Seq w (Regex.Opt w))) in
  Regex.Seq words (Regex.Seq (Regex.Chr "@") (Regex.Seq words (Regex.Plus tld))).

End User.

(** The database as the process sees it, with the wall clock ([Date.now()])
    and the ObjectId counter. *)
Record World : Type := mkWorld {
  events : list Event.Doc;
  users : list User.Doc;
  nextId : nat;
  now : Z
}.

Definition with_events (w : World) (es : list Event.Doc) : World :=
  mkWorld es (users w) (nextId w) (now w).

Definition with_users (w : World) (us : list User.Doc) : World :=
  mkWorld (events w) us (nextId w) (now w).

Definition with_nextId (w : World) (n : nat) : World :=
  mkWorld (events w) (users w) n (now w).

(** What the model takes from outside the sources.

    [Date_parse] is the runtime's [Date.parse]: the instant a text denotes,
    if it denotes one.

    [foreign_update] is what Mongoose and the server make of an update
    document that carries a key the model does not follow (an update
    operator such as [$inc], [_id], [createdAt], [metadata], ...), given the
    document the query finds, if any: an error, or the document as
    updated. *)
Record Platform : Type := mkPlatform {
  Date_parse : string -> option Z;
  foreign_update :
    list (string * Js.json) -> option User.Doc -> Js.Outcome (option User.Doc)
}.

(* ================================================================== *)
(** ** Promises over the database: state and exceptions *)
(* ================================================================== *)

Module Async.

Import Js.

Definition M (A : Type) : Type := World -> Outcome A * World.

Definition ret {A} (a : A) : M A := fun w => (Return a, w).

Definition throw {A} (e : Error) : M A := fun w => (Throw e, w).

Definition bind {A B} (m : M A) (k : A -> M B) : M B :=
  fun w =>
    match m w with
    | (Return a, w') => k a w'
    | (Throw e, w') => (Throw e, w')
    end.

(** [try { m } catch (error) { h error }]: what [m] wrote before throwing
    stays written. *)
Definition try_catch {A} (m : M A) (h : Error -> M A) : M A :=
  fun w =>
    match m w with
    | (Return a, w') => (Return a, w')
    | (Throw e, w') => h e w'
    end.

(** A synchronous expression that may throw. *)
Definition eval {A} (o : Outcome A) : M A := fun w => (o, w).

Definition getWorld : M World := fun w => (Return w, w).

End Async.

Declare Scope async_scope.
Delimit Scope async_scope with async.
Notation "x <- m ;; k" := (Async.bind m (fun x => k))
  (at level 61, m at next level, right associativity) : async_scope.
Notation "m ;; k" := (Async.bind m (fun _ => k))
  (at level 61, right associativity) : async_scope.

(* ================================================================== *)
(** ** Mongoose: casting, validation, save and queries *)
(* ================================================================== *)

Module Mongoose.

Import Js.

Definition ValidationError (msg : string) : Error :=
  mkError "ValidationError" None msg.

Definition CastErr (msg : string) : Error := mkError "CastError" None msg.

(** The server's E11000 on a unique index. *)
Definition DuplicateKey (msg : string) : Error :=
  mkError "MongoServerError" (Some 11000) msg.

Inductive Cast (A : Type) : Type :=
| Absent
| Casted (a : A)
| CastFailed.
Arguments Absent {A}.
Arguments Casted {A} a.
Arguments CastFailed {A}.

(** SchemaString cast: a primitive is rendered as text; an object that
    carries a non-empty text [_id] is cast to that text; any other object
    and any array is refused. *)
Definition castString (v : value) : Cast string :=
  match v with
  | None => Absent
  | Some JNull => Absent
  | Some (JStr s) => Casted s
  | Some (JNum n) => Casted (string_of_Z n)
  | Some (JBool b) => Casted (if b then "true" else "false")
  | Some (JArr _) => CastFailed
  | Some (JObj fields) =>
      match lookup "_id" fields with
      | Some (JStr s) => if (s =? "")%string then CastFailed else Casted s
      | _ => CastFailed
      end
  end.

(** SchemaNumber cast: [null] and the empty text are no value, a text or a
    boolean goes through [Number], [NaN] is refused. *)
Definition castNumber (v : value) : Cast number :=
  match v with
  | None => Absent
  | Some JNull => Absent
  | Some (JNum n) => Casted (double_of_Z n)
  | Some (JBool b) => Casted (if b then Finite 1 0 else Finite 0 0)
  | Some (JStr s) =>
      if (s =? "")%string then Absent
      else match Number s with
           | Some x => Casted x
           | None => CastFailed
           end
  | Some (JArr _) => CastFailed
  | Some (JObj _) => CastFailed
  end.

(** SchemaBoolean cast. *)
Definition castBoolean (v : value) : Cast bool :=
  match v with
  | None => Absent
  | Some JNull => Absent
  | Some (JBool b) => Casted b
  | Some (JNum n) =>
      if n =? 1 then Casted true else if n =? 0 then Casted false else CastFailed
  | Some (JStr s) =>
      if existsb (String.eqb s) ["true"; "1"; "yes"] then Casted true
      else if existsb (String.eqb s) ["false"; "0"; "no"] then Casted false
      else CastFailed
  | Some (JArr _) => CastFailed
  | Some (JObj _) => CastFailed
  end.

Definition hex_digit (c : ascii) : option nat :=
  let n := nat_of_ascii c in
  if (Nat.leb 48 n && Nat.leb n 57)%bool then Some (n - 48)%nat
  else if (Nat.leb 97 n && Nat.leb n 102)%bool then Some (n - 87)%nat
  else if (Nat.leb 65 n && Nat.leb n 70)%bool then Some (n - 55)%nat
  else None.

Fixpoint hex_value (acc : nat) (s : string) : option nat :=
  match s with
  | EmptyString => Some acc
  | String c rest =>
      match hex_digit c with
      | Some d => hex_value (16 * acc + d)%nat rest
      | None => None
      end
  end.

(** ObjectId cast of an id given as text: 24 hexadecimal digits. *)
Definition castObjectId (v : value) : Cast nat :=
  match v with
  | None => Absent
  | Some JNull => Absent
  | Some (JStr s) =>
      if Nat.eqb (String.length s) 24 then
        match hex_value 0 s with
        | Some n => Casted n
        | None => CastFailed
        end
      else CastFailed
  | Some _ => CastFailed
  end.

(** The instants a [Date] can hold. *)
Definition valid_instant (t : Z) : bool := Z.abs t <=? 8640000000000000.

(** SchemaDate cast: [null] and the empty text are no value, a boolean is
    refused, a number is an instant, a text that [Number] reads as a number
    of at least 275761 or below -271820 is an instant too, any other text
    goes to [Date.parse], and so does the text of an array or an object. *)
Definition castDate (rt : Platform) (v : value) : Cast Z :=
  let parse (s : string) : Cast Z :=
    match Date_parse rt s with
    | Some t => Casted t
    | None => CastFailed
    end in
  let instant (t : Z) : Cast Z :=
    if valid_instant t then Casted t else CastFailed in
  match v with
  | None => Absent
  | Some JNull => Absent
  | Some (JBool _) => CastFailed
  | Some (JNum n) => instant n
  | Some (JStr s) =>
      if (s =? "")%string then Absent
      else match Number s with
           | Some (Finite m e as x) =>
               if (at_least x 275761 || negb (at_least x (-271820)))%bool
               then instant (if 0 <=? e then m * 2 ^ e
                             else Z.quot m (2 ^ (- e)))
               else parse s
           | Some (Infinite _) => CastFailed
           | None => parse s
           end
  | Some j => parse (text_of j)
  end.

Definition in_enum (s : string) (enum : list string) : bool :=
  existsb (String.eqb s) enum.

(** *** Event *)

(** [new Event(init)] followed by validation: casts, setters ([trim]),
    defaults and the validators of [EventSchema].  [None] is a validation
    failure: a value that does not cast (an [_id] that is no ObjectId, an
    Invalid Date, [NaN]) or that a validator refuses.  [generated] is the
    ObjectId the constructor draws, used when [init] names no [_id]. *)
Definition Event_document (generated : nat) (clock : Z) (i : Event.Init)
  : option Event.Doc :=
  match castObjectId (Event.init_id i), castString (Event.init_type i),
        castString (Event.init_userId i) with
  | CastFailed, _, _ => None
  | _, _, CastFailed => None
  | id, Casted ty, uid =>
      let id := match id with Casted given => given | _ => generated end in
      let ty := trim ty in
      let uid := match uid with Casted u => Some u | _ => None end in
      let src := match Event.init_source i with
                 | Some s => s | None => "api" end in
      let m := Event.init_metadata i in
      let opt {A} (f : Event.MetadataInit -> option A) : option A :=
        match m with Some m => f m | None => None end in
      if negb (in_enum ty Event.type_enum) then None
      else if negb (in_enum src Event.source_enum) then None
      else
        match Event.init_data i, Event.init_timestamp i,
              opt Event.init_kafkaOffset with
        | Some JNull, _, _ => None
        | _, Some None, _ => None
        | _, _, Some NaN => None
        | d, t, offset =>
            Some (Event.mkDoc id ty uid
                    (match d with Some d => d | None => JObj [] end)
                    src
                    (match t with Some (Some t) => t | _ => clock end)
                    (match Event.init_processed i with
                     | Some b => b | None => false end)
                    (Event.mkMetadata
                       (match offset with Some (Int n) => Some n | _ => None end)
                       (opt Event.init_kafkaPartition)
                       (opt Event.init_kafkaTopic)
                       (match opt Event.init_retryCount with
                        | Some n => n | None => 0 end)
                       (opt Event.init_errorMessage)))
        end
  | _, _, _ => None
  end.

Definition event_id_taken (id : nat) (l : list Event.Doc) : bool :=
  existsb (fun e => Nat.eqb (Event._id e) id) l.

(** Whether [init] names the identifier itself. *)
Definition names_id (id : value) : bool :=
  match castObjectId id with
  | Casted _ => true
  | _ => false
  end.

(** [const event = new Event(init); await event.save()]: the constructor
    draws the ObjectId; [save] validates and inserts.  An identifier that
    [init] names and that is taken already is refused by the index on
    [_id]; one that the constructor draws is new. *)
Definition Event_save (i : Event.Init) : Async.M Event.Doc :=
  fun w =>
    let id := nextId w in
    let w := with_nextId w (S id) in
    match Event_document id (now w) i with
    | Some doc =>
        if (names_id (Event.init_id i)
            && event_id_taken (Event._id doc) (events w))%bool
        then (Throw (DuplicateKey "E11000 duplicate key error"), w)
        else (Return doc, with_events w (events w ++ [doc]))
    | None => (Throw (ValidationError "Event validation failed"), w)
    end.

Fixpoint update_by_id (id : nat) (f : Event.Doc -> Event.Doc)
  (l : list Event.Doc) : list Event.Doc :=
  match l with
  | [] => []
  | e :: rest =>
      if Nat.eqb (Event._id e) id then f e :: rest
      else e :: update_by_id id f rest
  end.

(** [Event.findByIdAndUpdate(id, update)] with an update that needs no
    validation ([$inc], [$unset], [processed: true]); its result is unused
    by the callers. *)
Definition Event_findByIdAndUpdate (id : nat) (f : Event.Doc -> Event.Doc)
  : Async.M unit :=
  fun w => (Return tt, with_events w (update_by_id id f (events w))).

(** [.sort({ timestamp: 1 })]: ascending, ties in collection order. *)
Fixpoint insert_by_timestamp (e : Event.Doc) (l : list Event.Doc)
  : list Event.Doc :=
  match l with
  | [] => [e]
  | x :: rest =>
      if Event.timestamp e <=? Event.timestamp x then e :: l
      else x :: insert_by_timestamp e rest
  end.

Definition sort_by_timestamp (l : list Event.Doc) : list Event.Doc :=
  fold_right insert_by_timestamp [] l.

(** [.limit(n)] as the server reads it: [0] is no limit, a negative bound
    counts by its absolute value. *)
Definition limit {A} (n : Z) (l : list A) : list A :=
  if n =? 0 then l else firstn (Z.to_nat (Z.abs n)) l.

(** *** User *)

(** [required] and [match] of [UserSchema.email]. *)
Definition valid_email (e : string) : bool :=
  (negb (e =? "")%string && Regex.test User.email_pattern e)%bool.

(** [required], [minlength] and [maxlength] of [UserSchema.name], which
    count UTF-16 code units. *)
Definition valid_name (n : string) : bool :=
  (Nat.leb 2 (length16 n) && Nat.leb (length16 n) 100)%bool.

(** [min] and [max] of [UserSchema.age]. *)
Definition valid_age (a : number) : bool := (at_least a 0 && at_most a 150)%bool.

(** Setters of [UserSchema.email]: [lowercase], [trim]. *)
Definition normalize_email (e : string) : string := trim (toLowerCase e).

Definition is_failed {A} (c : Cast A) : bool :=
  match c with CastFailed => true | _ => false end.

Definition some_of {A} (c : Cast A) : option A :=
  match c with Casted a => Some a | _ => None end.

Definition holds {A} (p : A -> bool) (o : option A) : bool :=
  match o with Some a => p a | None => true end.

(** [new User({ ...data, metadata })] followed by validation.  [generated]
    is the ObjectId the constructor draws, used when the payload names no
    [_id]; a payload may also name [createdAt] and [updatedAt], the two
    paths of [timestamps: true], which are cast and not tracked further.
    [isActive] takes its default when it is missing, not when it is
    [null]. *)
Definition User_document (rt : Platform) (generated : nat)
  (fields : list (string * json)) (m : User.Metadata) : option User.Doc :=
  let id := castObjectId (lookup "_id" fields) in
  let age := castNumber (lookup "age" fields) in
  let active := castBoolean (lookup "isActive" fields) in
  if (is_failed id || is_failed age || is_failed active
      || is_failed (castDate rt (lookup "createdAt" fields))
      || is_failed (castDate rt (lookup "updatedAt" fields)))%bool
  then None
  else
    match castString (lookup "email" fields), castString (lookup "name" fields) with
    | Casted e, Casted n =>
        let e := normalize_email e in
        let n := trim n in
        if (valid_email e && valid_name n && holds valid_age (some_of age)
            && in_enum (User.source m) User.source_enum)%bool
        then
          Some (User.mkDoc
                  (match id with Casted given => given | _ => generated end)
                  e n (some_of age)
                  (match lookup "isActive" fields with
                   | None => Some true
                   | Some _ => some_of active
                   end)
                  m)
        else None
    | _, _ => None
    end.

Definition email_taken (e : string) (l : list User.Doc) : bool :=
  existsb (fun u => (User.email u =? e)%string) l.

Definition id_taken (id : nat) (l : list User.Doc) : bool :=
  existsb (fun u => Nat.eqb (User._id u) id) l.

(** [const user = new User(init); await user.save()]: validation first, then
    the insert, which the unique index on [email] refuses with E11000, as
    the index on [_id] does for an identifier that the payload names and
    that is taken; an identifier that the constructor draws is new. *)
Definition User_save (rt : Platform) (fields : list (string * json))
  (m : User.Metadata) : Async.M User.Doc :=
  fun w =>
    let id := nextId w in
    let w := with_nextId w (S id) in
    match User_document rt id fields m with
    | None => (Throw (ValidationError "User validation failed"), w)
    | Some doc =>
        if (email_taken (User.email doc) (users w)
            || (names_id (lookup "_id" fields)
                && id_taken (User._id doc) (users w)))%bool
        then (Throw (DuplicateKey "E11000 duplicate key error"), w)
        else (Return doc, with_users w (users w ++ [doc]))
    end.

(** What an update does to a path that may be [null]. *)
Inductive Change (A : Type) : Type :=
| Keep
| Put (a : A)
| Clear.
Arguments Keep {A}.
Arguments Put {A} a.
Arguments Clear {A}.

(** An update of the four scalar paths of [UserSchema], after casting,
    setters and validators. *)
Record UserUpdate : Type := mkUserUpdate {
  set_email : option string;
  set_name : option string;
  set_age : Change number;
  set_isActive : Change bool
}.

(** The keys of an update document that the model follows; [updatedAt] is
    the one [handleUserUpdated] sets itself. *)
Definition followed : list string :=
  [ "email"; "name"; "age"; "isActive"; "updatedAt" ].

Definition is_foreign (fields : list (string * json)) : bool :=
  existsb (fun kv => negb (in_enum (fst kv) followed)) fields.

(** A required text path under [runValidators]: [null] is refused by
    [required], a value is cast, goes through the setters and then the
    validators. *)
Definition update_text (v : value) (setters : string -> string)
  (valid : string -> bool) : Outcome (option string) :=
  match v with
  | None => Return None
  | Some JNull => Throw (ValidationError "Validation failed")
  | Some _ =>
      match castString v with
      | Casted s =>
          if valid (setters s) then Return (Some (setters s))
          else Throw (ValidationError "Validation failed")
      | _ => Throw (CastErr "Cast to string failed")
      end
  end.

Definition update_age (v : value) : Outcome (Change number) :=
  match v with
  | None => Return Keep
  | Some _ =>
      match castNumber v with
      | Absent => Return Clear
      | Casted a =>
          if valid_age a then Return (Put a)
          else Throw (ValidationError "Validation failed")
      | CastFailed => Throw (CastErr "Cast to Number failed")
      end
  end.

Definition update_isActive (v : value) : Outcome (Change bool) :=
  match v with
  | None => Return Keep
  | Some _ =>
      match castBoolean v with
      | Absent => Return Clear
      | Casted b => Return (Put b)
      | CastFailed => Throw (CastErr "Cast to Boolean failed")
      end
  end.

(** Casting and validation of an update document whose keys are all
    followed, under [runValidators: true]. *)
Definition User_update_of (fields : list (string * json)) : Outcome UserUpdate :=
  match update_text (lookup "email" fields) normalize_email valid_email,
        update_text (lookup "name" fields) trim valid_name,
        update_age (lookup "age" fields),
        update_isActive (lookup "isActive" fields) with
  | Return e, Return n, Return a, Return b => Return (mkUserUpdate e n a b)
  | Throw error, _, _, _ => Throw error
  | _, Throw error, _, _ => Throw error
  | _, _, Throw error, _ => Throw error
  | _, _, _, Throw error => Throw error
  end.

Definition change {A} (c : Change A) (old : option A) : option A :=
  match c with
  | Keep => old
  | Put a => Some a
  | Clear => None
  end.

Definition apply_update (u : UserUpdate) (d : User.Doc) : User.Doc :=
  let pick {A} (o : option A) (old : A) : A :=
    match o with Some a => a | None => old end in
  User.mkDoc (User._id d)
    (pick (set_email u) (User.email d))
    (pick (set_name u) (User.name d))
    (change (set_age u) (User.age d))
    (change (set_isActive u) (User.isActive d))
    (User.metadata d).

Fixpoint find_user (id : nat) (l : list User.Doc) : option User.Doc :=
  match l with
  | [] => None
  | u :: rest => if Nat.eqb (User._id u) id then Some u else find_user id rest
  end.

Fixpoint replace_user (d : User.Doc) (l : list User.Doc) : list User.Doc :=
  match l with
  | [] => []
  | u :: rest =>
      if Nat.eqb (User._id u) (User._id d) then d :: rest
      else u :: replace_user d rest
  end.

(** The document after an update keeps its identifier, which is immutable. *)
Definition with_id (id : nat) (d : User.Doc) : User.Doc :=
  User.mkDoc id (User.email d) (User.name d) (User.age d) (User.isActive d)
    (User.metadata d).

(** [User.findByIdAndUpdate(id, update, { new: true, runValidators: true })]:
    the updated document, or [null] when the id names none.  The update
    document is cast and validated by the model when all its keys are
    followed, and left to [foreign_update] otherwise; the unique index on
    [email] holds in either case. *)
Definition User_findByIdAndUpdate (rt : Platform) (id : value)
  (fields : list (string * json)) : Async.M (option User.Doc) :=
  fun w =>
    match castObjectId id with
    | CastFailed => (Throw (CastErr "Cast to ObjectId failed"), w)
    | cast_id =>
        let found :=
          match cast_id with
          | Casted oid => find_user oid (users w)
          | _ => None
          end in
        let updated : Outcome (option User.Doc) :=
          if is_foreign fields then foreign_update rt fields found
          else
            match User_update_of fields with
            | Return u => Return (option_map (apply_update u) found)
            | Throw error => Throw error
            end in
        match updated, found with
        | Throw error, _ => (Throw error, w)
        | Return (Some d'), Some d =>
            let d' := with_id (User._id d) d' in
            if (negb (User.email d' =? User.email d)%string
                && email_taken (User.email d') (users w))%bool
            then (Throw (DuplicateKey "E11000 duplicate key error"), w)
            else (Return (Some d'), with_users w (replace_user d' (users w)))
        | Return _, _ => (Return None, w)
        end
    end.

(** [User.findByIdAndUpdate(id, { isActive: false }, { new: true })] *)
Definition User_deactivate (id : value) : Async.M (option User.Doc) :=
  fun w =>
    match castObjectId id with
    | CastFailed => (Throw (CastErr "Cast to ObjectId failed"), w)
    | Absent => (Return None, w)
    | Casted oid =>
        match find_user oid (users w) with
        | None => (Return None, w)
        | Some d =>
            let d' :=
              User.mkDoc (User._id d) (User.email d) (User.name d) (User.age d)
                (Some false) (User.metadata d) in
            (Return (Some d'), with_users w (replace_user d' (users w)))
        end
    end.

End Mongoose.

(* ================================================================== *)
(** ** kafka/consumer.ts *)
(* ================================================================== *)

Module KafkaConsumer.

Import Js Mongoose Async.
Local Open Scope async_scope.

(** [KafkaMessage] as kafkajs hands it over: [value] is the body
    ([Buffer | null], read through [toString()]); [offset] and [timestamp]
    are texts, the decimal digits of the broker's offset and of its instant
    in milliseconds; [timestamp] is [None] when the message has none. *)
Record KafkaMessage : Type := mkKafkaMessage {
  key : option string;
  value : option string;
  offset : string;
  timestamp : option string
}.

Record EachMessagePayload : Type := mkPayload {
  topic : string;
  partition : Z;
  message : KafkaMessage
}.

(** Evaluates [v.k1], [v.k2], ... in order, as the arguments of a log call. *)
Fixpoint reads (v : Js.value) (keys : list string) : Outcome unit :=
  match keys with
  | [] => Return tt
  | k :: rest =>
      match get v k with
      | Return _ => reads v rest
      | Throw e => Throw e
      end
  end.

Definition storeEvent (eventData : Event.Init) : M unit :=
  try_catch
    (_ <- Event_save eventData ;; ret tt)
    (fun error => throw error).

Definition handleUserDeleted (userId : Js.value) : M unit :=
  try_catch
    (_ <- User_deactivate userId ;; ret tt)
    (fun error => throw error).

Definition handleOrderCreated (data : Js.value) : M unit :=
  eval (reads data ["id"; "userId"]).

Definition handleNotificationSent (data : Js.value) : M unit :=
  eval (reads data ["id"; "userId"; "notificationType"]).

Definition handlePurchaseCreated (data : Js.value) : M unit :=
  try_catch
    (_ <- eval (reads data ["userId"; "username"]) ;;
     inner <- eval (get data "data") ;;
     _ <- eval (reads inner ["price"; "product"]) ;;
     _ <- eval (reads data ["userId"; "username"]) ;;
     eval (reads inner ["price"; "product"; "category"; "timestamp"]))
    (fun error => throw error).

Definition is_type (type : Js.value) (s : string) : bool :=
  match type with
  | Some (JStr t) => (t =? s)%string
  | _ => false
  end.

Definition storeFailedEvent (payload : EachMessagePayload) (error : Error)
  : M unit :=
  try_catch
    (let m := message payload in
     w <- getWorld ;;
     _ <- Event_save
            (Event.mkInit
               None
               (Some (JStr "system.error"))
               None
               (Some (JObj
                  ((match value m with
                    | Some raw => [("originalMessage", JStr raw)]
                    | None => []
                    end)
                   ++ [("error", JStr (Js.message error));
                       ("topic", JStr (topic payload));
                       ("partition", JNum (partition payload));
                       ("offset", JStr (offset m))])))
               (Some "kafka")
               (Some (Some (now w)))
               (Some false)
               (Some (Event.mkMetadataInit
                        (Some (parseInt (offset m)))
                        (Some (partition payload))
                        (Some (topic payload))
                        (Some 1)
                        (Some (Js.message error))))) ;;
     ret tt)
    (fun storeError => ret tt).

Section Handlers.

Variable rt : Platform.

Definition handleUserCreated (data : Js.value) : M unit :=
  try_catch
    (_ <- User_save rt (spread data)
            (User.mkMetadata "kafka" ["kafka-import"] (JObj [])) ;;
     ret tt)
    (fun error =>
       match code error with
       | Some 11000 => eval (reads data ["email"])
       | _ => throw error
       end).

(** The update document is [{ ...data, updatedAt: new Date() }]. *)
Definition handleUserUpdated (userId : Js.value) (data : Js.value) : M unit :=
  try_catch
    (_ <- User_findByIdAndUpdate rt userId (spread data) ;; ret tt)
    (fun error => throw error).

Definition processEvent (eventData : json) (topic : string) : M unit :=
  type <- eval (get (Some eventData) "type") ;;
  data <- eval (get (Some eventData) "data") ;;
  userId <- eval (get (Some eventData) "userId") ;;
  try_catch
    (if is_type type "user.created" then handleUserCreated data
     else if is_type type "user.updated" then handleUserUpdated userId data
     else if is_type type "user.deleted" then handleUserDeleted userId
     else if is_type type "order.created" then handleOrderCreated data
     else if is_type type "notification.sent" then handleNotificationSent data
     else if is_type type "purchase.created" then handlePurchaseCreated data
     else ret tt)
    (fun error => throw error).

(** The runtime's [JSON.parse]. *)
Variable JSON_parse : string -> Outcome json.

(** [new Date(message.timestamp || Date.now())] *)
Definition date_of (m : KafkaMessage) (clock : Z) : Js.Date :=
  match timestamp m with
  | None => Some clock
  | Some EmptyString => Some clock
  | Some text => Date_parse rt text
  end.

(** The Event built from a decoded message, as [handleMessage] passes it to
    [storeEvent]. *)
Definition eventOf (payload : EachMessagePayload) (eventData : json)
  (type userId data : Js.value) (clock : Z) : Event.Init :=
  let m := message payload in
  Event.mkInit
    None
    (or_else type (Some (JStr "custom")))
    userId
    (or_else data (Some eventData))
    (Some "kafka")
    (Some (date_of m clock))
    (Some false)
    (Some (Event.mkMetadataInit
             (Some (parseInt (offset m)))
             (Some (partition payload))
             (Some (topic payload))
             (Some 0)
             None)).

Definition handleMessage (payload : EachMessagePayload) : M unit :=
  try_catch
    (match value (message payload) with
     | None => ret tt
     | Some EmptyString => ret tt
     | Some messageValue =>
         eventData <- eval (JSON_parse messageValue) ;;
         type <- eval (get (Some eventData) "type") ;;
         userId <- eval (get (Some eventData) "userId") ;;
         data <- eval (get (Some eventData) "data") ;;
         w <- getWorld ;;
         storeEvent (eventOf payload eventData type userId data (now w)) ;;
         processEvent eventData (topic payload)
     end)
    (fun error => storeFailedEvent payload error).

(** The consumer feeds the handler one message after the other. *)
Fixpoint consume (batch : list EachMessagePayload) : M unit :=
  match batch with
  | [] => ret tt
  | p :: rest => handleMessage p ;; consume rest
  end.

End Handlers.

End KafkaConsumer.

(* ================================================================== *)
(** ** controllers/eventController.ts, routes/eventRoutes.ts *)
(* ================================================================== *)

Module EventController.

Import Js Mongoose Async.
Local Open Scope async_scope.

(** [req.query] of the retry route: [limit] is the integer its text denotes
    under [parseInt], [None] when the parameter is omitted.  A text that
    denotes no integer is outside the model. *)
Record Request : Type := mkRequest {
  query_limit : option Z
}.

(** [res.status(s).json({ success, message, data: { retriedCount } })] *)
Record Response : Type := mkResponse {
  status : Z;
  success : bool;
  message : string;
  retriedCount : option nat
}.

(** [{ processed: false, 'metadata.retryCount': { $lt: 3 } }] *)
Definition failed_filter (e : Event.Doc) : bool :=
  (negb (Event.processed e) && (Event.retryCount (Event.metadata e) <? 3))%bool.

(** [Event.find(filter).sort({ timestamp: 1 }).limit(n).lean()] *)
Definition find_failed (n : Z) (l : list Event.Doc) : list Event.Doc :=
  limit n (sort_by_timestamp (filter failed_filter l)).

(** [{ $inc: { 'metadata.retryCount': 1 }, $unset: { 'metadata.errorMessage': 1 } }] *)
Definition inc_retry (e : Event.Doc) : Event.Doc :=
  let m := Event.metadata e in
  Event.mkDoc (Event._id e) (Event.type e) (Event.userId e) (Event.data e)
    (Event.source e) (Event.timestamp e) (Event.processed e)
    (Event.mkMetadata (Event.kafkaOffset m) (Event.kafkaPartition m)
       (Event.kafkaTopic m) (Event.retryCount m + 1) None).

(** [{ processed: true }] *)
Definition mark_processed (e : Event.Doc) : Event.Doc :=
  Event.mkDoc (Event._id e) (Event.type e) (Event.userId e) (Event.data e)
    (Event.source e) (Event.timestamp e) true (Event.metadata e).

(** The body of the callback mapped over [failedEvents]; the result says
    whether [retriedCount++] ran. *)
Definition retryOne (event : Event.Doc) : M bool :=
  try_catch
    (Event_findByIdAndUpdate (Event._id event) inc_retry ;;
     Event_findByIdAndUpdate (Event._id event) mark_processed ;;
     ret true)
    (fun error => ret false).

(** [await Promise.all(failedEvents.map(...))]: the callbacks update
    documents of different ids, so they are run one after the other. *)
Fixpoint retryEach (l : list Event.Doc) (retried : nat) : M nat :=
  match l with
  | [] => ret retried
  | event :: rest =>
      ok <- retryOne event ;;
      retryEach rest (if ok then S retried else retried)
  end.

Definition retryFailedEvents (req : Request) : M Response :=
  try_catch
    (let limit := match query_limit req with Some n => n | None => 10 end in
     w <- getWorld ;;
     let failedEvents := find_failed limit (events w) in
     if Nat.eqb (List.length failedEvents) 0 then
       ret (mkResponse 200 true "No failed events to retry" (Some 0%nat))
     else
       retried <- retryEach failedEvents 0 ;;
       ret (mkResponse 200 true
              (string_of_Z (Z.of_nat retried) ++ " events retried successfully")
              (Some retried)))
    (fun error => ret (mkResponse 500 false "Internal server error" None)).

(** [validateRetryParams]: [query('limit').optional().isInt({ min: 1, max: 50 })]. *)
Definition validateRetryParams (req : Request) : bool :=
  match query_limit req with
  | None => true
  | Some n => ((1 <=? n) && (n <=? 50))%bool
  end.

(** [router.post('/retry', async (req, res) => { ... })], for a request the
    router's [rateLimiter] lets through: the handler calls the controller; no
    validation chain is mounted on the route. *)
Definition post_retry (req : Request) : M Response := retryFailedEvents req.

End EventController.

(* ================================================================== *)
(** ** kafka/producer.ts *)
(* ================================================================== *)

Module KafkaProducer.

Import Js.

(** One element of [messages] in [producer.send]. *)
Record Message : Type := mkMessage {
  key : Js.value;
  value : string;
  timestamp : string;
  headers : list (string * Js.value)
}.

Record ProducerRecord : Type := mkRecord {
  topic : string;
  messages : list Message
}.

(** The producer object: its flag, and what it has handed to the broker. *)
Record Producer : Type := mkProducer {
  isConnected : bool;
  sent : list ProducerRecord
}.

Section Send.

(** The runtime's [JSON.stringify], [Date.now().toString()] and
    [new Date().toISOString()] at the time of the call. *)
Variable JSON_stringify : json -> string.
Variable now_text : string.
Variable now_iso : string.

(** [key || message.userId || 'default'] *)
Definition routing_key (key : option string) (userId : Js.value) : Js.value :=
  or_else (or_else (option_map JStr key) userId) (Some (JStr "default")).

Definition sendMessage (topic : string) (message : json) (key : option string)
  (p : Producer) : Outcome unit * Producer :=
  if negb (isConnected p) then
    (Throw (mkError "Error" None "Kafka producer not connected"), p)
  else
    let messageValue := JSON_stringify message in
    match get (Some message) "type", get (Some message) "userId" with
    | Return type, Return userId =>
        let record :=
          mkRecord topic
            [ mkMessage (routing_key key userId) messageValue now_text
                [ ("content-type", Some (JStr "application/json"));
                  ("source", Some (JStr "api"));
                  ("message-type", or_else type (Some (JStr "unknown"))) ] ] in
        (Return tt, mkProducer (isConnected p) (sent p ++ [record]))
    | Throw error, _ => (Throw error, p)
    | _, Throw error => (Throw error, p)
    end.

Definition field (k : string) (v : Js.value) : list (string * json) :=
  match v with
  | Some j => [(k, j)]
  | None => []
  end.

Definition sendUserEvent (eventType : string) (userId : string) (data : Js.value)
  (p : Producer) : Outcome unit * Producer :=
  let message :=
    JObj ([("type", JStr eventType); ("userId", JStr userId)]
          ++ field "data" data
          ++ [("source", JStr "api"); ("timestamp", JStr now_iso)]) in
  sendMessage "user-events" message (Some userId) p.

Definition sendSystemEvent (eventType : string) (data : Js.value)
  (p : Producer) : Outcome unit * Producer :=
  let message :=
    JObj ([("type", JStr eventType)]
          ++ field "data" data
          ++ [("source", JStr "system"); ("timestamp", JStr now_iso)]) in
  sendMessage "system-events" message None p.

End Send.

End KafkaProducer.

(* ================================================================== *)
(** ** Sample messages and stores *)
(* ================================================================== *)

Module Samples.

Import Js.

Definition dq : string := String "034"%char EmptyString.

(** [q s] is [s] between double quotes. *)
Definition q (s : string) : string := dq ++ s ++ dq.

(** [JSON.stringify] on documents whose texts need no escaping. *)
Fixpoint JSON_stringify (j : json) : string :=
  match j with
  | JNull => "null"
  | JBool b => if b then "true" else "false"
  | JNum n => string_of_Z n
  | JStr s => q s
  | JArr xs =>
      "[" ++ (fix items (xs : list json) : string :=
                match xs with
                | [] => ""
                | x :: rest =>
                    JSON_stringify x
                    ++ match rest with [] => "" | _ => "," ++ items rest end
                end) xs ++ "]"
  | JObj fields =>
      "{" ++ (fix members (fs : list (string * json)) : string :=
                match fs with
                | [] => ""
                | (k, v) :: rest =>
                    q k ++ ":" ++ JSON_stringify v
                    ++ match rest with [] => "" | _ => "," ++ members rest end
                end) fields ++ "}"
  end.

(** [{"type":"user.created","data":{"email":"a@x.com","name":"Alice"}}] *)
Definition body_user_created : string :=
  "{" ++ q "type" ++ ":" ++ q "user.created" ++ "," ++ q "data" ++ ":{"
  ++ q "email" ++ ":" ++ q "a@x.com" ++ "," ++ q "name" ++ ":" ++ q "Alice"
  ++ "}}".

Definition doc_user_created : json :=
  JObj [ ("type", JStr "user.created");
         ("data", JObj [ ("email", JStr "a@x.com"); ("name", JStr "Alice") ]) ].

(** A purchase as [sendPurchaseEvent] publishes it:
    [{"type":"purchase.created","userId":"u1","username":"Alice",
      "data":{"price":30,"product":"book","source":"web"},"source":"web",
      "timestamp":"2023-12-01T10:00:00.000Z"}] *)
Definition body_purchase : string :=
  "{" ++ q "type" ++ ":" ++ q "purchase.created" ++ "," ++ q "userId" ++ ":"
  ++ q "u1" ++ "," ++ q "username" ++ ":" ++ q "Alice" ++ "," ++ q "data"
  ++ ":{" ++ q "price" ++ ":30," ++ q "product" ++ ":" ++ q "book" ++ ","
  ++ q "source" ++ ":" ++ q "web" ++ "}," ++ q "source" ++ ":" ++ q "web"
  ++ "," ++ q "timestamp" ++ ":" ++ q "2023-12-01T10:00:00.000Z" ++ "}".

Definition doc_purchase : json :=
  JObj [ ("type", JStr "purchase.created");
         ("userId", JStr "u1");
         ("username", JStr "Alice");
         ("data", JObj [ ("price", JNum 30); ("product", JStr "book");
                         ("source", JStr "web") ]);
         ("source", JStr "web");
         ("timestamp", JStr "2023-12-01T10:00:00.000Z") ].

(** [{"type":"order.shipped","data":{"id":7}}] *)
Definition body_order_shipped : string :=
  "{" ++ q "type" ++ ":" ++ q "order.shipped" ++ "," ++ q "data" ++ ":{"
  ++ q "id" ++ ":7}}".

Definition doc_order_shipped : json :=
  JObj [ ("type", JStr "order.shipped"); ("data", JObj [ ("id", JNum 7) ]) ].

(** [{"type":"user.updated","userId":"000000000000000000000000",
      "data":{"name":"Alicia"}}] *)
Definition body_user_updated : string :=
  "{" ++ q "type" ++ ":" ++ q "user.updated" ++ "," ++ q "userId" ++ ":"
  ++ q "000000000000000000000000" ++ "," ++ q "data" ++ ":{" ++ q "name"
  ++ ":" ++ q "Alicia" ++ "}}".

Definition doc_user_updated : json :=
  JObj [ ("type", JStr "user.updated");
         ("userId", JStr "000000000000000000000000");
         ("data", JObj [ ("name", JStr "Alicia") ]) ].

(** The Events [handleMessage] stores for the first two bodies when they
    arrive without a timestamp at offset 5 of partition 0 of their topic, in
    an empty store, at the instant 1700000000500. *)
Definition event_user_created : Event.Doc :=
  Event.mkDoc 0 "user.created" None
    (JObj [ ("email", JStr "a@x.com"); ("name", JStr "Alice") ])
    "kafka" 1700000000500 false
    (Event.mkMetadata (Some 5) (Some 0) (Some "user-events") 0 None).

Definition event_purchase : Event.Doc :=
  Event.mkDoc 0 "purchase.created" (Some "u1")
    (JObj [ ("price", JNum 30); ("product", JStr "book");
            ("source", JStr "web") ])
    "kafka" 1700000000500 false
    (Event.mkMetadata (Some 5) (Some 0) (Some "purchase-events") 0 None).

(** A body that is not JSON. *)
Definition body_poison : string := "not json".

(** [JSON.parse] on the sample bodies; any other text here is the poison
    body or is treated like it. *)
Definition JSON_parse (s : string) : Outcome json :=
  if (s =? body_user_created)%string then Return doc_user_created
  else if (s =? body_purchase)%string then Return doc_purchase
  else if (s =? body_order_shipped)%string then Return doc_order_shipped
  else if (s =? body_user_updated)%string then Return doc_user_updated
  else Throw (SyntaxError "Unexpected token o in JSON at position 1").

(** [Date.parse] on the sample texts.  The decimal digits of an instant in
    milliseconds, which is what the broker client hands over as a
    timestamp, are not a date-time text: [new Date("1700000000000")] is an
    Invalid Date.  The one date-time text here is that instant in ISO
    format. *)
Definition Date_parse (s : string) : option Z :=
  if (s =? "2023-11-14T22:13:20.000Z")%string then Some 1700000000000
  else None.

(** No sample update carries a key that the model does not follow; one that
    would is refused here, as the server refuses an unknown operator. *)
Definition foreign_update (fields : list (string * json))
  (found : option User.Doc) : Outcome (option User.Doc) :=
  Throw (mkError "MongoServerError" (Some 9) "Unknown modifier").

Definition platform : Platform := mkPlatform Date_parse foreign_update.

(** A message as the broker client delivers it: the offset and the
    timestamp (here the instant 1700000000000) are decimal texts. *)
Definition deliver (topic : string) (offset : Z) (body : option string)
  : KafkaConsumer.EachMessagePayload :=
  KafkaConsumer.mkPayload topic 0
    (KafkaConsumer.mkKafkaMessage None body (string_of_Z offset)
       (Some "1700000000000")).

(** The same message without a timestamp: the code then takes
    [Date.now()]. *)
Definition deliver_untimed (topic : string) (offset : Z) (body : option string)
  : KafkaConsumer.EachMessagePayload :=
  KafkaConsumer.mkPayload topic 0
    (KafkaConsumer.mkKafkaMessage None body (string_of_Z offset) None).

(** The message built by [sendSystemEvent('system.health', {})]. *)
Definition system_health_message : json :=
  JObj [ ("type", JStr "system.health"); ("data", JObj []);
         ("source", JStr "system");
         ("timestamp", JStr "2023-11-14T22:13:20.500Z") ].

(** A message that names its user. *)
Definition user_login_message : json :=
  JObj [ ("type", JStr "user.login"); ("userId", JStr "u1");
         ("data", JObj []) ].

Definition connected : KafkaProducer.Producer :=
  KafkaProducer.mkProducer true [].

(** Both collections empty. *)
Definition empty_world : World := mkWorld [] [] 0 1700000000500.

(** Unprocessed broker Events, as [handleMessage] stores them. *)
Definition failed_event (id : nat) (type : string) (data : json)
  (timestamp retryCount : Z) : Event.Doc :=
  Event.mkDoc id type None data "kafka" timestamp false
    (Event.mkMetadata (Some (Z.of_nat id)) (Some 0) (Some "user-events")
       retryCount (Some "handler failed")).

(** A store that already holds the user of email [a@x.com]. *)
Definition world_with_alice : World :=
  mkWorld []
    [ User.mkDoc 0 "a@x.com" "Alice" None (Some true)
        (User.mkMetadata "kafka" ["kafka-import"] (JObj [])) ]
    1 1700000000500.

(** A purchase whose handler throws and a user creation that has not
    happened yet, both waiting for a retry. *)
Definition pending_purchase : Event.Doc :=
  failed_event 0 "purchase.created"
    (JObj [ ("price", JNum 30); ("product", JStr "book") ]) 100 1.

Definition pending_user : Event.Doc :=
  failed_event 1 "user.created"
    (JObj [ ("email", JStr "b@x.com"); ("name", JStr "Bob") ]) 200 0.

Definition pending_world : World :=
  mkWorld [pending_user; pending_purchase] [] 2 1700000000500.

(** [n] unprocessed Events with identifiers and timestamps [0 .. n-1]. *)
Definition backlog (n : nat) : World :=
  mkWorld
    (map (fun i => failed_event i "custom" (JObj []) (Z.of_nat i) 0) (seq 0 n))
    [] n 1700000000500.

End Samples.

(* ================================================================== *)
(** ** Observations used to state the properties *)
(* ================================================================== *)

Module Observations.

Import Js Mongoose Async KafkaConsumer.

(** A computation that leaves the Event collection as it found it. *)
Definition keeps_events {A} (m : M A) : Prop :=
  forall w, events (snd (m w)) = events w.

(** The document [handleMessage] hands to [storeEvent] for a decoded
    message, after the schema's setters, defaults and validators: [None]
    when reading the message throws or validation refuses the document. *)
Definition decoded_event (rt : Platform) (payload : EachMessagePayload)
  (eventData : json) (w : World) : option Event.Doc :=
  match get (Some eventData) "type", get (Some eventData) "userId",
        get (Some eventData) "data" with
  | Return type, Return userId, Return data =>
      Event_document (nextId w) (now w)
        (eventOf rt payload eventData type userId data (now w))
  | _, _, _ => None
  end.

(** The world once [doc] has been saved. *)
Definition stored (w : World) (doc : Event.Doc) : World :=
  with_events (with_nextId w (S (nextId w))) (events w ++ [doc]).

(** The decoded message a stored Event stands for, as a handler would be
    given it again. *)
Definition eventData_of (e : Event.Doc) : json :=
  JObj ([("type", JStr (Event.type e))]
        ++ match Event.userId e with
           | Some u => [("userId", JStr u)]
           | None => []
           end
        ++ [("data", Event.data e)]).





Definition selected (sel : list Event.Doc) (e : Event.Doc) : bool :=
  existsb (fun s => Nat.eqb (Event._id s) (Event._id e)) sel.

(** The batch bound of a retry request: [const { limit = 10 } = req.query]. *)
Definition limit_of (req : EventController.Request) : Z :=
  match EventController.query_limit req with
  | Some n => n
  | None => 10
  end.

(** [f] applied to the document of identifier [id], if it is this one. *)
Definition touch (id : nat) (f : Event.Doc -> Event.Doc) (e : Event.Doc)
  : Event.Doc :=
  if Nat.eqb (Event._id e) id then f e else e.

(** The two updates [retryFailedEvents] applies to a selected Event. *)
Definition retry_update (e : Event.Doc) : Event.Doc :=
  EventController.mark_processed (EventController.inc_retry e).

(** The collection after a retry of the selection [sel]. *)
Definition retried (sel l : list Event.Doc) : list Event.Doc :=
  map (fun e => if selected sel e then retry_update e else e) l.

End Observations.

(* ================================================================== *)
(** ** kafka/consumer.ts and kafka/producer.ts: life cycle *)
(* ================================================================== *)

Module Lifecycle.

Import Js.

(** A call made on the kafkajs consumer object. *)
Inductive ClientCall : Type :=
| Connect
| Subscribe (topics : list string)
| Run
| Disconnect.

(** The [KafkaConsumer] object: its two fields, and the calls it has made on
    its kafkajs consumer so far. *)
Record Consumer : Type := mkConsumer {
  isRunning : bool;
  topics : list string;
  calls : list ClientCall
}.

(** The object the constructor builds. *)
Definition new_consumer : Consumer :=
  mkConsumer false
    [ "user-events"; "system-events"; "notification-events"; "order-events";
      "purchase-events" ]
    [].

Definition includes (topic : string) (l : list string) : bool :=
  existsb (String.eqb topic) l.

(** [l.splice(l.indexOf(topic), 1)] when [topic] is in [l]: the first
    occurrence is removed. *)
Fixpoint remove_first (topic : string) (l : list string) : list string :=
  match l with
  | [] => []
  | t :: rest =>
      if (t =? topic)%string then rest else t :: remove_first topic rest
  end.

Section Client.

(** How the kafkajs consumer answers a call, given the calls made before. *)
Variable client : list ClientCall -> ClientCall -> Outcome unit.

(** Reading [(this.kafka as any).config.brokers] and
    [(this.consumer as any).config.groupId] for the first log line of
    [start]: it throws when the client object carries no [config]. *)
Variable config : Outcome unit.

(** [await this.consumer.<call>(...)] *)
Definition call (c : ClientCall) (k : Consumer) : Outcome unit * Consumer :=
  (client (calls k) c, mkConsumer (isRunning k) (topics k) (calls k ++ [c])).

Definition set_running (b : bool) (k : Consumer) : Consumer :=
  mkConsumer b (topics k) (calls k).

Definition start (k : Consumer) : Outcome unit * Consumer :=
  if isRunning k then (Return tt, k)
  else
    match config with
    | Throw error => (Throw error, k)
    | Return _ =>
        match call Connect k with
        | (Throw error, k1) => (Throw error, k1)
        | (Return _, k1) =>
            match call (Subscribe (topics k1)) k1 with
            | (Throw error, k2) => (Throw error, k2)
            | (Return _, k2) =>
                match call Run k2 with
                | (Throw error, k3) => (Throw error, k3)
                | (Return _, k3) => (Return tt, set_running true k3)
                end
            end
        end
    end.

Definition stop (k : Consumer) : Outcome unit * Consumer :=
  if negb (isRunning k) then (Return tt, k)
  else
    match call Disconnect k with
    | (Throw error, k1) => (Throw error, k1)
    | (Return _, k1) => (Return tt, set_running false k1)
    end.

Definition addTopic (topic : string) (k : Consumer) : Outcome unit * Consumer :=
  if negb (includes topic (topics k)) then
    let k1 := mkConsumer (isRunning k) (topics k ++ [topic]) (calls k) in
    if isRunning k1 then call (Subscribe [topic]) k1
    else (Return tt, k1)
  else (Return tt, k).

Definition removeTopic (topic : string) (k : Consumer) : Outcome unit * Consumer :=
  if includes topic (topics k) then
    (Return tt, mkConsumer (isRunning k) (remove_first topic (topics k)) (calls k))
  else (Return tt, k).

(** One operation on the consumer object. *)
Inductive Op : Type :=
| OpStart
| OpStop
| OpAddTopic (topic : string)
| OpRemoveTopic (topic : string).

Definition run_op (o : Op) (k : Consumer) : Outcome unit * Consumer :=
  match o with
  | OpStart => start k
  | OpStop => stop k
  | OpAddTopic t => addTopic t k
  | OpRemoveTopic t => removeTopic t k
  end.

(** A sequence of operations, each awaited by a caller that goes on whether
    it succeeded or not. *)
Fixpoint run_ops (ops : list Op) (k : Consumer) : Consumer :=
  match ops with
  | [] => k
  | o :: rest => run_ops rest (snd (run_op o k))
  end.

End Client.

(** *** [KafkaProducer.connect], [KafkaProducer.disconnect] *)

(** [config] is the reading of [(this.kafka as any).config.brokers] for the
    log line, [client] the answer of [this.producer.connect()]. *)
Definition connect (config client : Outcome unit) (p : KafkaProducer.Producer)
  : Outcome unit * KafkaProducer.Producer :=
  if KafkaProducer.isConnected p then (Return tt, p)
  else
    match config, client with
    | Return _, Return _ =>
        (Return tt, KafkaProducer.mkProducer true (KafkaProducer.sent p))
    | Throw error, _ => (Throw error, p)
    | _, Throw error => (Throw error, p)
    end.

(** [client] is the answer of [this.producer.disconnect()]. *)
Definition disconnect (client : Outcome unit) (p : KafkaProducer.Producer)
  : Outcome unit * KafkaProducer.Producer :=
  if negb (KafkaProducer.isConnected p) then (Return tt, p)
  else
    match client with
    | Return _ => (Return tt, KafkaProducer.mkProducer false (KafkaProducer.sent p))
    | Throw error => (Throw error, p)
    end.

End Lifecycle.

(* ================================================================== *)
(** ** The producer service (its [/produce] and [/purchase] endpoints) *)
(* ================================================================== *)

Module ProducerService.

Import Js KafkaProducer.

Record HttpResponse : Type := mkHttpResponse {
  status : Z;
  success : bool;
  message : string
}.

Section Service.

Variable JSON_stringify : json -> string.
Variable now_text : string.
Variable now_iso : string.

(** [sendMessage] as its callers in the service use it: the key argument is
    a value of the request, of any type. *)
Definition sendMessageAny (topic : string) (message : json) (key : Js.value)
  (p : Producer) : Outcome unit * Producer :=
  if negb (isConnected p) then
    (Throw (mkError "Error" None "Kafka producer not connected"), p)
  else
    let messageValue := JSON_stringify message in
    match get (Some message) "type", get (Some message) "userId" with
    | Return type, Return userId =>
        let record :=
          mkRecord topic
            [ mkMessage (or_else (or_else key userId) (Some (JStr "default")))
                messageValue now_text
                [ ("content-type", Some (JStr "application/json"));
                  ("source", Some (JStr "api"));
                  ("message-type", or_else type (Some (JStr "unknown"))) ] ] in
        (Return tt, mkProducer (isConnected p) (sent p ++ [record]))
    | Throw error, _ => (Throw error, p)
    | _, Throw error => (Throw error, p)
    end.

Definition sendPurchaseEvent (purchaseData : Js.value) (p : Producer)
  : Outcome unit * Producer :=
  match get purchaseData "userId", get purchaseData "username",
        get purchaseData "data" with
  | Return userId, Return username, Return data =>
      match get data "price", get data "timestamp", get data "product",
            get data "category" with
      | Return price, Return timestamp, Return product, Return category =>
          let message :=
            JObj ([("type", JStr "purchase.created")]
                  ++ field "userId" userId
                  ++ field "username" username
                  ++ [("data",
                       JObj (field "price" price ++ field "timestamp" timestamp
                             ++ field "product" product
                             ++ field "category" category
                             ++ [("source", JStr "web")]));
                      ("source", JStr "web");
                      ("timestamp", JStr now_iso)]) in
          sendMessageAny "purchase-events" message userId p
      | Throw error, _, _, _ => (Throw error, p)
      | _, Throw error, _, _ => (Throw error, p)
      | _, _, Throw error, _ => (Throw error, p)
      | _, _, _, Throw error => (Throw error, p)
      end
  | Throw error, _, _ => (Throw error, p)
  | _, Throw error, _ => (Throw error, p)
  | _, _, Throw error => (Throw error, p)
  end.

(** The body of [POST /produce], for a body whose [topic], when present, is
    text. *)
Record ProduceBody : Type := mkProduceBody {
  body_topic : option string;
  body_message : Js.value
}.

Definition bad_request (msg : string) : HttpResponse :=
  mkHttpResponse 400 false msg.

Definition post_produce (body : ProduceBody) (p : Producer)
  : HttpResponse * Producer :=
  if (negb (truthy (option_map JStr (body_topic body)))
      || negb (truthy (body_message body)))%bool
  then (bad_request "Topic and message are required", p)
  else
    match body_topic body, body_message body with
    | Some topic, Some message =>
        match get (Some message) "type" with
        | Return type =>
            if negb (truthy type)
            then (bad_request "Message type is required", p)
            else
              match get (Some message) "userId" with
              | Return userId =>
                  match sendMessageAny topic message userId p with
                  | (Return _, p') =>
                      (mkHttpResponse 200 true
                         "Message sent to Kafka successfully", p')
                  | (Throw _, p') =>
                      (mkHttpResponse 500 false
                         "Failed to send message to Kafka", p')
                  end
              | Throw _ =>
                  (mkHttpResponse 500 false "Failed to send message to Kafka", p)
              end
        | Throw _ =>
            (mkHttpResponse 500 false "Failed to send message to Kafka", p)
        end
    | _, _ => (bad_request "Topic and message are required", p)
    end.

Definition post_purchase (purchaseData : json) (p : Producer)
  : HttpResponse * Producer :=
  let failed := mkHttpResponse 500 false "Failed to process purchase" in
  match get (Some purchaseData) "userId", get (Some purchaseData) "username",
        get (Some purchaseData) "data" with
  | Return userId, Return username, Return data =>
      if (negb (truthy userId) || negb (truthy username) || negb (truthy data))%bool
      then (bad_request "userId, username, and data are required", p)
      else
        match get data "price" with
        | Return _ =>
            match sendPurchaseEvent (Some purchaseData) p with
            | (Return _, p') =>
                (mkHttpResponse 200 true
                   "Purchase event sent to Kafka successfully", p')
            | (Throw _, p') => (failed, p')
            end
        | Throw _ => (failed, p)
        end
  | _, _, _ => (failed, p)
  end.

End Service.

End ProducerService.

(* ================================================================== *)
(** ** controllers/healthController.ts *)
(* ================================================================== *)

Module HealthController.

Import Js.

(** [determineOverallStatus], over the four [status] fields. *)
Definition determineOverallStatus (api database kafka system : string) : string :=
  let statuses := [api; database; kafka; system] in
  if existsb (String.eqb "unhealthy") statuses then "unhealthy"
  else if existsb (String.eqb "degraded") statuses then "degraded"
  else "healthy".

Section Probes.

(** What the two probes read: [databaseConnection.getConnectionStatus()]
    (with [getConnectionInfo()]) and [kafkaConsumer.getStatus().isRunning];
    either may throw. *)
Variable database : Outcome bool.
Variable kafka : Outcome bool.

Definition status_of (probe : Outcome bool) : string :=
  match probe with
  | Return true => "healthy"
  | Return false => "unhealthy"
  | Throw _ => "unhealthy"
  end.

Definition checkDatabase : string := status_of database.

Definition checkKafka : string := status_of kafka.

(** [detailedHealthCheck]: the overall status and the HTTP status code. *)
Definition detailedHealthCheck : string * Z :=
  let overallStatus :=
    determineOverallStatus "healthy" checkDatabase checkKafka "healthy" in
  (overallStatus, if (overallStatus =? "healthy")%string then 200 else 503).

(** [readinessCheck]: [ready] and the HTTP status code. *)
Definition readinessCheck : bool * Z :=
  let isReady :=
    ((checkDatabase =? "healthy")%string && (checkKafka =? "healthy")%string)%bool in
  (isReady, if isReady then 200 else 503).

End Probes.

End HealthController.

(* ================================================================== *)
(** ** controllers/eventController.ts: queries, creation, statistics *)
(* ================================================================== *)

Module EventQueries.

Import Js Mongoose Async.


(** The [filter] object handed to [Event.find]. *)
Record Filter : Type := mkFilter {
  f_type : option string;
  f_source : option string;
  f_processed : option bool;
  f_userId : option string;
  f_gte : option Z;
  f_lte : option Z
}.

(** [if (req.query.x) filter.x = req.query.x] *)
Definition given (s : option string) : option string :=
  match s with
  | Some EmptyString => None
  | other => other
  end.


Definition holds_for {A} (o : option A) (p : A -> bool) : bool :=
  match o with
  | Some a => p a
  | None => true
  end.

Definition matches (f : Filter) (e : Event.Doc) : bool :=
  (holds_for (f_type f) (fun t => (Event.type e =? t)%string)
   && holds_for (f_source f) (fun s => (Event.source e =? s)%string)
   && holds_for (f_processed f) (fun b => Bool.eqb (Event.processed e) b)
   && holds_for (f_userId f)
        (fun u => match Event.userId e with
                  | Some u' => (u' =? u)%string
                  | None => false
                  end)
   && holds_for (f_gte f) (fun t => t <=? Event.timestamp e)
   && holds_for (f_lte f) (fun t => Event.timestamp e <=? t))%bool.

(** [.sort({ timestamp: -1 })]: descending, ties in collection order. *)
Fixpoint insert_desc (e : Event.Doc) (l : list Event.Doc) : list Event.Doc :=
  match l with
  | [] => [e]
  | x :: rest =>
      if Event.timestamp x <=? Event.timestamp e then e :: l
      else x :: insert_desc e rest
  end.

Definition sort_desc (l : list Event.Doc) : list Event.Doc :=
  fold_right insert_desc [] l.

(** [parseInt(text) || fallback] *)
Definition or_default (n : option Z) (fallback : Z) : Z :=
  match n with
  | Some n => if n =? 0 then fallback else n
  | None => fallback
  end.

(** [Math.ceil(total / limit)] for a [limit] other than 0. *)
Definition ceil_div (total limit : Z) : Z := - ((- total) / limit).

Record Pagination : Type := mkPagination {
  page : Z;
  limit : Z;
  total : Z;
  totalPages : Z;
  hasNext : bool;
  hasPrev : bool
}.

Inductive ListResponse : Type :=
| Listed (events : list Event.Doc) (pagination : Pagination)
| ListFailed.

(** [Event.find(filter).sort({ timestamp: -1 }).skip(skip).limit(limit)]:
    the server refuses a negative [skip]. *)
Definition find_page (f : Filter) (skip limit : Z) (l : list Event.Doc)
  : option (list Event.Doc) :=
  if skip <? 0 then None
  else Some (Mongoose.limit limit
               (skipn (Z.to_nat skip) (sort_desc (filter (matches f) l)))).

(** [Event.countDocuments(filter)] *)
Definition countDocuments (f : Filter) (l : list Event.Doc) : Z :=
  Z.of_nat (List.length (filter (matches f) l)).

Definition list_events (f : Filter) (page limit : Z) (w : World) : ListResponse :=
  let skip := (page - 1) * limit in
  match find_page f skip limit (events w) with
  | None => ListFailed
  | Some found =>
      let total := countDocuments f (events w) in
      let totalPages := ceil_div total limit in
      Listed found
        (mkPagination page limit total totalPages (page <? totalPages) (1 <? page))
  end.


(** [getEventsByType]: [type] is the route parameter. *)
Definition getEventsByType (type : string) (q_page q_limit : option Z) (w : World)
  : ListResponse :=
  list_events (mkFilter (Some type) None None None None None)
    (or_default q_page 1) (or_default q_limit 10) w.

Fixpoint find_event (id : nat) (l : list Event.Doc) : option Event.Doc :=
  match l with
  | [] => None
  | e :: rest => if Nat.eqb (Event._id e) id then Some e else find_event id rest
  end.

Inductive ItemResponse : Type :=
| Found (event : Event.Doc)
| NotFound
| Failed.

(** [getEventById]: [id] is the route parameter; an id that is no ObjectId
    makes [findById] throw. *)
Definition getEventById (id : string) (w : World) : ItemResponse :=
  match castObjectId (Some (JStr id)) with
  | Casted oid =>
      match find_event oid (events w) with
      | Some e => Found e
      | None => NotFound
      end
  | _ => Failed
  end.

Inductive CreateResponse : Type :=
| Created (event : Event.Doc)
| ValidationFailed
| CreateFailed.

(** The body of [POST /api/events] as far as [createEvent] uses it, for a
    body that names none of [metadata], [createdAt] and [updatedAt] and
    whose [_id], if it names one, is a text: what it says for [source],
    [timestamp] and [processed] is overwritten. *)
Record EventBody : Type := mkEventBody {
  body_id : option string;
  body_type : Js.value;
  body_userId : Js.value;
  body_data : Js.value
}.

(** [createEvent]: [validated] says whether [validationResult(req)] is
    empty; [body] is [req.body]. *)
Definition createEvent (validated : bool) (body : EventBody) : M CreateResponse :=
  if negb validated then ret ValidationFailed
  else
    try_catch
      (fun w =>
         bind
           (Event_save
              (Event.mkInit (option_map JStr (body_id body)) (body_type body)
                 (body_userId body) (body_data body) (Some "api")
                 (Some (Some (now w))) (Some true) None))
           (fun event => ret (Created event)) w)
      (fun error => ret CreateFailed).

(** *** [getEventStats] *)

(** A group of the first [$group] stage. *)
Record SourceStat : Type := mkSourceStat {
  ss_type : string;
  ss_source : string;
  ss_count : nat;
  ss_processed : nat;
  ss_unprocessed : nat
}.

(** A group of the second [$group] stage. *)
Record TypeStat : Type := mkTypeStat {
  ts_type : string;
  ts_sources : list SourceStat;
  ts_totalCount : nat;
  ts_totalProcessed : nat;
  ts_totalUnprocessed : nat
}.

Definition one (b : bool) : nat := if b then 1%nat else 0%nat.

Fixpoint group_source (e : Event.Doc) (groups : list SourceStat)
  : list SourceStat :=
  match groups with
  | [] =>
      [ mkSourceStat (Event.type e) (Event.source e) 1
          (one (Event.processed e)) (one (negb (Event.processed e))) ]
  | g :: rest =>
      if ((ss_type g =? Event.type e) && (ss_source g =? Event.source e))%string
      then mkSourceStat (ss_type g) (ss_source g) (S (ss_count g))
             (ss_processed g + one (Event.processed e))
             (ss_unprocessed g + one (negb (Event.processed e))) :: rest
      else g :: group_source e rest
  end.

Definition stage_by_source (l : list Event.Doc) : list SourceStat :=
  fold_left (fun groups e => group_source e groups) l [].

Fixpoint group_type (s : SourceStat) (groups : list TypeStat) : list TypeStat :=
  match groups with
  | [] =>
      [ mkTypeStat (ss_type s) [s] (ss_count s) (ss_processed s)
          (ss_unprocessed s) ]
  | g :: rest =>
      if (ts_type g =? ss_type s)%string
      then mkTypeStat (ts_type g) (ts_sources g ++ [s])
             (ts_totalCount g + ss_count s)
             (ts_totalProcessed g + ss_processed s)
             (ts_totalUnprocessed g + ss_unprocessed s) :: rest
      else g :: group_type s rest
  end.

Definition stage_by_type (l : list SourceStat) : list TypeStat :=
  fold_left (fun groups s => group_type s groups) l [].

(** [{ $sort: { totalCount: -1 } }] *)
Fixpoint insert_stat (t : TypeStat) (l : list TypeStat) : list TypeStat :=
  match l with
  | [] => [t]
  | x :: rest =>
      if Nat.leb (ts_totalCount x) (ts_totalCount t) then t :: l
      else x :: insert_stat t rest
  end.

Definition sort_stats (l : list TypeStat) : list TypeStat :=
  fold_right insert_stat [] l.

(** The counts of the response; [processingRate], a formatted percentage, is
    not part of the model. *)
Record Stats : Type := mkStats {
  totalEvents : nat;
  processedEvents : nat;
  unprocessedEvents : nat;
  byType : list TypeStat
}.

Definition getEventStats (w : World) : Stats :=
  mkStats (List.length (events w))
    (List.length (filter Event.processed (events w)))
    (List.length (filter (fun e => negb (Event.processed e)) (events w)))
    (sort_stats (stage_by_type (stage_by_source (events w)))).

End EventQueries.

(* ================================================================== *)
(** ** Sample requests *)
(* ================================================================== *)

Module Requests.

Import Js.

(** A body of [POST /purchase]. *)
Definition purchase_request : json :=
  JObj [ ("userId", JStr "u1");
         ("username", JStr "Alice");
         ("data", JObj [ ("price", JNum 30); ("product", JStr "book") ]) ].

(** A body of [POST /produce]. *)
Definition produce_request : ProducerService.ProduceBody :=
  ProducerService.mkProduceBody (Some "user-events")
    (Some Samples.user_login_message).

(** A kafkajs client whose calls all succeed. *)
Definition obliging_client (made : list Lifecycle.ClientCall)
  (c : Lifecycle.ClientCall) : Outcome unit :=
  Return tt.

End Requests.

(* ================================================================== *)
(** ** Invariants and observations of the wider model *)
(* ================================================================== *)

Module Invariants.

Import Js Mongoose Async.

(** Identifiers of the Event collection are pairwise different and were all
    drawn from the counter. *)
Definition ids_fresh (w : World) : Prop :=
  NoDup (map Event._id (events w))
  /\ Forall (fun e => (Event._id e < nextId w)%nat) (events w).

(** What the unique index on [email] keeps. *)
Definition emails_unique (w : World) : Prop :=
  NoDup (map User.email (users w)).

(** A computation that writes nothing. *)
Definition leaves_world {A} (m : M A) : Prop :=
  forall w, snd (m w) = w.

(** A computation that keeps emails unique. *)
Definition keeps_emails_unique {A} (m : M A) : Prop :=
  forall w, emails_unique w -> emails_unique (snd (m w)).

(** A computation under which the ObjectId counter never goes back. *)
Definition counter_grows {A} (m : M A) : Prop :=
  forall w, (nextId w <= nextId (snd (m w)))%nat.

(** Everything of an Event but [processed], [metadata.retryCount] and
    [metadata.errorMessage]. *)
Definition content (e : Event.Doc)
  : nat * string * option string * json * string * Z
    * (option Z * option Z * option string) :=
  (Event._id e, Event.type e, Event.userId e, Event.data e, Event.source e,
   Event.timestamp e,
   (Event.kafkaOffset (Event.metadata e), Event.kafkaPartition (Event.metadata e),
    Event.kafkaTopic (Event.metadata e))).

(** [e'] is [e] after retries: same content, a retry count that did not go
    down, and still processed if it was. *)
Definition advanced (e e' : Event.Doc) : Prop :=
  content e' = content e
  /\ Event.retryCount (Event.metadata e) <= Event.retryCount (Event.metadata e')
  /\ (Event.processed e = true -> Event.processed e' = true).


(** An Event as the consumer stores it. *)
Definition fresh_from_broker (e : Event.Doc) : Prop :=
  Event.source e = "kafka" /\ Event.processed e = false
  /\ Event.retryCount (Event.metadata e) = 0
  /\ Event.errorMessage (Event.metadata e) = None.


(** The events of a listing response; none when the listing failed. *)
Definition listed (r : EventQueries.ListResponse) : list Event.Doc :=
  match r with
  | EventQueries.Listed events _ => events
  | EventQueries.ListFailed => []
  end.

Definition count_ge (a b : EventQueries.TypeStat) : Prop :=
  (EventQueries.ts_totalCount b <= EventQueries.ts_totalCount a)%nat.

Definition sum {A} (f : A -> nat) (l : list A) : nat :=
  fold_right (fun a n => (f a + n)%nat) 0%nat l.

(** What [UserSchema] validates on the paths the model tracks. *)
Definition user_valid (u : User.Doc) : bool :=
  (valid_email (User.email u) && valid_name (User.name u)
   && holds valid_age (User.age u))%bool.

(** What [EventSchema] validates: the two vocabularies. *)
Definition event_valid (e : Event.Doc) : bool :=
  (in_enum (Event.type e) Event.type_enum
   && in_enum (Event.source e) Event.source_enum)%bool.

Definition users_valid (w : World) : Prop :=
  Forall (fun u => user_valid u = true) (users w).

Definition events_valid (w : World) : Prop :=
  Forall (fun e => event_valid e = true) (events w).

(** A computation that leaves every stored User valid. *)
Definition keeps_users_valid {A} (m : M A) : Prop :=
  forall w, users_valid w -> users_valid (snd (m w)).

(** Whether a decoded message, if it is a [user.updated] one, carries an
    update document ([data]) whose keys are all [followed]: none of the
    update operators ([$inc], [$set], ...), no dotted path, no [_id],
    [createdAt] or [metadata].  A message of another type passes. *)
Definition plain_update (eventData : json) : bool :=
  match get (Some eventData) "type", get (Some eventData) "data" with
  | Return type, Return data =>
      (negb (KafkaConsumer.is_type type "user.updated")
       || negb (is_foreign (spread data)))%bool
  | _, _ => true
  end.

(** A batch whose [user.updated] messages all carry plain updates; a
    message without a body, or whose body does not parse, passes. *)
Definition plain_updates (parse : string -> Outcome json)
  (batch : list KafkaConsumer.EachMessagePayload) : bool :=
  forallb
    (fun p =>
       match KafkaConsumer.value (KafkaConsumer.message p) with
       | Some raw =>
           match parse raw with
           | Return eventData => plain_update eventData
           | Throw _ => true
           end
       | None => true
       end)
    batch.

(** How many elements of [l] satisfy [p]. *)
Definition number_of {A} (p : A -> bool) (l : list A) : nat :=
  List.length (filter p l).

Definition of_type (T : string) (e : Event.Doc) : bool :=
  (Event.type e =? T)%string.

(** A header of a message handed to the broker. *)
Fixpoint header (k : string) (hs : list (string * Js.value)) : Js.value :=
  match hs with
  | [] => None
  | (k', v) :: rest => if (k =? k')%string then v else header k rest
  end.

End Invariants.

(* ================================================================== *)
(** ** Properties: general facts about the model *)
(* ================================================================== *)

Module Facts.

Import Js Mongoose Async KafkaConsumer Observations.
Local Open Scope async_scope.

Lemma keeps_ret {A} (a : A) : keeps_events (ret a).
Proof. intro w; reflexivity. Qed.

Lemma keeps_throw {A} (e : Error) : keeps_events (@throw A e).
Proof. intro w; reflexivity. Qed.

Lemma keeps_eval {A} (o : Outcome A) : keeps_events (eval o).
Proof. intro w; reflexivity. Qed.

Lemma keeps_bind {A B} (m : M A) (k : A -> M B) :
  keeps_events m -> (forall a, keeps_events (k a)) -> keeps_events (bind m k).
Proof.
  intros Hm Hk w. unfold bind. specialize (Hm w).
  destruct (m w) as [[a|e] w1]; simpl in *.
  - rewrite Hk. exact Hm.
  - exact Hm.
Qed.

Lemma keeps_try_catch {A} (m : M A) (h : Error -> M A) :
  keeps_events m -> (forall e, keeps_events (h e)) -> keeps_events (try_catch m h).
Proof.
  intros Hm Hh w. unfold try_catch. specialize (Hm w).
  destruct (m w) as [[a|e] w1]; simpl in *.
  - exact Hm.
  - rewrite Hh. exact Hm.
Qed.

Lemma keeps_User_save rt fields m : keeps_events (User_save rt fields m).
Proof.
  intro w. unfold User_save.
  destruct (User_document _ _ _ _); [|reflexivity].
  match goal with |- context [if ?c then _ else _] => destruct c end;
    reflexivity.
Qed.

Lemma keeps_User_findByIdAndUpdate rt id fields :
  keeps_events (User_findByIdAndUpdate rt id fields).
Proof.
  intro w. unfold User_findByIdAndUpdate.
  destruct (castObjectId id) as [|oid|]; try reflexivity;
    match goal with
    | |- context [match ?u with Return _ => _ | Throw _ => _ end] =>
        destruct u as [[d'|]|error]
    end; try reflexivity;
    match goal with
    | |- context [match ?f with Some _ => _ | None => _ end] => destruct f
    end; try reflexivity;
    match goal with |- context [if ?c then _ else _] => destruct c end;
    reflexivity.
Qed.

Lemma keeps_User_deactivate id : keeps_events (User_deactivate id).
Proof.
  intro w. unfold User_deactivate.
  destruct (castObjectId id); try reflexivity.
  destruct (find_user _ _); reflexivity.
Qed.

Create HintDb keeps discriminated.
#[export] Hint Resolve keeps_ret keeps_throw keeps_eval keeps_User_save
  keeps_User_findByIdAndUpdate keeps_User_deactivate : keeps.

Ltac keeps :=
  repeat lazymatch goal with
    | |- keeps_events (bind _ _) => apply keeps_bind; [|intro]
    | |- keeps_events (try_catch _ _) => apply keeps_try_catch; [|intro]
    | |- keeps_events (if ?c then _ else _) => destruct c
    | |- keeps_events (match ?c with _ => _ end) => destruct c
    | |- keeps_events _ => solve [auto with keeps]
    end.

Lemma keeps_handleUserCreated rt data :
  keeps_events (handleUserCreated rt data).
Proof. unfold handleUserCreated. keeps. Qed.

Lemma keeps_handleUserUpdated rt userId data :
  keeps_events (handleUserUpdated rt userId data).
Proof. unfold handleUserUpdated. keeps. Qed.

Lemma keeps_handleUserDeleted userId : keeps_events (handleUserDeleted userId).
Proof. unfold handleUserDeleted. keeps. Qed.

Lemma keeps_handlePurchaseCreated data :
  keeps_events (handlePurchaseCreated data).
Proof. unfold handlePurchaseCreated. keeps. Qed.

#[export] Hint Resolve keeps_handleUserCreated keeps_handleUserUpdated
  keeps_handleUserDeleted keeps_handlePurchaseCreated : keeps.

(** No side-effect handler writes to the Event collection. *)
Lemma keeps_processEvent rt eventData topic :
  keeps_events (processEvent rt eventData topic).
Proof.
  unfold processEvent, handleOrderCreated, handleNotificationSent. keeps.
Qed.

(** ['system.error'] is not in the vocabulary of [EventSchema.type], so the
    document built by [storeFailedEvent] never passes validation; the
    rejection is caught inside [storeFailedEvent]. *)
Lemma storeFailedEvent_rejected payload error w :
  storeFailedEvent payload error w
  = (Return tt, with_nextId w (S (nextId w))).
Proof. reflexivity. Qed.

Lemma decoded_event_fields rt payload eventData w doc :
  decoded_event rt payload eventData w = Some doc ->
  Event._id doc = nextId w
  /\ Event.source doc = "kafka"
  /\ Event.processed doc = false
  /\ date_of rt (message payload) (now w) = Some (Event.timestamp doc)
  /\ exists n,
       parseInt (offset (message payload)) = Int n
       /\ Event.metadata doc
          = Event.mkMetadata (Some n) (Some (partition payload))
              (Some (topic payload)) 0 None.
Proof.
  unfold decoded_event.
  destruct (get (Some eventData) "type") as [type|]; [|discriminate].
  destruct (get (Some eventData) "userId") as [userId|]; [|discriminate].
  destruct (get (Some eventData) "data") as [data|]; [|discriminate].
  unfold Event_document, eventOf; cbn [Event.init_id Event.init_type
    Event.init_userId Event.init_data Event.init_source Event.init_timestamp
    Event.init_processed Event.init_metadata Event.init_kafkaOffset
    Event.init_kafkaPartition Event.init_kafkaTopic Event.init_retryCount
    Event.init_errorMessage castObjectId].
  destruct (castString (or_else type (Some (JStr "custom")))) as [|ty|];
    try discriminate;
    destruct (castString userId); try discriminate;
    destruct (negb (in_enum (trim ty) Event.type_enum)); try discriminate;
    cbn [negb in_enum existsb Event.source_enum String.eqb Ascii.eqb
         Bool.eqb orb];
    destruct (or_else data (Some eventData)) as [[]|]; try discriminate;
    destruct (date_of rt (message payload) (now w)) as [t|];
    try discriminate;
    destruct (parseInt (offset (message payload))) as [k|];
    try discriminate;
    intro H; injection H as <-; cbn; repeat split; eauto.
Qed.

(** A decoded message whose document passes validation: the handler is
    dispatched in the world where the document is already stored. *)
Lemma handleMessage_decoded rt parse payload raw eventData doc w :
  value (message payload) = Some raw ->
  (raw =? "")%string = false ->
  parse raw = Return eventData ->
  decoded_event rt payload eventData w = Some doc ->
  handleMessage rt parse payload w
  = try_catch (processEvent rt eventData (topic payload))
      (fun error => storeFailedEvent payload error) (stored w doc).
Proof.
  intros Hv Hne Hp Hd. unfold handleMessage, decoded_event in *.
  unfold try_catch at 1. rewrite Hv.
  destruct raw as [|c raw]; [discriminate|].
  unfold bind at 1, eval at 1. rewrite Hp.
  destruct (get (Some eventData) "type") as [type|]; [|discriminate].
  destruct (get (Some eventData) "userId") as [userId|]; [|discriminate].
  destruct (get (Some eventData) "data") as [data|]; [|discriminate].
  cbv beta iota delta [bind eval getWorld storeEvent try_catch Event_save ret].
  cbn [now with_nextId nextId]. rewrite Hd.
  cbn [eventOf Event.init_id names_id castObjectId andb]. reflexivity.
Qed.

(** A decoded message whose document is refused: nothing is stored and no
    handler is dispatched. *)
Lemma handleMessage_refused rt parse payload raw eventData w :
  value (message payload) = Some raw ->
  (raw =? "")%string = false ->
  parse raw = Return eventData ->
  decoded_event rt payload eventData w = None ->
  fst (handleMessage rt parse payload w) = Return tt
  /\ events (snd (handleMessage rt parse payload w)) = events w
  /\ users (snd (handleMessage rt parse payload w)) = users w
  /\ (nextId w <= nextId (snd (handleMessage rt parse payload w)))%nat.
Proof.
  intros Hv Hne Hp Hd. unfold handleMessage, try_catch. rewrite Hv.
  destruct raw as [|c raw]; [discriminate|].
  unfold bind at 1, eval at 1. rewrite Hp. unfold decoded_event in Hd.
  destruct eventData; cbn [get] in Hd |- *;
    cbv beta iota delta [bind eval getWorld storeEvent try_catch Event_save
                         ret throw];
    cbn [now with_nextId nextId]; try rewrite Hd; simpl;
    repeat split; auto.
Qed.

End Facts.

(* ================================================================== *)
(** ** Properties of the ingestion pipeline ([handleMessage]) *)
(* ================================================================== *)

Module Ingestion.

Import Js Mongoose Async KafkaConsumer Observations Facts.

Section Pipeline.

Variable rt : Platform.
Variable JSON_parse : string -> Outcome json.
Variable payload : EachMessagePayload.
Variable w : World.

(** C10.  A message whose body is absent ([null]) or empty makes
    [handleMessage] return normally without writing anything: no Event is
    persisted, no quarantine record either, and both collections are as they
    were. *)
Theorem C10_empty_body_leaves_no_trace :
  value (message payload) = None \/ value (message payload) = Some "" ->
  handleMessage rt JSON_parse payload w = (Return tt, w).
Proof.
  intros [H|H]; unfold handleMessage, try_catch; rewrite H; reflexivity.
Qed.

(** A timestamp text that is no date makes [new Date] an Invalid Date, which
    [EventSchema.timestamp] refuses: whatever the message says, its Event
    does not pass validation. *)
Lemma invalid_date_refused eventData :
  date_of rt (message payload) (now w) = None ->
  decoded_event rt payload eventData w = None.
Proof.
  intro H. unfold decoded_event.
  destruct (get (Some eventData) "type") as [type|]; [|reflexivity].
  destruct (get (Some eventData) "userId") as [userId|]; [|reflexivity].
  destruct (get (Some eventData) "data") as [data|]; [|reflexivity].
  unfold Event_document, eventOf; cbn [Event.init_id Event.init_type
    Event.init_userId Event.init_data Event.init_source Event.init_timestamp
    Event.init_processed Event.init_metadata Event.init_kafkaOffset
    castObjectId].
  rewrite H.
  destruct (castString (or_else type (Some (JStr "custom")))) as [|ty|];
    try reflexivity;
    destruct (castString userId); try reflexivity;
    destruct (negb (in_enum (trim ty) Event.type_enum)); try reflexivity;
    cbn [negb in_enum existsb Event.source_enum String.eqb Ascii.eqb
         Bool.eqb orb];
    destruct (or_else data (Some eventData)) as [[]|]; reflexivity.
Qed.

Section Decoded.

Variables (raw : string) (eventData : json).
Hypothesis body : value (message payload) = Some raw.
Hypothesis nonempty : (raw =? "")%string = false.
Hypothesis decodes : JSON_parse raw = Return eventData.

(** A message that decodes and carries a timestamp text that is no date:
    [handleMessage] returns normally, no Event is stored for the message
    and its handler is not dispatched. *)
Lemma invalid_date_leaves_no_event :
  date_of rt (message payload) (now w) = None ->
  fst (handleMessage rt JSON_parse payload w) = Return tt
  /\ events (snd (handleMessage rt JSON_parse payload w)) = events w
  /\ users (snd (handleMessage rt JSON_parse payload w)) = users w.
Proof.
  intro H.
  destruct (handleMessage_refused rt JSON_parse payload raw eventData w
              body nonempty decodes (invalid_date_refused eventData H))
    as (H1 & H2 & H3 & _).
  auto.
Qed.

Variable doc : Event.Doc.
Hypothesis valid : decoded_event rt payload eventData w = Some doc.

(** For a message that decodes and whose Event passes the validation of
    [EventSchema], the Event (source kafka, processed false, retryCount 0)
    is stored before the handler is dispatched: the handler runs in the
    world that already holds the document, [handleMessage] returns normally
    whether the handler completes or throws, and the document is still
    there, as stored, when it returns. *)
Lemma stored_before_dispatch :
  Event.source doc = "kafka"
  /\ Event.processed doc = false
  /\ Event.retryCount (Event.metadata doc) = 0
  /\ users (stored w doc) = users w
  /\ events (stored w doc) = (events w ++ [doc])%list
  /\ handleMessage rt JSON_parse payload w
     = try_catch (processEvent rt eventData (topic payload))
         (fun error => storeFailedEvent payload error) (stored w doc)
  /\ fst (handleMessage rt JSON_parse payload w) = Return tt
  /\ exists later,
       events (snd (handleMessage rt JSON_parse payload w))
       = (events w ++ doc :: later)%list.
Proof.
  destruct (decoded_event_fields _ _ _ _ _ valid)
    as (_ & Hs & Hp & _ & n & _ & Hm).
  pose proof (handleMessage_decoded _ _ _ _ _ _ _ body nonempty decodes valid)
    as E.
  repeat split; auto.
  - rewrite Hm. reflexivity.
  - rewrite E. unfold try_catch.
    destruct (processEvent rt eventData (topic payload) (stored w doc))
      as [[[]|e] w1]; reflexivity.
  - exists []. rewrite E. unfold try_catch.
    pose proof (keeps_processEvent rt eventData (topic payload) (stored w doc))
      as K.
    destruct (processEvent rt eventData (topic payload) (stored w doc))
      as [[[]|e] w1]; simpl in *; auto.
Qed.

(** When moreover the side-effect handler completes without throwing,
    [handleMessage] returns normally and the Event it stored is the last
    document of the collection, exactly as stored: source kafka, retryCount 0
    and processed still false.  Nothing in the consumer writes
    [processed = true]. *)
Lemma handled_event_stays_unprocessed :
  fst (processEvent rt eventData (topic payload) (stored w doc)) = Return tt ->
  exists w',
    handleMessage rt JSON_parse payload w = (Return tt, w')
    /\ events w' = (events w ++ [doc])%list
    /\ Event.source doc = "kafka"
    /\ Event.processed doc = false
    /\ Event.retryCount (Event.metadata doc) = 0.
Proof.
  intro Hok.
  destruct (decoded_event_fields _ _ _ _ _ valid)
    as (_ & Hs & Hp & _ & n & _ & Hm).
  rewrite (handleMessage_decoded _ _ _ _ _ _ _ body nonempty decodes valid).
  unfold try_catch.
  pose proof (keeps_processEvent rt eventData (topic payload) (stored w doc))
    as K.
  destruct (processEvent rt eventData (topic payload) (stored w doc))
    as [[[]|e] w1]; simpl in *; [|discriminate].
  exists w1. rewrite Hm. auto.
Qed.

(** When the side-effect handler throws, [handleMessage] still returns
    normally; the failure is handed to [storeFailedEvent], whose record is
    refused, so that it is written nowhere: the Event stored for the message
    is the last document of the collection, exactly as stored, with
    processed false, retryCount 0 and no errorMessage. *)
Lemma failed_handler_leaves_no_record (error : Error) :
  fst (processEvent rt eventData (topic payload) (stored w doc)) = Throw error ->
  exists w',
    handleMessage rt JSON_parse payload w = (Return tt, w')
    /\ events w' = (events w ++ [doc])%list
    /\ Event.processed doc = false
    /\ Event.retryCount (Event.metadata doc) = 0
    /\ Event.errorMessage (Event.metadata doc) = None.
Proof.
  intro Hko.
  destruct (decoded_event_fields _ _ _ _ _ valid)
    as (_ & Hs & Hp & _ & n & _ & Hm).
  rewrite (handleMessage_decoded _ _ _ _ _ _ _ body nonempty decodes valid).
  unfold try_catch.
  pose proof (keeps_processEvent rt eventData (topic payload) (stored w doc))
    as K.
  destruct (processEvent rt eventData (topic payload) (stored w doc))
    as [[[]|e] w1]; simpl in *; [discriminate|].
  rewrite storeFailedEvent_rejected.
  eexists; split; [reflexivity|]. rewrite Hm.
  repeat split; auto.
Qed.

End Decoded.

End Pipeline.

Import Samples.

(** No exception escapes [handleMessage]: whatever the message, the parser
    and the store, it returns normally to the broker client. *)
Lemma handleMessage_never_throws rt parse payload w :
  fst (handleMessage rt parse payload w) = Return tt.
Proof.
  unfold handleMessage, try_catch.
  match goal with
  | |- fst (let (o, w') := ?m in _) = _ => destruct m as [[[]|e] w1]
  end; [reflexivity|].
  rewrite storeFailedEvent_rejected. reflexivity.
Qed.

(** A body that fails to decode, whatever the parser: the error reaches
    [storeFailedEvent], whose document is refused, and [handleMessage]
    returns normally with the Event collection unchanged. *)
Lemma poison_message_outcome rt parse payload raw error w :
  value (message payload) = Some raw ->
  (raw =? "")%string = false ->
  parse raw = Throw error ->
  handleMessage rt parse payload w = (Return tt, with_nextId w (S (nextId w))).
Proof.
  intros Hv Hne Hp. unfold handleMessage, try_catch. rewrite Hv.
  destruct raw as [|c raw]; [discriminate|].
  unfold bind at 1, eval at 1. rewrite Hp. reflexivity.
Qed.

(** C3 (the code at a poison message).  The body [not json] does not decode.
    [handleMessage] returns normally and the next message of the partition is
    processed, but no [system.error] Event is persisted: the Event collection
    is still empty afterwards, because ['system.error'] is not a member of
    the [type] vocabulary of [EventSchema] and the rejected save is caught
    inside [storeFailedEvent].  (The next message is one without a
    timestamp, for which the code takes [Date.now()].) *)
Theorem C3_poison_message_is_not_persisted :
  Samples.JSON_parse body_poison
    = Throw (SyntaxError "Unexpected token o in JSON at position 1")
  /\ in_enum "system.error" Event.type_enum = false
  /\ handleMessage platform Samples.JSON_parse
       (deliver "user-events" 5 (Some body_poison)) empty_world
     = (Return tt, with_nextId empty_world 1)
  /\ events (snd (handleMessage platform Samples.JSON_parse
                    (deliver "user-events" 5 (Some body_poison)) empty_world))
     = []
  /\ events (snd (consume platform Samples.JSON_parse
                    [ deliver "user-events" 5 (Some body_poison);
                      deliver_untimed "user-events" 6 (Some body_user_created) ]
                    empty_world))
     = [ Event.mkDoc 1 "user.created" None
           (JObj [ ("email", JStr "a@x.com"); ("name", JStr "Alice") ])
           "kafka" 1700000000500 false
           (Event.mkMetadata (Some 6) (Some 0) (Some "user-events") 0 None) ].
Proof. repeat split; vm_compute; reflexivity. Qed.

(** C1 (the code at a handled message).  As the broker client delivers it,
    with its timestamp as decimal text, the [user.created] message decodes
    but [new Date] of that text is an Invalid Date: the Event is refused,
    the handler is not dispatched, and neither an Event nor a User exists
    afterwards.  Delivered without a timestamp, the message decodes, its
    Event is stored and its handler completes: the user is created;
    [handleMessage] returns and the Event of the message is in the store
    with source kafka and retryCount 0, but with [processed = false]: the
    consumer never writes [processed = true]. *)
Theorem C1_handled_event_left_unprocessed :
  Samples.JSON_parse body_user_created = Return doc_user_created
  /\ timestamp (message (deliver "user-events" 5 (Some body_user_created)))
     = Some "1700000000000"
  /\ Samples.Date_parse "1700000000000" = None
  /\ events (snd (handleMessage platform Samples.JSON_parse
                    (deliver "user-events" 5 (Some body_user_created))
                    empty_world)) = []
  /\ users (snd (handleMessage platform Samples.JSON_parse
                   (deliver "user-events" 5 (Some body_user_created))
                   empty_world)) = []
  /\ fst (processEvent platform doc_user_created "user-events"
            (stored empty_world event_user_created)) = Return tt
  /\ exists w',
       handleMessage platform Samples.JSON_parse
         (deliver_untimed "user-events" 5 (Some body_user_created)) empty_world
       = (Return tt, w')
       /\ events w' = [event_user_created]
       /\ map User.email (users w') = ["a@x.com"]
       /\ Event.source event_user_created = "kafka"
       /\ Event.retryCount (Event.metadata event_user_created) = 0
       /\ Event.processed event_user_created = false.
Proof.
  do 6 (split; [vm_compute; reflexivity|]).
  eexists. split; [vm_compute; reflexivity|].
  repeat split.
Qed.

(** C2 (the code at a failing handler).  The message published by
    [sendPurchaseEvent], delivered without a timestamp, decodes and its
    Event is stored; its handler throws (it reads [data.data.price] where
    [data] has no [data]).  The catch block hands the error to
    [storeFailedEvent], which builds a [system.error] document with
    [retryCount: 1] and the error message; that document is refused,
    ['system.error'] not being in the vocabulary of [EventSchema.type].
    Afterwards the collection holds the Event of the message alone, with
    [retryCount = 0] and no [errorMessage]: the failure is recorded
    nowhere.  As the broker client delivers it, with its timestamp as
    decimal text, not even that Event is stored. *)
Theorem C2_handler_failure_is_not_recorded :
  Samples.JSON_parse body_purchase = Return doc_purchase
  /\ fst (processEvent platform doc_purchase "purchase-events"
            (stored empty_world event_purchase))
     = Throw (TypeError "Cannot read properties of undefined")
  /\ in_enum "system.error" Event.type_enum = false
  /\ fst (handleMessage platform Samples.JSON_parse
            (deliver_untimed "purchase-events" 5 (Some body_purchase))
            empty_world) = Return tt
  /\ events (snd (handleMessage platform Samples.JSON_parse
                    (deliver_untimed "purchase-events" 5 (Some body_purchase))
                    empty_world)) = [event_purchase]
  /\ Event.processed event_purchase = false
  /\ Event.retryCount (Event.metadata event_purchase) = 0
  /\ Event.errorMessage (Event.metadata event_purchase) = None
  /\ events (snd (handleMessage platform Samples.JSON_parse
                    (deliver "purchase-events" 5 (Some body_purchase))
                    empty_world)) = [].
Proof. repeat split; vm_compute; reflexivity. Qed.

(** C6 (the code at a message of the broker).  The [user.created] message
    decodes.  Its timestamp is what the broker client hands over, the
    decimal text of an instant, of which [new Date] makes an Invalid Date;
    [EventSchema.timestamp] refuses it, so [storeEvent] throws: no Event is
    persisted for the message, its handler is not dispatched (no User is
    created), and [handleMessage] returns normally. *)
Theorem C6_broker_message_is_not_persisted :
  Samples.JSON_parse body_user_created = Return doc_user_created
  /\ timestamp (message (deliver "user-events" 5 (Some body_user_created)))
     = Some "1700000000000"
  /\ Samples.Date_parse "1700000000000" = None
  /\ decoded_event platform (deliver "user-events" 5 (Some body_user_created))
       doc_user_created empty_world = None
  /\ handleMessage platform Samples.JSON_parse
       (deliver "user-events" 5 (Some body_user_created)) empty_world
     = (Return tt, with_nextId empty_world 2)
  /\ events (with_nextId empty_world 2) = []
  /\ users (with_nextId empty_world 2) = [].
Proof. repeat split; vm_compute; reflexivity. Qed.

(** A message whose type, [order.shipped], is outside the vocabulary of
    [EventSchema] is not persisted either, whatever its timestamp. *)
Example unknown_type_is_not_persisted :
  Samples.JSON_parse body_order_shipped = Return doc_order_shipped
  /\ decoded_event platform
       (deliver_untimed "user-events" 5 (Some body_order_shipped))
       doc_order_shipped empty_world = None
  /\ in_enum "order.shipped" Event.type_enum = false
  /\ handleMessage platform Samples.JSON_parse
       (deliver_untimed "user-events" 5 (Some body_order_shipped)) empty_world
     = (Return tt, with_nextId empty_world 2)
  /\ events (with_nextId empty_world 2) = [].
Proof. repeat split; vm_compute; reflexivity. Qed.

Lemma C10_empty_body_witness :
  (value (message (deliver "user-events" 5 (Some ""))) = None
   \/ value (message (deliver "user-events" 5 (Some ""))) = Some "")
  /\ handleMessage platform Samples.JSON_parse
       (deliver "user-events" 5 (Some "")) empty_world
     = (Return tt, empty_world).
Proof.
  split; [right; reflexivity|].
  apply (C10_empty_body_leaves_no_trace platform Samples.JSON_parse
           (deliver "user-events" 5 (Some "")) empty_world).
  right; reflexivity.
Defined.

End Ingestion.

(* ================================================================== *)
(** ** Properties of the [user.created] handler *)
(* ================================================================== *)

Module UserCreated.

Import Js Mongoose Async KafkaConsumer Observations Facts.







Import Samples.



(** Two deliveries of the same [user.created] message through the whole
    pipeline, without a timestamp: two Events, one User. *)
Example two_deliveries_one_user :
  let w' := snd (consume platform Samples.JSON_parse
                   [ deliver_untimed "user-events" 5 (Some body_user_created);
                     deliver_untimed "user-events" 6 (Some body_user_created) ]
                   empty_world) in
  List.length (events w') = 2%nat
  /\ map User.email (users w') = ["a@x.com"].
Proof. vm_compute. split; reflexivity. Qed.

End UserCreated.

(* ================================================================== *)
(** ** Properties of the retry endpoint ([retryFailedEvents]) *)
(* ================================================================== *)

Module Retry.

Import Js Mongoose Async EventController Observations.
Local Open Scope list_scope.

(** *** The query *)

Lemma insert_by_timestamp_perm e l :
  Permutation (insert_by_timestamp e l) (e :: l).
Proof.
  induction l as [|x l IH]; simpl; [apply Permutation_refl|].
  destruct (Event.timestamp e <=? Event.timestamp x).
  - apply Permutation_refl.
  - eapply perm_trans; [apply perm_skip, IH|apply perm_swap].
Qed.

Lemma sort_by_timestamp_perm l : Permutation (sort_by_timestamp l) l.
Proof.
  induction l as [|x l IH]; simpl; [constructor|].
  eapply perm_trans; [apply insert_by_timestamp_perm|].
  apply perm_skip, IH.
Qed.






Lemma limit_In {A} n (l : list A) x : In x (limit n l) -> In x l.
Proof.
  unfold limit. destruct (n =? 0); [auto|].
  intro H. rewrite <- (firstn_skipn (Z.to_nat (Z.abs n)) l).
  apply in_or_app. left. exact H.
Qed.


Lemma find_failed_In n l e :
  In e (find_failed n l) -> In e l /\ failed_filter e = true.
Proof.
  unfold find_failed. intro H. apply limit_In in H.
  apply (Permutation_in _ (sort_by_timestamp_perm _)) in H.
  apply filter_In in H. exact H.
Qed.

(** *** Identifiers *)

Lemma NoDup_map_filter {A B} (f : A -> B) (p : A -> bool) l :
  NoDup (map f l) -> NoDup (map f (filter p l)).
Proof.
  induction l as [|x l IH]; simpl; intro H; [constructor|].
  inversion H as [|? ? Hx Hl]; subst.
  destruct (p x); simpl; [|auto].
  constructor; [|auto].
  intro Hin. apply Hx. apply in_map_iff in Hin as (y & Hy & Hin).
  apply filter_In in Hin as [Hin _]. apply in_map_iff. eauto.
Qed.

Lemma NoDup_map_limit {A B} (f : A -> B) n l :
  NoDup (map f l) -> NoDup (map f (limit n l)).
Proof.
  unfold limit. destruct (n =? 0); [auto|]. intro H.
  rewrite <- (firstn_skipn (Z.to_nat (Z.abs n)) l), map_app in H.
  eapply NoDup_app_remove_r, H.
Qed.

Lemma find_failed_NoDup n l :
  NoDup (map Event._id l) -> NoDup (map Event._id (find_failed n l)).
Proof.
  intro H. unfold find_failed. apply NoDup_map_limit.
  eapply Permutation_NoDup.
  - apply Permutation_map, Permutation_sym, sort_by_timestamp_perm.
  - apply NoDup_map_filter, H.
Qed.

Lemma selected_false sel e :
  ~ In (Event._id e) (map Event._id sel) -> selected sel e = false.
Proof.
  unfold selected. induction sel as [|s sel IH]; simpl; [reflexivity|].
  intro H. destruct (Nat.eqb (Event._id s) (Event._id e)) eqn:E; simpl.
  - apply Nat.eqb_eq in E. tauto.
  - apply IH. tauto.
Qed.

Lemma selected_In sel e : In e sel -> selected sel e = true.
Proof.
  intro H. unfold selected. apply existsb_exists. exists e.
  split; [exact H|apply Nat.eqb_refl].
Qed.

(** *** The updates *)

Lemma update_by_id_map id f l :
  NoDup (map Event._id l) -> update_by_id id f l = map (touch id f) l.
Proof.
  induction l as [|e l IH]; simpl; intro H; [reflexivity|].
  inversion H as [|? ? He Hl]; subst. unfold touch at 1.
  destruct (Nat.eqb (Event._id e) id) eqn:E.
  - f_equal. apply Nat.eqb_eq in E. subst id.
    rewrite <- (map_id l) at 1. apply map_ext_in.
    intros x Hx. unfold touch.
    destruct (Nat.eqb (Event._id x) (Event._id e)) eqn:E'; [|reflexivity].
    apply Nat.eqb_eq in E'. exfalso. apply He. rewrite <- E'.
    apply in_map, Hx.
  - f_equal. apply IH, Hl.
Qed.

Lemma map_touch_ids id f l :
  (forall e, Event._id (f e) = Event._id e) ->
  map Event._id (map (touch id f) l) = map Event._id l.
Proof.
  intro Hf. rewrite map_map. apply map_ext. intro e. unfold touch.
  destruct (Nat.eqb (Event._id e) id); auto.
Qed.

Lemma retryOne_spec event w :
  NoDup (map Event._id (events w)) ->
  retryOne event w
  = (Return true,
     with_events w (map (touch (Event._id event) retry_update) (events w))).
Proof.
  intro H. unfold retryOne, try_catch, bind, Event_findByIdAndUpdate, ret.
  cbn [events with_events]. unfold with_events at 1 2; cbn [users nextId now].
  rewrite (update_by_id_map _ _ _ H).
  rewrite update_by_id_map
    by (rewrite map_touch_ids; [exact H|reflexivity]).
  rewrite map_map. unfold with_events. f_equal. f_equal.
  apply map_ext. intro e. unfold touch, retry_update.
  destruct (Nat.eqb (Event._id e) (Event._id event)) eqn:E.
  - cbn [inc_retry Event._id]. rewrite E. reflexivity.
  - rewrite E. reflexivity.
Qed.

Lemma retryEach_spec sel : forall retried_so_far w,
  NoDup (map Event._id (events w)) ->
  NoDup (map Event._id sel) ->
  retryEach sel retried_so_far w
  = (Return (retried_so_far + length sel)%nat,
     with_events w (retried sel (events w))).
Proof.
  induction sel as [|s sel IH]; intros k w Hw Hsel.
  - simpl. unfold ret, retried, with_events. rewrite Nat.add_0_r.
    rewrite (map_ext _ (fun e => e)) by reflexivity. rewrite map_id.
    destruct w; reflexivity.
  - inversion Hsel as [|? ? Hs Hsel']; subst.
    cbn [retryEach]. unfold bind. rewrite (retryOne_spec _ _ Hw).
    rewrite IH; cbn [events with_events]; auto.
    2:{ rewrite map_touch_ids; [exact Hw|reflexivity]. }
    f_equal; [f_equal; simpl; lia|].
    unfold with_events; cbn [users nextId now]. f_equal.
    unfold retried. rewrite map_map. apply map_ext. intro e.
    unfold touch, selected. cbn [existsb].
    rewrite (Nat.eqb_sym (Event._id s) (Event._id e)).
    destruct (Nat.eqb (Event._id e) (Event._id s)) eqn:E; cbn [orb].
    + apply Nat.eqb_eq in E.
      fold (selected sel (retry_update e)).
      rewrite selected_false; [reflexivity|].
      cbn [retry_update mark_processed inc_retry Event._id]. rewrite E. exact Hs.
    + reflexivity.
Qed.



(** In a store where identifiers are unique, a retry request answers 200
    with the number of selected Events as its count, and every selected
    Event, and no other, has its retryCount incremented, its errorMessage
    cleared and processed set to true.  The User store is not touched. *)
Lemma retry_marks_selection_processed (req : Request) (w : World) :
  NoDup (map Event._id (events w)) ->
  exists response w',
    retryFailedEvents req w = (Return response, w')
    /\ status response = 200
    /\ retriedCount response
       = Some (length (find_failed (limit_of req) (events w)))
    /\ events w'
       = retried (find_failed (limit_of req) (events w)) (events w)
    /\ users w' = users w
    /\ (forall e, In e (find_failed (limit_of req) (events w)) ->
          In (retry_update e) (events w')
          /\ Event._id (retry_update e) = Event._id e
          /\ Event.retryCount (Event.metadata (retry_update e))
             = Event.retryCount (Event.metadata e) + 1
          /\ Event.errorMessage (Event.metadata (retry_update e)) = None
          /\ Event.processed (retry_update e) = true).
Proof.
  intro Hw. unfold retryFailedEvents, try_catch, bind, getWorld.
  fold (limit_of req). set (sel := find_failed (limit_of req) (events w)).
  assert (Hsel : NoDup (map Event._id sel)) by apply find_failed_NoDup, Hw.
  assert (In_upd : forall e, In e sel ->
            In (retry_update e) (retried sel (events w))).
  { intros e He. unfold retried. apply in_map_iff. exists e.
    rewrite (selected_In _ _ He). split; [reflexivity|].
    apply find_failed_In in He. tauto. }
  clearbody sel.
  destruct (Nat.eqb (length sel) 0) eqn:E.
  - apply Nat.eqb_eq in E. destruct sel as [|? ?]; [|discriminate].
    eexists _, _. split; [reflexivity|]. cbn [status retriedCount length].
    split; [reflexivity|]. split; [reflexivity|]. split; [|split].
    + unfold retried. rewrite (map_ext _ (fun e => e)) by reflexivity.
      symmetry. apply map_id.
    + reflexivity.
    + intros e [].
  - rewrite (retryEach_spec sel 0 w Hw Hsel). cbn [ret].
    eexists _, _. split; [reflexivity|]. cbn [status retriedCount].
    repeat split; auto.
Qed.

Import Samples.



(** C5 (the code at two pending Events).  Both Events are selected, their
    retryCount is incremented and their errorMessage cleared, and both come
    out with [processed = true] and are counted; but no handler was run: the
    handler of the purchase throws on its data, and the handler of the user
    creation would have created a user, while the User store is still
    empty. *)
Theorem C5_retry_runs_no_handler :
  fst (KafkaConsumer.processEvent platform (eventData_of pending_purchase)
         "purchase-events" pending_world)
    = Throw (TypeError "Cannot read properties of undefined")
  /\ map User.email
       (users (snd (KafkaConsumer.processEvent platform
                      (eventData_of pending_user) "user-events"
                      pending_world))) = ["b@x.com"]
  /\ exists response w',
       retryFailedEvents (mkRequest None) pending_world = (Return response, w')
       /\ retriedCount response = Some 2%nat
       /\ events w' = [retry_update pending_user; retry_update pending_purchase]
       /\ map Event.processed (events w') = [true; true]
       /\ map (fun e => Event.retryCount (Event.metadata e)) (events w') = [1; 2]
       /\ map (fun e => Event.errorMessage (Event.metadata e)) (events w')
          = [None; None]
       /\ users w' = [].
Proof.
  split; [reflexivity|]. split; [reflexivity|].
  eexists _, _. split; [vm_compute; reflexivity|].
  repeat split.
Qed.

(** C9 (the code at a bound above the cap).  With 60 Events waiting, the
    request [limit=60] is one [validateRetryParams] refuses, yet the route
    runs it and 60 Events are retried; the route mounts no validation.  With
    [limit] omitted, 10 are retried. *)
Theorem C9_retry_bound_is_not_capped :
  validateRetryParams (mkRequest (Some 60)) = false
  /\ (exists w',
        post_retry (mkRequest (Some 60)) (backlog 60)
        = (Return (mkResponse 200 true "60 events retried successfully"
                     (Some 60%nat)), w')
        /\ forallb Event.processed (events w') = true)
  /\ (exists w',
        post_retry (mkRequest None) (backlog 60)
        = (Return (mkResponse 200 true "10 events retried successfully"
                     (Some 10%nat)), w')).
Proof.
  split; [reflexivity|].
  split; eexists; [split|]; vm_compute; reflexivity.
Qed.

End Retry.

(* ================================================================== *)
(** ** Properties of the producer ([sendMessage]) *)
(* ================================================================== *)

Module Producer.

Import Js KafkaProducer.
Local Open Scope list_scope.

Section Send.

Variable JSON_stringify : json -> string.
Variables now_text now_iso : string.

(** C8 (as amended).  On a connected producer, a message sent without an
    explicit key is handed to the broker with the message's [userId] as its
    key when that [userId] is truthy (present and not empty), and with the
    literal ['default'] otherwise. *)
Theorem C8_default_routing_key (topic : string) (message : json)
  (userId : Js.value) (p : Producer) :
  isConnected p = true ->
  get (Some message) "userId" = Return userId ->
  exists m,
    sendMessage JSON_stringify now_text topic message None p
    = (Return tt, mkProducer true (sent p ++ [mkRecord topic [m]]))
    /\ key m = (if truthy userId then userId else Some (JStr "default")).
Proof.
  intros Hc Hu.
  assert (Ht : exists type, get (Some message) "type" = Return type).
  { destruct message; try discriminate; cbn [get]; eauto. }
  destruct Ht as [type Ht].
  unfold sendMessage. rewrite Hc, Ht, Hu. cbn [negb].
  eexists. split; [reflexivity|]. reflexivity.
Qed.

End Send.

Import Samples.

(** The sample bodies are what [JSON.stringify] prints for the sample
    documents. *)
Example sample_bodies_are_json :
  Samples.JSON_stringify doc_user_created = body_user_created
  /\ Samples.JSON_stringify doc_purchase = body_purchase
  /\ Samples.JSON_stringify doc_order_shipped = body_order_shipped.
Proof. repeat split. Qed.

(** C8, refuted as stated: [sendSystemEvent] publishes without a key a
    message that has no [userId]; the key handed to the broker is
    ['default']. *)
Lemma C8_counterexample :
  get (Some system_health_message) "userId" = Return None
  /\ sendSystemEvent Samples.JSON_stringify "1700000000500"
       "2023-11-14T22:13:20.500Z" "system.health" (Some (JObj [])) connected
     = sendMessage Samples.JSON_stringify "1700000000500" "system-events"
         system_health_message None connected
  /\ map (fun r => map key (messages r))
       (sent (snd (sendMessage Samples.JSON_stringify "1700000000500"
                     "system-events" system_health_message None connected)))
     = [[Some (JStr "default")]]
  /\ Some (JStr "default") <> (None : Js.value).
Proof. repeat split. discriminate. Qed.

Lemma C8_default_routing_key_witness :
  exists m,
    sendMessage Samples.JSON_stringify "1700000000500" "user-events"
      user_login_message None connected
    = (Return tt,
       mkProducer true (sent connected ++ [mkRecord "user-events" [m]]))
    /\ key m = (if truthy (Some (JStr "u1")) then Some (JStr "u1")
                else Some (JStr "default")).
Proof.
  apply (C8_default_routing_key Samples.JSON_stringify "1700000000500"
           "user-events" user_login_message (Some (JStr "u1")) connected);
    reflexivity.
Defined.

End Producer.

(* ================================================================== *)
(** ** Further properties of the consumer *)
(* ================================================================== *)

Module Consumption.

Import Js Mongoose Async KafkaConsumer Observations Invariants Facts.
Local Open Scope list_scope.

Lemma grows_ret {A} (a : A) : counter_grows (ret a).
Proof. intro w; simpl; lia. Qed.

Lemma grows_throw {A} (e : Error) : counter_grows (@throw A e).
Proof. intro w; simpl; lia. Qed.

Lemma grows_eval {A} (o : Outcome A) : counter_grows (eval o).
Proof. intro w; simpl; lia. Qed.

Lemma grows_bind {A B} (m : M A) (k : A -> M B) :
  counter_grows m -> (forall a, counter_grows (k a)) -> counter_grows (bind m k).
Proof.
  intros Hm Hk w. unfold bind. specialize (Hm w).
  destruct (m w) as [[a|e] w1]; simpl in *; [|exact Hm].
  specialize (Hk a w1). lia.
Qed.

Lemma grows_try_catch {A} (m : M A) (h : Error -> M A) :
  counter_grows m -> (forall e, counter_grows (h e)) ->
  counter_grows (try_catch m h).
Proof.
  intros Hm Hh w. unfold try_catch. specialize (Hm w).
  destruct (m w) as [[a|e] w1]; simpl in *; [exact Hm|].
  specialize (Hh e w1). lia.
Qed.

Lemma grows_User_save rt fields m : counter_grows (User_save rt fields m).
Proof.
  intro w. unfold User_save.
  destruct (User_document _ _ _ _); [|simpl; lia].
  match goal with |- context [if ?c then _ else _] => destruct c end;
    simpl; lia.
Qed.

Lemma grows_User_findByIdAndUpdate rt id fields :
  counter_grows (User_findByIdAndUpdate rt id fields).
Proof.
  intro w. unfold User_findByIdAndUpdate.
  destruct (castObjectId id) as [|oid|]; try (simpl; lia);
    match goal with
    | |- context [match ?u with Return _ => _ | Throw _ => _ end] =>
        destruct u as [[d'|]|error]
    end; try (simpl; lia);
    match goal with
    | |- context [match ?f with Some _ => _ | None => _ end] => destruct f
    end; try (simpl; lia);
    match goal with |- context [if ?c then _ else _] => destruct c end;
    simpl; lia.
Qed.

Lemma grows_User_deactivate id : counter_grows (User_deactivate id).
Proof.
  intro w. unfold User_deactivate.
  destruct (castObjectId id); try (simpl; lia).
  destruct (find_user _ _); simpl; lia.
Qed.

#[export] Hint Resolve grows_ret grows_throw grows_eval grows_User_save
  grows_User_findByIdAndUpdate grows_User_deactivate : keeps.

Ltac grows :=
  repeat lazymatch goal with
    | |- counter_grows (bind _ _) => apply grows_bind; [|intro]
    | |- counter_grows (try_catch _ _) => apply grows_try_catch; [|intro]
    | |- counter_grows (if ?c then _ else _) => destruct c
    | |- counter_grows (match ?c with _ => _ end) => destruct c
    | |- counter_grows _ => solve [auto with keeps]
    end.

Lemma grows_processEvent rt eventData topic :
  counter_grows (processEvent rt eventData topic).
Proof.
  unfold processEvent, handleUserCreated, handleUserUpdated, handleUserDeleted,
    handleOrderCreated, handleNotificationSent, handlePurchaseCreated.
  grows.
Qed.

(** What one message does to the store: nothing but a move of the counter,
    or one stored document followed by its handler. *)
Lemma handleMessage_cases rt parse p w :
  (events (snd (handleMessage rt parse p w)) = events w
   /\ users (snd (handleMessage rt parse p w)) = users w
   /\ (nextId w <= nextId (snd (handleMessage rt parse p w)))%nat)
  \/ (exists eventData doc,
        decoded_event rt p eventData w = Some doc
        /\ events (snd (handleMessage rt parse p w)) = events w ++ [doc]
        /\ users (snd (handleMessage rt parse p w))
           = users (snd (processEvent rt eventData (topic p) (stored w doc)))
        /\ (S (nextId w) <= nextId (snd (handleMessage rt parse p w)))%nat
        /\ exists raw,
             value (message p) = Some raw /\ parse raw = Return eventData).
Proof.
  destruct (value (message p)) as [raw|] eqn:Hv.
  2:{ left. unfold handleMessage, try_catch. rewrite Hv. simpl. auto. }
  destruct raw as [|c raw].
  { left. unfold handleMessage, try_catch. rewrite Hv. simpl. auto. }
  destruct (parse (String c raw)) as [eventData|error] eqn:Hp.
  2:{ left.
      rewrite (Ingestion.poison_message_outcome _ _ _ _ _ _ Hv eq_refl Hp).
      simpl. auto. }
  destruct (decoded_event rt p eventData w) as [doc|] eqn:Hd.
  - right. exists eventData, doc. split; [exact Hd|].
    rewrite (handleMessage_decoded _ _ _ _ _ _ _ Hv eq_refl Hp Hd).
    unfold try_catch.
    pose proof (keeps_processEvent rt eventData (topic p) (stored w doc)) as K.
    pose proof (grows_processEvent rt eventData (topic p) (stored w doc)) as G.
    destruct (processEvent rt eventData (topic p) (stored w doc))
      as [[[]|e] w1]; simpl in *.
    + repeat split; auto; try lia. exists (String c raw). auto.
    + repeat split; auto; try lia. exists (String c raw). auto.
  - left.
    destruct (handleMessage_refused rt parse p _ eventData w Hv eq_refl Hp Hd)
      as (_ & H1 & H2 & H3).
    auto.
Qed.

Lemma consume_step rt parse p rest w :
  consume rt parse (p :: rest) w
  = consume rt parse rest (snd (handleMessage rt parse p w)).
Proof.
  cbn [consume]. unfold bind.
  pose proof (Ingestion.handleMessage_never_throws rt parse p w) as H.
  destruct (handleMessage rt parse p w) as [[[]|e] w1]; simpl in *;
    [reflexivity|discriminate].
Qed.

Lemma decoded_event_fresh rt p eventData w doc :
  decoded_event rt p eventData w = Some doc -> fresh_from_broker doc.
Proof.
  intro H.
  destruct (decoded_event_fields _ _ _ _ _ H) as (_ & Hs & Hp & _ & n & _ & Hm).
  unfold fresh_from_broker. rewrite Hm. auto.
Qed.

(** X1.  Whatever the parser, the messages and the store, consuming a batch
    returns normally (no message stops the ones after it) and only appends
    to the Event collection: the Events already stored are left as they are
    and in place, at most one Event is added per message, and every added
    Event has source kafka, processed false, retryCount 0 and no
    errorMessage. *)
Theorem X1_consumer_only_appends rt parse batch : forall w,
  fst (consume rt parse batch w) = Return tt
  /\ exists added,
       events (snd (consume rt parse batch w)) = events w ++ added
       /\ (length added <= length batch)%nat
       /\ Forall fresh_from_broker added.
Proof.
  induction batch as [|p rest IH]; intro w.
  - split; [reflexivity|]. exists []. simpl. rewrite app_nil_r. auto.
  - rewrite consume_step.
    destruct (IH (snd (handleMessage rt parse p w)))
      as (Hr & added & He & Hl & Hf).
    split; [exact Hr|].
    destruct (handleMessage_cases rt parse p w)
      as [(E & _ & _)|(eventData & doc & Hd & E & _ & _)].
    + exists added. rewrite He, E. simpl. repeat split; auto.
    + exists (doc :: added). rewrite He, E, <- app_assoc. simpl.
      repeat split; auto; [lia|].
      constructor; [|exact Hf]. eapply decoded_event_fresh, Hd.
Qed.

Lemma ids_fresh_handleMessage rt parse p w :
  ids_fresh w -> ids_fresh (snd (handleMessage rt parse p w)).
Proof.
  intros [Hn Hf].
  destruct (handleMessage_cases rt parse p w)
    as [(E & _ & G)|(eventData & doc & Hd & E & _ & G)];
    unfold ids_fresh; rewrite E.
  - split; [exact Hn|]. eapply Forall_impl; [|exact Hf].
    cbv beta. intros e He. lia.
  - destruct (decoded_event_fields _ _ _ _ _ Hd) as (Hid & _).
    rewrite map_app. cbn [map]. split.
    + apply NoDup_app; [exact Hn|repeat constructor; intros []|].
      intros x Hx [<-|[]]. apply in_map_iff in Hx as (e & He & Hin).
      rewrite Forall_forall in Hf. specialize (Hf e Hin). lia.
    + apply Forall_app. split.
      * eapply Forall_impl; [|exact Hf]. cbv beta. intros e He. lia.
      * repeat constructor. lia.
Qed.

(** X2.  The consumer keeps the identifiers of the Event collection sound:
    if they are pairwise different and all below the ObjectId counter before
    a batch is consumed, they are so afterwards, whatever the messages. *)
Theorem X2_consumer_keeps_identifiers_unique rt parse batch : forall w,
  ids_fresh w -> ids_fresh (snd (consume rt parse batch w)).
Proof.
  induction batch as [|p rest IH]; intros w H; [exact H|].
  rewrite consume_step. apply IH, ids_fresh_handleMessage, H.
Qed.

Lemma X2_identifiers_witness :
  ids_fresh
    (snd (consume Samples.platform Samples.JSON_parse
            [ Samples.deliver_untimed "user-events" 5
                (Some Samples.body_user_created);
              Samples.deliver_untimed "user-events" 6 (Some Samples.body_poison) ]
            Samples.empty_world)).
Proof.
  apply (X2_consumer_keeps_identifiers_unique Samples.platform
           Samples.JSON_parse
           [ Samples.deliver_untimed "user-events" 5
               (Some Samples.body_user_created);
             Samples.deliver_untimed "user-events" 6 (Some Samples.body_poison) ]
           Samples.empty_world).
  split; constructor.
Defined.

(** *** The User store under the handlers *)

Lemma unique_ret {A} (a : A) : keeps_emails_unique (ret a).
Proof. intros w H; exact H. Qed.

Lemma unique_throw {A} (e : Error) : keeps_emails_unique (@throw A e).
Proof. intros w H; exact H. Qed.

Lemma unique_eval {A} (o : Outcome A) : keeps_emails_unique (eval o).
Proof. intros w H; exact H. Qed.

Lemma unique_bind {A B} (m : M A) (k : A -> M B) :
  keeps_emails_unique m -> (forall a, keeps_emails_unique (k a)) ->
  keeps_emails_unique (bind m k).
Proof.
  intros Hm Hk w H. unfold bind. specialize (Hm w H).
  destruct (m w) as [[a|e] w1]; simpl in *; [|exact Hm].
  apply Hk, Hm.
Qed.

Lemma unique_try_catch {A} (m : M A) (h : Error -> M A) :
  keeps_emails_unique m -> (forall e, keeps_emails_unique (h e)) ->
  keeps_emails_unique (try_catch m h).
Proof.
  intros Hm Hh w H. unfold try_catch. specialize (Hm w H).
  destruct (m w) as [[a|e] w1]; simpl in *; [exact Hm|].
  apply Hh, Hm.
Qed.

Lemma email_taken_false e l :
  email_taken e l = false -> ~ In e (map User.email l).
Proof.
  unfold email_taken. intros H Hin.
  apply in_map_iff in Hin as (u & <- & Hu).
  assert (existsb (fun u0 => (User.email u0 =? User.email u)%string) l = true).
  { apply existsb_exists. exists u. split; [exact Hu|apply String.eqb_refl]. }
  congruence.
Qed.

Lemma unique_User_save rt fields m :
  keeps_emails_unique (User_save rt fields m).
Proof.
  intros w H. unfold User_save.
  destruct (User_document _ _ _ _) as [doc|]; [|exact H].
  cbn [users with_nextId].
  destruct (email_taken (User.email doc) (users w)) eqn:T; [exact H|].
  cbn [orb].
  match goal with |- context [if ?c then _ else _] => destruct c end;
    [exact H|].
  unfold emails_unique. cbn [snd users with_users].
  rewrite map_app. apply NoDup_app; [exact H|repeat constructor; intros []|].
  intros x Hx [<-|[]]. exact (email_taken_false _ _ T Hx).
Qed.

Lemma find_user_Some id l d :
  find_user id l = Some d -> In d l /\ User._id d = id.
Proof.
  induction l as [|u l IH]; simpl; [discriminate|].
  destruct (Nat.eqb (User._id u) id) eqn:E.
  - intro H; injection H as <-. apply Nat.eqb_eq in E. auto.
  - intro H. destruct (IH H). auto.
Qed.

Lemma replace_user_In x d' l :
  In x (map User.email (replace_user d' l)) ->
  x = User.email d' \/ In x (map User.email l).
Proof.
  induction l as [|u l IH]; simpl; [tauto|].
  destruct (Nat.eqb (User._id u) (User._id d')); simpl; intuition.
Qed.

Lemma replace_user_unique l : forall d d',
  find_user (User._id d') l = Some d ->
  NoDup (map User.email l) ->
  User.email d' = User.email d \/ ~ In (User.email d') (map User.email l) ->
  NoDup (map User.email (replace_user d' l)).
Proof.
  induction l as [|u l IH]; intros d d' Hf Hn Hc; simpl in *; [constructor|].
  inversion Hn as [|? ? Hu Hl]; subst.
  destruct (Nat.eqb (User._id u) (User._id d')) eqn:E.
  - injection Hf as <-. simpl. constructor; [|exact Hl].
    destruct Hc as [->|Hc]; [exact Hu|]. intro. apply Hc. auto.
  - simpl. constructor.
    + intro Hin. apply replace_user_In in Hin as [Hin|Hin]; [|tauto].
      destruct Hc as [Hc|Hc].
      * apply Hu. rewrite Hin, Hc. apply in_map.
        apply (find_user_Some _ _ _ Hf).
      * apply Hc. left. exact Hin.
    + apply (IH d d' Hf Hl). destruct Hc as [Hc|Hc]; [auto|].
      right. intro. apply Hc. auto.
Qed.

Lemma unique_replaced w d d' :
  emails_unique w ->
  find_user (User._id d') (users w) = Some d ->
  emails_unique
    (snd (if (negb (User.email d' =? User.email d)%string
              && email_taken (User.email d') (users w))%bool
          then (@Throw (option User.Doc)
                  (DuplicateKey "E11000 duplicate key error"), w)
          else (Return (Some d'), with_users w (replace_user d' (users w))))).
Proof.
  intros H F.
  destruct (negb (User.email d' =? User.email d)%string) eqn:N; cbn [andb].
  - destruct (email_taken (User.email d') (users w)) eqn:T; [exact H|].
    unfold emails_unique. cbn [snd users with_users].
    apply (replace_user_unique _ d); auto.
    right. apply email_taken_false, T.
  - unfold emails_unique. cbn [snd users with_users].
    apply (replace_user_unique _ d); auto.
    left. apply negb_false_iff, String.eqb_eq in N. exact N.
Qed.

Lemma unique_User_findByIdAndUpdate rt id fields :
  keeps_emails_unique (User_findByIdAndUpdate rt id fields).
Proof.
  intros w H. unfold User_findByIdAndUpdate.
  destruct (castObjectId id) as [|oid|]; [| |exact H]; cbv zeta.
  - match goal with
    | |- context [match ?u with Return _ => _ | Throw _ => _ end] =>
        destruct u as [[d'|]|error]
    end; exact H.
  - destruct (find_user oid (users w)) as [d|] eqn:F;
      match goal with
      | |- context [match ?u with Return _ => _ | Throw _ => _ end] =>
          destruct u as [[d'|]|error]
      end; try exact H.
    destruct (find_user_Some _ _ _ F) as [_ Hid].
    apply (unique_replaced w d (with_id (User._id d) d') H).
    cbn [with_id User._id]. rewrite Hid. exact F.
Qed.

Lemma unique_User_deactivate id : keeps_emails_unique (User_deactivate id).
Proof.
  intros w H. unfold User_deactivate.
  destruct (castObjectId id) as [|oid|]; try exact H.
  destruct (find_user oid (users w)) as [d|] eqn:F; [|exact H].
  destruct (find_user_Some _ _ _ F) as [_ Hid].
  unfold emails_unique. cbn [snd users with_users].
  apply (replace_user_unique _ d); auto.
  cbn [User._id]. rewrite Hid. exact F.
Qed.

#[export] Hint Resolve unique_ret unique_throw unique_eval unique_User_save
  unique_User_findByIdAndUpdate unique_User_deactivate : keeps.

Ltac unique :=
  repeat lazymatch goal with
    | |- keeps_emails_unique (bind _ _) => apply unique_bind; [|intro]
    | |- keeps_emails_unique (try_catch _ _) => apply unique_try_catch; [|intro]
    | |- keeps_emails_unique (if ?c then _ else _) => destruct c
    | |- keeps_emails_unique (match ?c with _ => _ end) => destruct c
    | |- keeps_emails_unique _ => solve [auto with keeps]
    end.

Lemma unique_processEvent rt eventData topic :
  keeps_emails_unique (processEvent rt eventData topic).
Proof.
  unfold processEvent, handleUserCreated, handleUserUpdated, handleUserDeleted,
    handleOrderCreated, handleNotificationSent, handlePurchaseCreated.
  unique.
Qed.

Lemma unique_handleMessage rt parse p w :
  emails_unique w -> emails_unique (snd (handleMessage rt parse p w)).
Proof.
  intro H.
  destruct (handleMessage_cases rt parse p w)
    as [(_ & E & _)|(eventData & doc & _ & _ & E & _)];
    unfold emails_unique; rewrite E; [exact H|].
  apply (unique_processEvent rt eventData (topic p) (stored w doc)). exact H.
Qed.

(** X3.  The consumer keeps what the unique index on [email] demands: if no
    two Users share an email before a batch is consumed, none do afterwards,
    whatever the messages (user creations, updates that change an email,
    deactivations). *)
Theorem X3_consumer_keeps_emails_unique rt parse batch : forall w,
  emails_unique w -> emails_unique (snd (consume rt parse batch w)).
Proof.
  induction batch as [|p rest IH]; intros w H; [exact H|].
  rewrite consume_step. apply IH, unique_handleMessage, H.
Qed.

Lemma X3_emails_witness :
  emails_unique
    (snd (consume Samples.platform Samples.JSON_parse
            [ Samples.deliver_untimed "user-events" 5
                (Some Samples.body_user_created);
              Samples.deliver_untimed "user-events" 6
                (Some Samples.body_user_created) ]
            Samples.world_with_alice)).
Proof.
  apply (X3_consumer_keeps_emails_unique Samples.platform
           Samples.JSON_parse
           [ Samples.deliver_untimed "user-events" 5
               (Some Samples.body_user_created);
             Samples.deliver_untimed "user-events" 6
               (Some Samples.body_user_created) ]
           Samples.world_with_alice).
  repeat constructor. simpl. tauto.
Defined.

(** *** Dispatch *)

Lemma leaves_ret {A} (a : A) : leaves_world (ret a).
Proof. intro w; reflexivity. Qed.

Lemma leaves_throw {A} (e : Error) : leaves_world (@throw A e).
Proof. intro w; reflexivity. Qed.

Lemma leaves_eval {A} (o : Outcome A) : leaves_world (eval o).
Proof. intro w; reflexivity. Qed.

Lemma leaves_bind {A B} (m : M A) (k : A -> M B) :
  leaves_world m -> (forall a, leaves_world (k a)) -> leaves_world (bind m k).
Proof.
  intros Hm Hk w. unfold bind. specialize (Hm w).
  destruct (m w) as [[a|e] w1]; simpl in *; subst; [apply Hk|reflexivity].
Qed.

Lemma leaves_try_catch {A} (m : M A) (h : Error -> M A) :
  leaves_world m -> (forall e, leaves_world (h e)) -> leaves_world (try_catch m h).
Proof.
  intros Hm Hh w. unfold try_catch. specialize (Hm w).
  destruct (m w) as [[a|e] w1]; simpl in *; subst; [reflexivity|apply Hh].
Qed.

#[export] Hint Resolve leaves_ret leaves_throw leaves_eval : keeps.

Ltac leaves :=
  repeat lazymatch goal with
    | |- leaves_world (bind _ _) => apply leaves_bind; [|intro]
    | |- leaves_world (try_catch _ _) => apply leaves_try_catch; [|intro]
    | |- leaves_world _ => solve [auto with keeps]
    end.

(** X4.  Only the three [user.*] handlers write: for a decoded message of
    any other type, [processEvent] leaves both collections (and the counter)
    exactly as they were, whether it returns or throws; and when the type is
    none of the six the switch knows, it also returns normally. *)
Theorem X4_only_user_events_write (rt : Platform) (eventData : json)
  (topic : string) (type : Js.value) (w : World) :
  get (Some eventData) "type" = Return type ->
  is_type type "user.created" = false ->
  is_type type "user.updated" = false ->
  is_type type "user.deleted" = false ->
  snd (processEvent rt eventData topic w) = w
  /\ (is_type type "order.created" = false ->
      is_type type "notification.sent" = false ->
      is_type type "purchase.created" = false ->
      fst (processEvent rt eventData topic w) = Return tt).
Proof.
  intros Hg H1 H2 H3.
  assert (Hd : exists data, get (Some eventData) "data" = Return data).
  { destruct eventData; try discriminate; cbn [get]; eauto. }
  assert (Hu : exists userId, get (Some eventData) "userId" = Return userId).
  { destruct eventData; try discriminate; cbn [get]; eauto. }
  destruct Hd as [data Hd], Hu as [userId Hu].
  unfold processEvent. unfold bind at 1 2 3, eval at 1 2 3.
  rewrite Hg, Hd, Hu, H1, H2, H3. split.
  - assert (L : leaves_world
                  (try_catch
                     (if is_type type "order.created"
                      then handleOrderCreated data
                      else if is_type type "notification.sent"
                           then handleNotificationSent data
                           else if is_type type "purchase.created"
                                then handlePurchaseCreated data
                                else ret tt)
                     (fun error => throw error))).
    { apply leaves_try_catch; [|intro; apply leaves_throw].
      destruct (is_type type "order.created"); [apply leaves_eval|].
      destruct (is_type type "notification.sent"); [apply leaves_eval|].
      destruct (is_type type "purchase.created"); [|apply leaves_ret].
      unfold handlePurchaseCreated. leaves. }
    apply L.
  - intros H4 H5 H6. cbv beta iota delta [bind eval try_catch].
    rewrite H1, H2, H3, H4, H5, H6. reflexivity.
Qed.

Lemma X4_only_user_events_witness :
  snd (processEvent Samples.platform Samples.user_login_message "user-events"
         Samples.pending_world) = Samples.pending_world
  /\ fst (processEvent Samples.platform Samples.user_login_message
            "user-events" Samples.pending_world) = Return tt.
Proof.
  destruct (X4_only_user_events_write Samples.platform
              Samples.user_login_message "user-events"
              (Some (JStr "user.login")) Samples.pending_world)
    as [H1 H2]; try reflexivity.
  split; [exact H1|apply H2; reflexivity].
Defined.

(** *** Deactivation *)








End Consumption.

(* ================================================================== *)
(** ** Further properties of the retry endpoint *)
(* ================================================================== *)

Module RetryMore.

Import Js Mongoose Async EventController Observations Invariants.
Local Open Scope list_scope.

Lemma advanced_refl e : advanced e e.
Proof. unfold advanced. repeat split; auto. lia. Qed.

Lemma advanced_trans a b c : advanced a b -> advanced b c -> advanced a c.
Proof.
  unfold advanced. intros (C1 & R1 & P1) (C2 & R2 & P2).
  repeat split; [congruence|lia|auto].
Qed.

Lemma Forall2_advanced_refl l : Forall2 advanced l l.
Proof. induction l; constructor; auto using advanced_refl. Qed.

Lemma Forall2_advanced_trans l1 : forall l2 l3,
  Forall2 advanced l1 l2 -> Forall2 advanced l2 l3 -> Forall2 advanced l1 l3.
Proof.
  induction l1 as [|a l1 IH]; intros l2 l3 H12 H23;
    inversion H12; subst; inversion H23; subst; constructor.
  - eapply advanced_trans; eassumption.
  - eapply IH; eassumption.
Qed.

Lemma update_by_id_advanced id f l :
  (forall e, advanced e (f e)) -> Forall2 advanced l (update_by_id id f l).
Proof.
  intro Hf. induction l as [|e l IH]; simpl; [constructor|].
  destruct (Nat.eqb (Event._id e) id); constructor; auto.
  - apply Forall2_advanced_refl.
  - apply advanced_refl.
Qed.

Lemma inc_retry_advanced e : advanced e (inc_retry e).
Proof. unfold advanced. cbn. repeat split; auto. lia. Qed.

Lemma mark_processed_advanced e : advanced e (mark_processed e).
Proof. unfold advanced. cbn. repeat split; auto. lia. Qed.

Lemma retryOne_advanced event w :
  exists l,
    retryOne event w = (Return true, with_events w l)
    /\ Forall2 advanced (events w) l.
Proof.
  eexists. split; [reflexivity|].
  eapply Forall2_advanced_trans;
    apply update_by_id_advanced;
    [apply inc_retry_advanced|apply mark_processed_advanced].
Qed.

Lemma retryEach_advanced sel : forall n w,
  exists l,
    retryEach sel n w = (Return (n + length sel)%nat, with_events w l)
    /\ Forall2 advanced (events w) l.
Proof.
  induction sel as [|s sel IH]; intros n w.
  - exists (events w). cbn. rewrite Nat.add_0_r. split.
    + destruct w; reflexivity.
    + apply Forall2_advanced_refl.
  - destruct (retryOne_advanced s w) as (l1 & E1 & A1).
    destruct (IH (S n) (with_events w l1)) as (l2 & E2 & A2).
    exists l2. cbn [retryEach]. unfold bind. rewrite E1, E2. split.
    + f_equal. f_equal. simpl. lia.
    + eapply Forall2_advanced_trans; eassumption.
Qed.

(** What a retry request does, whatever the store. *)
Lemma retryFailedEvents_advanced req w :
  exists message l,
    retryFailedEvents req w
    = (Return (mkResponse 200 true message
                 (Some (length (find_failed (limit_of req) (events w))))),
       with_events w l)
    /\ Forall2 advanced (events w) l.
Proof.
  unfold retryFailedEvents, try_catch, bind, getWorld. fold (limit_of req).
  destruct (find_failed (limit_of req) (events w)) as [|s sel] eqn:S.
  - exists "No failed events to retry", (events w). cbn. split.
    + destruct w; reflexivity.
    + apply Forall2_advanced_refl.
  - cbn [length Nat.eqb].
    destruct (retryEach_advanced (s :: sel) 0 w) as (l & E & A).
    rewrite E. eexists _, l. split; [reflexivity|exact A].
Qed.

Lemma Forall2_advanced_content l l' :
  Forall2 advanced l l' -> map content l' = map content l.
Proof.
  induction 1 as [|e e' l l' (C & _) _ IH]; simpl; congruence.
Qed.

(** X6.  A retry request never creates, deletes or reorders an Event, and
    never changes an Event's identifier, type, userId, data, source,
    timestamp or broker coordinates: document by document, only [processed]
    and the retry bookkeeping may differ, the retry count never goes down
    and a processed Event stays processed.  The User store and the ObjectId
    counter are not touched. *)
Theorem X6_retry_only_advances_bookkeeping (req : Request) (w : World) :
  Forall2 advanced (events w) (events (snd (retryFailedEvents req w)))
  /\ map content (events (snd (retryFailedEvents req w)))
     = map content (events w)
  /\ users (snd (retryFailedEvents req w)) = users w
  /\ nextId (snd (retryFailedEvents req w)) = nextId w.
Proof.
  destruct (retryFailedEvents_advanced req w) as (message & l & E & A).
  rewrite E. cbn [fst snd events users nextId with_events].
  repeat split; auto.
  apply Forall2_advanced_content, A.
Qed.

(** X7.  In a store with unique identifiers, no Event is retried twice: an
    Event selected by a retry request is not selected by any later request,
    whatever its bound; what a later request selects was in the store before
    and was not touched by the first. *)
Theorem X7_retried_events_are_not_selected_again (req : Request) (w : World)
  (n : Z) (e : Event.Doc) :
  NoDup (map Event._id (events w)) ->
  In e (find_failed n (events (snd (retryFailedEvents req w)))) ->
  In e (events w)
  /\ selected (find_failed (limit_of req) (events w)) e = false.
Proof.
  intros Hn He.
  destruct (Retry.retry_marks_selection_processed req w Hn)
    as (response & w' & E & _ & _ & Hev & _).
  rewrite E in He. cbn [snd] in He.
  apply Retry.find_failed_In in He as [Hin Hf].
  rewrite Hev in Hin. unfold retried in Hin.
  apply in_map_iff in Hin as (x & Hx & Hin).
  destruct (selected (find_failed (limit_of req) (events w)) x) eqn:Sx.
  - subst e. discriminate.
  - subst e. auto.
Qed.

Lemma X7_not_selected_again_witness :
  In Samples.pending_user (events Samples.pending_world)
  /\ selected (find_failed (limit_of (mkRequest (Some 1)))
                 (events Samples.pending_world))
       Samples.pending_user = false.
Proof.
  apply (X7_retried_events_are_not_selected_again (mkRequest (Some 1))
           Samples.pending_world 5 Samples.pending_user).
  - vm_compute. repeat constructor; simpl; intuition discriminate.
  - vm_compute. left. reflexivity.
Defined.

Lemma limit_nil {A} n (l : list A) : limit n l = [] -> l = [].
Proof.
  unfold limit. destruct (n =? 0) eqn:E; [auto|].
  apply Z.eqb_neq in E. destruct l as [|a l]; [auto|].
  destruct (Z.to_nat (Z.abs n)) eqn:N; [lia|discriminate].
Qed.

Lemma find_failed_nil n l :
  find_failed n l = [] <-> forall e, In e l -> failed_filter e = false.
Proof.
  unfold find_failed. split.
  - intros H e He. apply limit_nil in H.
    destruct (failed_filter e) eqn:F; [|reflexivity].
    assert (Hin : In e (sort_by_timestamp (filter failed_filter l))).
    { apply (Permutation_in _
               (Permutation_sym (Retry.sort_by_timestamp_perm _))).
      apply filter_In. auto. }
    rewrite H in Hin. destruct Hin.
  - intro H.
    assert (F : filter failed_filter l = []).
    { induction l as [|x l IH]; simpl; [reflexivity|].
      rewrite (H x (or_introl eq_refl)). apply IH. intros e He.
      apply H. right. exact He. }
    rewrite F. simpl. unfold limit. destruct (n =? 0); [reflexivity|].
    apply firstn_nil.
Qed.

(** X8.  A retry request answers "No failed events to retry" with count 0,
    and leaves the store untouched, exactly when no Event is unprocessed
    with a retry count below 3; otherwise its count is at least 1, whatever
    the bound. *)
Theorem X8_retry_counts_zero_iff_nothing_is_eligible (req : Request) (w : World) :
  ((forall e, In e (events w) -> failed_filter e = false) ->
   retryFailedEvents req w
   = (Return (mkResponse 200 true "No failed events to retry" (Some 0%nat)), w))
  /\ ((exists e, In e (events w) /\ failed_filter e = true) ->
      exists response count,
        fst (retryFailedEvents req w) = Return response
        /\ retriedCount response = Some count /\ (1 <= count)%nat).
Proof.
  split.
  - intro H. apply (find_failed_nil (limit_of req)) in H.
    unfold retryFailedEvents, try_catch, bind, getWorld. fold (limit_of req).
    rewrite H. reflexivity.
  - intros (e & He & Hf).
    destruct (retryFailedEvents_advanced req w) as (message & l & E & _).
    rewrite E. eexists _, _. split; [reflexivity|]. split; [reflexivity|].
    destruct (find_failed (limit_of req) (events w)) eqn:S; [|simpl; lia].
    rewrite (proj1 (find_failed_nil _ _) S e He) in Hf. discriminate.
Qed.

Lemma X8_retry_counts_witness :
  retryFailedEvents (mkRequest None) Samples.empty_world
  = (Return (mkResponse 200 true "No failed events to retry" (Some 0%nat)),
     Samples.empty_world)
  /\ exists response count,
       fst (retryFailedEvents (mkRequest None) Samples.pending_world)
       = Return response
       /\ retriedCount response = Some count /\ (1 <= count)%nat.
Proof.
  split.
  - apply (proj1 (X8_retry_counts_zero_iff_nothing_is_eligible
                    (mkRequest None) Samples.empty_world)).
    simpl. tauto.
  - apply (proj2 (X8_retry_counts_zero_iff_nothing_is_eligible
                    (mkRequest None) Samples.pending_world)).
    exists Samples.pending_user. split; [simpl; auto|reflexivity].
Defined.

End RetryMore.

(* ================================================================== *)
(** ** Properties of the listing and creation endpoints *)
(* ================================================================== *)

Module Listing.

Import Js Mongoose Async EventQueries Observations Invariants.
Local Open Scope list_scope.

Lemma insert_desc_perm e l : Permutation (insert_desc e l) (e :: l).
Proof.
  induction l as [|x l IH]; simpl; [apply Permutation_refl|].
  destruct (Event.timestamp x <=? Event.timestamp e).
  - apply Permutation_refl.
  - eapply perm_trans; [apply perm_skip, IH|apply perm_swap].
Qed.

Lemma sort_desc_perm l : Permutation (sort_desc l) l.
Proof.
  induction l as [|x l IH]; simpl; [constructor|].
  eapply perm_trans; [apply insert_desc_perm|apply perm_skip, IH].
Qed.








(** *** Pages *)



Lemma ceil_div_bounds total limit :
  1 <= limit ->
  (ceil_div total limit - 1) * limit < total <= ceil_div total limit * limit.
Proof.
  intro H. unfold ceil_div.
  pose proof (Z.div_mod (- total) limit ltac:(lia)).
  pose proof (Z.mod_pos_bound (- total) limit ltac:(lia)).
  nia.
Qed.

(** The page [page] of size [limit], for a page and a size of at least 1. *)
Lemma list_events_window f page limit w :
  1 <= page -> 1 <= limit ->
  list_events f page limit w
  = Listed
      (firstn (Z.to_nat limit)
         (skipn (Z.to_nat (page - 1) * Z.to_nat limit)
            (sort_desc (filter (matches f) (events w)))))
      (mkPagination page limit (countDocuments f (events w))
         (ceil_div (countDocuments f (events w)) limit)
         (page <? ceil_div (countDocuments f (events w)) limit) (1 <? page)).
Proof.
  intros Hp Hl. unfold list_events, find_page.
  destruct ((page - 1) * limit <? 0) eqn:E; [apply Z.ltb_lt in E; nia|].
  unfold Mongoose.limit. destruct (limit =? 0) eqn:E0;
    [apply Z.eqb_eq in E0; lia|].
  rewrite Z.abs_eq by lia. rewrite Z2Nat.inj_mul by lia. reflexivity.
Qed.



(** X11.  For a page and a page size of at least 1, [hasNext] is true
    exactly when the next page holds at least one Event, and [hasPrev]
    exactly when the page is not the first. *)
Theorem X11_hasNext_tells_whether_a_next_page_exists (f : Filter)
  (page limit : Z) (w : World) (found : list Event.Doc) (pg : Pagination) :
  1 <= page -> 1 <= limit ->
  list_events f page limit w = Listed found pg ->
  (hasNext pg = true <-> listed (list_events f (page + 1) limit w) <> [])
  /\ (hasPrev pg = true <-> 2 <= page).
Proof.
  intros Hp Hl H. rewrite list_events_window in H by lia.
  injection H as _ <-. cbn [hasNext hasPrev].
  rewrite list_events_window by lia. cbn [listed].
  replace (page + 1 - 1) with page by lia.
  set (matching := sort_desc (filter (matches f) (events w))).
  assert (Hlen : Z.of_nat (length matching) = countDocuments f (events w)).
  { unfold countDocuments. f_equal. apply Permutation_length, sort_desc_perm. }
  pose proof (ceil_div_bounds (countDocuments f (events w)) limit Hl) as B.
  split; [|rewrite Z.ltb_lt; lia].
  rewrite Z.ltb_lt.
  assert (Hskip : skipn (Z.to_nat page * Z.to_nat limit) matching = []
                  <-> countDocuments f (events w) <= page * limit).
  { rewrite <- skipn_all_iff, <- Hlen. split; intro; [|nia].
    apply Nat2Z.inj_le in H. rewrite Nat2Z.inj_mul, !Z2Nat.id in H by lia.
    exact H. }
  split.
  - intros Hlt Hnil.
    assert (Hs : skipn (Z.to_nat page * Z.to_nat limit) matching <> [])
      by (intro S; apply Hskip in S; nia).
    destruct (skipn (Z.to_nat page * Z.to_nat limit) matching) as [|x rest];
      [exact (Hs eq_refl)|].
    destruct (Z.to_nat limit) eqn:L; [lia|discriminate].
  - intro Hne.
    destruct (Z_lt_le_dec page (ceil_div (countDocuments f (events w)) limit))
      as [|Hge]; [assumption|].
    exfalso. apply Hne.
    assert (S : skipn (Z.to_nat page * Z.to_nat limit) matching = [])
      by (apply Hskip; nia).
    rewrite S. apply firstn_nil.
Qed.

Lemma X11_hasNext_witness :
  (hasNext (mkPagination 1 1 2 2 true false) = true
   <-> listed (list_events (mkFilter None None None None None None) (1 + 1) 1
                 Samples.pending_world) <> [])
  /\ (hasPrev (mkPagination 1 1 2 2 true false) = true <-> 2 <= 1).
Proof.
  apply (X11_hasNext_tells_whether_a_next_page_exists
           (mkFilter None None None None None None) 1 1 Samples.pending_world
           [Samples.pending_user]);
    [lia|lia|reflexivity].
Defined.

(** *** Creation and lookup *)

Lemma Event_document_fields generated clock i d :
  Event_document generated clock i = Some d ->
  Event._id d = match castObjectId (Event.init_id i) with
                | Casted given => given
                | _ => generated
                end
  /\ Event.source d = match Event.init_source i with
                      | Some s => s
                      | None => "api"
                      end
  /\ Event.processed d = match Event.init_processed i with
                         | Some b => b
                         | None => false
                         end
  /\ Event.timestamp d = match Event.init_timestamp i with
                         | Some (Some t) => t
                         | _ => clock
                         end
  /\ in_enum (Event.type d) Event.type_enum = true.
Proof.
  unfold Event_document.
  destruct (castObjectId (Event.init_id i)) as [|given|]; try discriminate;
    (destruct (castString (Event.init_type i)) as [|ty|]; try discriminate);
    (destruct (castString (Event.init_userId i)); try discriminate);
    cbv zeta;
    (destruct (in_enum (trim ty) Event.type_enum) eqn:T; cbn [negb];
       try discriminate);
    (destruct (negb (in_enum _ Event.source_enum)); try discriminate);
    (destruct (Event.init_data i) as [[]|]; try discriminate);
    (destruct (Event.init_timestamp i) as [[t|]|]; try discriminate);
    (destruct (Event.init_metadata i) as [m|];
       [destruct (Event.init_kafkaOffset m) as [[k|]|]|]; try discriminate);
    intro H; injection H as <-; cbn; auto.
Qed.

Lemma find_failed_skips_processed n l e :
  Event.processed e = true -> ~ In e (EventController.find_failed n l).
Proof.
  intros Hp Hin. apply Retry.find_failed_In in Hin as [_ Hf].
  unfold EventController.failed_filter in Hf. rewrite Hp in Hf. discriminate.
Qed.

(** What [createEvent] did when it answers 201. *)
Lemma createEvent_created body w e w' :
  createEvent true body w = (Return (Created e), w') ->
  events w' = events w ++ [e]
  /\ users w' = users w
  /\ Event_document (nextId w) (now w)
       (Event.mkInit (option_map JStr (body_id body)) (body_type body)
          (body_userId body) (body_data body) (Some "api")
          (Some (Some (now w))) (Some true) None) = Some e
  /\ (names_id (option_map JStr (body_id body)) = true ->
      event_id_taken (Event._id e) (events w) = false).
Proof.
  unfold createEvent. cbn [negb]. unfold try_catch, bind, Event_save, ret.
  cbn [now with_nextId nextId events Event.init_id].
  destruct (Event_document (nextId w) (now w) _) as [d|] eqn:D; [|discriminate].
  destruct (names_id (option_map JStr (body_id body))) eqn:N; cbn [andb].
  - destruct (event_id_taken (Event._id d) (events w)) eqn:T; [discriminate|].
    intro H. injection H as <- <-. cbn [events users with_events]. auto.
  - intro H. injection H as <- <-. cbn [events users with_events].
    repeat split; auto. discriminate.
Qed.

(** X12.  [createEvent] never throws, never touches the User store, and
    answers in one of three ways.  When it answers 201 the request had
    passed validation and exactly one Event was appended: its identifier is
    the [_id] of the body when the body names one (which no stored Event
    carried before), and the one drawn from the counter otherwise; it has a
    type of the schema's vocabulary, source api, the time of the call and
    [processed = true], whatever the body said about source, timestamp or
    processed, and the retry query never selects it.  When it answers 400 or
    500 the Event collection is as it was; and a validated body that names
    the identifier of a stored Event is answered 500. *)
Theorem X12_created_events_are_api_events (validated : bool) (body : EventBody)
  (w : World) :
  (exists response,
    fst (createEvent validated body w) = Return response
    /\ users (snd (createEvent validated body w)) = users w
    /\ match response with
       | Created e =>
           validated = true
           /\ events (snd (createEvent validated body w)) = events w ++ [e]
           /\ Event._id e
              = match castObjectId (option_map JStr (body_id body)) with
                | Casted given => given
                | _ => nextId w
                end
           /\ (names_id (option_map JStr (body_id body)) = true ->
               event_id_taken (Event._id e) (events w) = false)
           /\ in_enum (Event.type e) Event.type_enum = true
           /\ Event.source e = "api"
           /\ Event.timestamp e = now w
           /\ Event.processed e = true
           /\ (forall n,
                 ~ In e (EventController.find_failed n
                           (events (snd (createEvent validated body w)))))
       | ValidationFailed =>
           validated = false
           /\ events (snd (createEvent validated body w)) = events w
       | CreateFailed => events (snd (createEvent validated body w)) = events w
       end)
  /\ (forall given,
        castObjectId (option_map JStr (body_id body)) = Casted given ->
        event_id_taken given (events w) = true ->
        fst (createEvent true body w) = Return CreateFailed).
Proof.
  split.
  - destruct validated.
    2:{ exists ValidationFailed. cbn. auto. }
    destruct (createEvent true body w) as [[[e| |]|error] w'] eqn:E.
    + exists (Created e). cbn [fst snd].
      destruct (createEvent_created _ _ _ _ E) as (Hev & Hu & D & Ht).
      destruct (Event_document_fields _ _ _ _ D) as (Hid & Hs & Hp & Hts & Hty).
      cbn in Hid, Hs, Hp, Hts. repeat split; auto.
      intro n. rewrite Hev. apply find_failed_skips_processed, Hp.
    + revert E. unfold createEvent. cbn [negb].
      unfold try_catch, bind, Event_save, ret.
      destruct (Event_document _ _ _);
        [destruct (_ && _)%bool|]; discriminate.
    + exists CreateFailed. cbn [fst snd]. revert E. unfold createEvent.
      cbn [negb]. unfold try_catch, bind, Event_save, ret.
      destruct (Event_document _ _ _);
        [destruct (_ && _)%bool|]; try discriminate;
        intro H; injection H as <-; cbn; auto.
    + revert E. unfold createEvent. cbn [negb].
      unfold try_catch, bind, Event_save, ret.
      destruct (Event_document _ _ _);
        [destruct (_ && _)%bool|]; discriminate.
  - intros given Hc Ht. unfold createEvent. cbn [negb].
    unfold try_catch, bind, Event_save, ret.
    cbn [now with_nextId nextId events Event.init_id].
    destruct (Event_document (nextId w) (now w) _) as [d|] eqn:D;
      [|reflexivity].
    destruct (Event_document_fields _ _ _ _ D) as (Hid & _).
    cbn [Event.init_id] in Hid. rewrite Hc in Hid.
    unfold names_id. rewrite Hc, Hid, Ht. reflexivity.
Qed.

Lemma find_event_appended id e : forall l,
  event_id_taken id l = false ->
  Event._id e = id ->
  find_event id (l ++ [e]) = Some e.
Proof.
  induction l as [|x l IH]; intros Hf He; simpl in *.
  - rewrite He, Nat.eqb_refl. reflexivity.
  - apply orb_false_iff in Hf as [Hx Hl]. rewrite Hx. apply IH; auto.
Qed.

Lemma event_id_fresh id l :
  Forall (fun x => (Event._id x < id)%nat) l -> event_id_taken id l = false.
Proof.
  induction 1 as [|x l Hx _ IH]; simpl; [reflexivity|].
  rewrite IH. replace (Nat.eqb (Event._id x) id) with false; [reflexivity|].
  symmetry. apply Nat.eqb_neq. lia.
Qed.

Lemma find_event_sound id l e :
  find_event id l = Some e -> In e l /\ Event._id e = id.
Proof.
  induction l as [|x l IH]; simpl; [discriminate|].
  destruct (Nat.eqb (Event._id x) id) eqn:E.
  - intro H; injection H as <-. apply Nat.eqb_eq in E. auto.
  - intro H. destruct (IH H). auto.
Qed.

(** X13.  Insert and lookup agree.  In a store whose identifiers were all
    drawn from the counter, an Event that [createEvent] has just created,
    under the identifier of the body or under a drawn one, is what
    [getEventById] returns for its identifier; and whatever [getEventById]
    finds is a stored Event carrying the identifier asked for. *)
Theorem X13_created_event_is_found_by_id (body : EventBody) (w w' : World)
  (e : Event.Doc) (id : string) :
  ids_fresh w ->
  createEvent true body w = (Return (Created e), w') ->
  castObjectId (Some (JStr id)) = Casted (Event._id e) ->
  getEventById id w' = Found e
  /\ (forall id' found,
        getEventById id' w' = Found found ->
        In found (events w')
        /\ castObjectId (Some (JStr id')) = Casted (Event._id found)).
Proof.
  intros [_ Hf] Hc Hid.
  destruct (createEvent_created _ _ _ _ Hc) as (Hev & _ & D & Ht).
  destruct (Event_document_fields _ _ _ _ D) as (He & _).
  cbn [Event.init_id] in He.
  split.
  - unfold getEventById. rewrite Hid, Hev.
    rewrite (find_event_appended (Event._id e) e); [reflexivity| |reflexivity].
    unfold names_id in Ht.
    destruct (castObjectId (option_map JStr (body_id body))) as [|given|];
      try (rewrite He; apply event_id_fresh, Hf).
    apply Ht. reflexivity.
  - intros id' found. unfold getEventById.
    destruct (castObjectId (Some (JStr id'))) as [|oid|]; try discriminate.
    destruct (find_event oid (events w')) as [x|] eqn:F; [|discriminate].
    intro H; injection H as <-. destruct (find_event_sound _ _ _ F) as [Hin Hx].
    rewrite Hx. auto.
Qed.

Lemma X13_created_event_witness :
  getEventById "000000000000000000000000"
    (snd (createEvent true
            (mkEventBody None (Some (JStr "user.login")) None (Some (JObj [])))
            Samples.empty_world))
  = Found
      (Event.mkDoc 0 "user.login" None (JObj []) "api" 1700000000500 true
         (Event.mkMetadata None None None 0 None))
  /\ (forall id' found,
        getEventById id'
          (snd (createEvent true
                  (mkEventBody None (Some (JStr "user.login")) None
                     (Some (JObj [])))
                  Samples.empty_world))
        = Found found ->
        In found
          (events
             (snd (createEvent true
                     (mkEventBody None (Some (JStr "user.login")) None
                        (Some (JObj [])))
                     Samples.empty_world)))
        /\ castObjectId (Some (JStr id')) = Casted (Event._id found)).
Proof.
  apply (X13_created_event_is_found_by_id
           (mkEventBody None (Some (JStr "user.login")) None (Some (JObj [])))
           Samples.empty_world).
  - split; constructor.
  - reflexivity.
  - reflexivity.
Defined.

End Listing.

(* ================================================================== *)
(** ** Properties: statistics *)
(* ================================================================== *)

Module Statistics.

Import Js Mongoose Async EventQueries Invariants.
Local Open Scope list_scope.
Local Open Scope nat_scope.

Lemma sum_app {A} (f : A -> nat) l1 l2 :
  sum f (l1 ++ l2) = sum f l1 + sum f l2.
Proof. induction l1 as [|x l1 IH]; simpl; [reflexivity|]. rewrite IH. lia. Qed.

Lemma number_of_snoc {A} (p : A -> bool) l x :
  number_of p (l ++ [x]) = number_of p l + one (p x).
Proof.
  unfold number_of. rewrite filter_app, length_app. simpl.
  destruct (p x); reflexivity.
Qed.

(** The first [$group] stage. *)

Lemma stage_by_source_snoc l e :
  stage_by_source (l ++ [e]) = group_source e (stage_by_source l).
Proof. unfold stage_by_source. rewrite fold_left_app. reflexivity. Qed.

Lemma group_source_sums e T : forall g,
  sum ss_count (filter (fun s => ss_type s =? T)%string (group_source e g))
  = sum ss_count (filter (fun s => ss_type s =? T)%string g) + one (of_type T e)
  /\ sum ss_processed (filter (fun s => ss_type s =? T)%string (group_source e g))
     = sum ss_processed (filter (fun s => ss_type s =? T)%string g)
       + one (of_type T e && Event.processed e)
  /\ sum ss_unprocessed
       (filter (fun s => ss_type s =? T)%string (group_source e g))
     = sum ss_unprocessed (filter (fun s => ss_type s =? T)%string g)
       + one (of_type T e && negb (Event.processed e)).
Proof.
  induction g as [|s g IH]; simpl.
  - unfold of_type. destruct (Event.type e =? T)%string; simpl;
      destruct (Event.processed e); simpl; lia.
  - destruct ((ss_type s =? Event.type e) && (ss_source s =? Event.source e))%string
      eqn:K.
    + apply andb_prop in K as [K _]. apply String.eqb_eq in K.
      simpl. unfold of_type. rewrite <- K.
      destruct (ss_type s =? T)%string; simpl;
        destruct (Event.processed e); simpl; lia.
    + simpl. destruct (ss_type s =? T)%string; simpl; lia.
Qed.

Lemma stage_by_source_sums T : forall l,
  sum ss_count (filter (fun s => ss_type s =? T)%string (stage_by_source l))
  = number_of (of_type T) l
  /\ sum ss_processed (filter (fun s => ss_type s =? T)%string (stage_by_source l))
     = number_of (fun e => of_type T e && Event.processed e) l
  /\ sum ss_unprocessed
       (filter (fun s => ss_type s =? T)%string (stage_by_source l))
     = number_of (fun e => of_type T e && negb (Event.processed e)) l.
Proof.
  induction l as [|e l IH] using rev_ind; [repeat split|].
  rewrite stage_by_source_snoc, !number_of_snoc.
  pose proof (group_source_sums e T (stage_by_source l)). lia.
Qed.

(** The second [$group] stage. *)

Lemma stage_by_type_snoc l s :
  stage_by_type (l ++ [s]) = group_type s (stage_by_type l).
Proof. unfold stage_by_type. rewrite fold_left_app. reflexivity. Qed.

Lemma sum_filter_snoc {A} (f : A -> nat) (p : A -> bool) l x :
  sum f (filter p (l ++ [x])) = sum f (filter p l) + (if p x then f x else 0).
Proof.
  rewrite filter_app, sum_app. simpl. destruct (p x); simpl; lia.
Qed.

Lemma group_type_sums s T : forall g,
  sum ts_totalCount (filter (fun t => ts_type t =? T)%string (group_type s g))
  = sum ts_totalCount (filter (fun t => ts_type t =? T)%string g)
    + (if (ss_type s =? T)%string then ss_count s else 0)
  /\ sum ts_totalProcessed
       (filter (fun t => ts_type t =? T)%string (group_type s g))
     = sum ts_totalProcessed (filter (fun t => ts_type t =? T)%string g)
       + (if (ss_type s =? T)%string then ss_processed s else 0)
  /\ sum ts_totalUnprocessed
       (filter (fun t => ts_type t =? T)%string (group_type s g))
     = sum ts_totalUnprocessed (filter (fun t => ts_type t =? T)%string g)
       + (if (ss_type s =? T)%string then ss_unprocessed s else 0).
Proof.
  induction g as [|t g IH]; simpl.
  - destruct (ss_type s =? T)%string; simpl; lia.
  - destruct (ts_type t =? ss_type s)%string eqn:K.
    + apply String.eqb_eq in K. simpl. rewrite <- K.
      destruct (ts_type t =? T)%string; simpl; lia.
    + simpl. destruct (ts_type t =? T)%string; simpl; lia.
Qed.

Lemma stage_by_type_sums T : forall l,
  sum ts_totalCount (filter (fun t => ts_type t =? T)%string (stage_by_type l))
  = sum ss_count (filter (fun s => ss_type s =? T)%string l)
  /\ sum ts_totalProcessed
       (filter (fun t => ts_type t =? T)%string (stage_by_type l))
     = sum ss_processed (filter (fun s => ss_type s =? T)%string l)
  /\ sum ts_totalUnprocessed
       (filter (fun t => ts_type t =? T)%string (stage_by_type l))
     = sum ss_unprocessed (filter (fun s => ss_type s =? T)%string l).
Proof.
  induction l as [|s l IH] using rev_ind; [repeat split|].
  rewrite stage_by_type_snoc, !sum_filter_snoc.
  pose proof (group_type_sums s T (stage_by_type l)). lia.
Qed.

Lemma group_type_types s T : forall g,
  In T (map ts_type (group_type s g)) ->
  In T (map ts_type g) \/ (T = ss_type s /\ ~ In T (map ts_type g)).
Proof.
  induction g as [|t g IH]; simpl.
  - intros [<-|[]]. right. split; [reflexivity|intros []].
  - destruct (ts_type t =? ss_type s)%string eqn:K; simpl.
    + intros [H|H]; auto.
    + intros [H|H]; auto.
      destruct (IH H) as [H'|[-> H']]; auto.
      right. split; [reflexivity|].
      intros [E|E]; [|exact (H' E)].
      apply String.eqb_neq in K. exact (K E).
Qed.

Lemma group_type_NoDup s : forall g,
  NoDup (map ts_type g) -> NoDup (map ts_type (group_type s g)).
Proof.
  induction g as [|t g IH]; simpl; intro H.
  - constructor; [intros []|constructor].
  - destruct (ts_type t =? ss_type s)%string eqn:K; simpl; [exact H|].
    inversion H as [|? ? Hn Hd]; subst. constructor; [|apply IH, Hd].
    intro Hin. destruct (group_type_types _ _ _ Hin) as [H'|[E _]]; auto.
    apply String.eqb_neq in K. exact (K E).
Qed.

Lemma stage_by_type_NoDup : forall l, NoDup (map ts_type (stage_by_type l)).
Proof.
  induction l as [|s l IH] using rev_ind; [constructor|].
  rewrite stage_by_type_snoc. apply group_type_NoDup, IH.
Qed.

(** What the [$push] of the second stage collects. *)
Lemma group_type_sources s : forall g,
  Forall (fun t =>
            Forall (fun x => ss_type x = ts_type t) (ts_sources t)
            /\ ts_totalCount t = sum ss_count (ts_sources t)
            /\ ts_totalProcessed t = sum ss_processed (ts_sources t)
            /\ ts_totalUnprocessed t = sum ss_unprocessed (ts_sources t)) g ->
  Forall (fun t =>
            Forall (fun x => ss_type x = ts_type t) (ts_sources t)
            /\ ts_totalCount t = sum ss_count (ts_sources t)
            /\ ts_totalProcessed t = sum ss_processed (ts_sources t)
            /\ ts_totalUnprocessed t = sum ss_unprocessed (ts_sources t))
    (group_type s g).
Proof.
  induction g as [|t g IH]; simpl; intro H.
  - constructor; [|constructor]. simpl. repeat split; auto.
  - inversion H as [|? ? (Ht & Hc & Hp & Hu) Hg]; subst.
    destruct (ts_type t =? ss_type s)%string eqn:K.
    + constructor; [|exact Hg]. apply String.eqb_eq in K. simpl.
      rewrite !sum_app. simpl. repeat split; try lia.
      apply Forall_app. split; [exact Ht|]. constructor; auto.
    + constructor; [|apply IH, Hg]. auto.
Qed.

Lemma stage_by_type_sources : forall l,
  Forall (fun t =>
            Forall (fun x => ss_type x = ts_type t) (ts_sources t)
            /\ ts_totalCount t = sum ss_count (ts_sources t)
            /\ ts_totalProcessed t = sum ss_processed (ts_sources t)
            /\ ts_totalUnprocessed t = sum ss_unprocessed (ts_sources t))
    (stage_by_type l).
Proof.
  induction l as [|s l IH] using rev_ind; [constructor|].
  rewrite stage_by_type_snoc. apply group_type_sources, IH.
Qed.

Lemma group_source_positive e : forall g,
  Forall (fun s => 1 <= ss_count s) g ->
  Forall (fun s => 1 <= ss_count s) (group_source e g).
Proof.
  induction g as [|s g IH]; simpl; intro H.
  - constructor; [simpl; lia|constructor].
  - inversion H; subst.
    destruct ((ss_type s =? Event.type e) && (ss_source s =? Event.source e))%string;
      constructor; auto. simpl. lia.
Qed.

Lemma stage_by_source_positive : forall l,
  Forall (fun s => 1 <= ss_count s) (stage_by_source l).
Proof.
  induction l as [|e l IH] using rev_ind; [constructor|].
  rewrite stage_by_source_snoc. apply group_source_positive, IH.
Qed.

Lemma group_type_positive s : forall g,
  1 <= ss_count s ->
  Forall (fun t => 1 <= ts_totalCount t) g ->
  Forall (fun t => 1 <= ts_totalCount t) (group_type s g).
Proof.
  induction g as [|t g IH]; simpl; intros Hs H.
  - constructor; [exact Hs|constructor].
  - inversion H; subst.
    destruct (ts_type t =? ss_type s)%string; constructor; auto. simpl. lia.
Qed.

Lemma stage_by_type_positive : forall l,
  Forall (fun s => 1 <= ss_count s) l ->
  Forall (fun t => 1 <= ts_totalCount t) (stage_by_type l).
Proof.
  induction l as [|s l IH] using rev_ind; intro H; [constructor|].
  apply Forall_app in H as [Hl Hs]. inversion Hs; subst.
  rewrite stage_by_type_snoc. apply group_type_positive; auto.
Qed.

(** The [$sort] stage. *)

Lemma insert_stat_perm t l : Permutation (insert_stat t l) (t :: l).
Proof.
  induction l as [|x l IH]; simpl; [apply Permutation_refl|].
  destruct (Nat.leb (ts_totalCount x) (ts_totalCount t)).
  - apply Permutation_refl.
  - eapply perm_trans; [apply perm_skip, IH|apply perm_swap].
Qed.

Lemma sort_stats_perm l : Permutation (sort_stats l) l.
Proof.
  induction l as [|x l IH]; simpl; [constructor|].
  eapply perm_trans; [apply insert_stat_perm|apply perm_skip, IH].
Qed.

Lemma insert_stat_sorted t l :
  StronglySorted count_ge l -> StronglySorted count_ge (insert_stat t l).
Proof.
  induction 1 as [|x l Hs IH Hall]; simpl; [repeat constructor|].
  destruct (Nat.leb (ts_totalCount x) (ts_totalCount t)) eqn:C.
  - apply Nat.leb_le in C. constructor; [constructor; assumption|].
    constructor; [exact C|].
    eapply Forall_impl; [|exact Hall]. unfold count_ge. intros; lia.
  - apply Nat.leb_gt in C. constructor; [exact IH|].
    apply (Permutation_Forall (Permutation_sym (insert_stat_perm t l))).
    constructor; [unfold count_ge; lia|exact Hall].
Qed.

Lemma sort_stats_sorted l : StronglySorted count_ge (sort_stats l).
Proof.
  induction l as [|x l IH]; simpl; [constructor|].
  apply insert_stat_sorted, IH.
Qed.

Lemma filter_none {A} (f : A -> string) k : forall l,
  ~ In k (map f l) -> filter (fun x => f x =? k)%string l = [].
Proof.
  induction l as [|y l IH]; simpl; intro Hn; [reflexivity|].
  destruct (f y =? k)%string eqn:E.
  - apply String.eqb_eq in E. exfalso. apply Hn. left. exact E.
  - apply IH. intro H. apply Hn. right. exact H.
Qed.

Lemma filter_only {A} (f : A -> string) t : forall l,
  NoDup (map f l) -> In t l ->
  filter (fun x => f x =? f t)%string l = [t].
Proof.
  induction l as [|x l IH]; simpl; intros Hd Hin; [contradiction|].
  inversion Hd as [|? ? Hn Hl]; subst.
  destruct Hin as [->|Hin].
  - rewrite String.eqb_refl. f_equal. apply filter_none, Hn.
  - destruct (f x =? f t)%string eqn:E; [|apply IH; assumption].
    apply String.eqb_eq in E. exfalso. apply Hn. rewrite E.
    apply in_map, Hin.
Qed.

Lemma number_of_split {A} (p : A -> bool) : forall l,
  List.length l = number_of p l + number_of (fun x => negb (p x)) l.
Proof.
  unfold number_of. induction l as [|x l IH]; simpl; [reflexivity|].
  destruct (p x); simpl; lia.
Qed.

Lemma number_of_positive {A} (p : A -> bool) x l :
  In x l -> p x = true -> 1 <= number_of p l.
Proof.
  intros Hin Hp. unfold number_of.
  assert (H : In x (filter p l)) by (apply filter_In; auto).
  destruct (filter p l); [contradiction|simpl; lia].
Qed.

(** X14.  The statistics count the collection.  The summary's total is the
    sum of its processed and unprocessed counts.  [byType] has exactly one
    entry for each type that occurs among the stored Events, ordered by
    decreasing count; an entry's three totals are the numbers of stored
    Events of its type, of those that are processed and of those that are
    not, and they are also the sums over the per-source groups it lists,
    each of which is of the entry's type. *)
Theorem X14_statistics_count_the_collection (w : World) :
  totalEvents (getEventStats w)
  = processedEvents (getEventStats w) + unprocessedEvents (getEventStats w)
  /\ NoDup (map ts_type (byType (getEventStats w)))
  /\ (forall T,
        In T (map ts_type (byType (getEventStats w)))
        <-> In T (map Event.type (events w)))
  /\ StronglySorted count_ge (byType (getEventStats w))
  /\ (forall t,
        In t (byType (getEventStats w)) ->
        ts_totalCount t = number_of (of_type (ts_type t)) (events w)
        /\ ts_totalProcessed t
           = number_of (fun e => of_type (ts_type t) e && Event.processed e)
               (events w)
        /\ ts_totalUnprocessed t
           = number_of
               (fun e => of_type (ts_type t) e && negb (Event.processed e))
               (events w)
        /\ Forall (fun s => ss_type s = ts_type t) (ts_sources t)
        /\ ts_totalCount t = sum ss_count (ts_sources t)
        /\ ts_totalProcessed t = sum ss_processed (ts_sources t)
        /\ ts_totalUnprocessed t = sum ss_unprocessed (ts_sources t)).
Proof.
  cbn [getEventStats totalEvents processedEvents unprocessedEvents byType].
  set (groups := stage_by_type (stage_by_source (events w))).
  assert (Hnd : NoDup (map ts_type groups)) by apply stage_by_type_NoDup.
  assert (Hcount : forall t, In t groups ->
            ts_totalCount t = number_of (of_type (ts_type t)) (events w)
            /\ ts_totalProcessed t
               = number_of (fun e => of_type (ts_type t) e && Event.processed e)
                   (events w)
            /\ ts_totalUnprocessed t
               = number_of
                   (fun e => of_type (ts_type t) e && negb (Event.processed e))
                   (events w)).
  { intros t Ht.
    pose proof (stage_by_type_sums (ts_type t) (stage_by_source (events w))) as S2.
    pose proof (stage_by_source_sums (ts_type t) (events w)) as S1.
    fold groups in S2. rewrite (filter_only ts_type t groups Hnd Ht) in S2.
    simpl in S2. lia. }
  split; [apply (number_of_split Event.processed)|].
  split; [apply (Permutation_NoDup (Permutation_map _
                    (Permutation_sym (sort_stats_perm groups)))), Hnd|].
  split; [|split; [apply sort_stats_sorted|]].
  - intro T. split.
    + intro H.
      apply (Permutation_in _ (Permutation_map _ (sort_stats_perm groups))) in H.
      apply in_map_iff in H as (t & <- & Ht).
      destruct (Hcount t Ht) as (Hc & _).
      destruct (filter (of_type (ts_type t)) (events w)) as [|e rest] eqn:F.
      * pose proof (stage_by_type_positive (stage_by_source (events w))
                      (stage_by_source_positive (events w))) as Hpos.
        fold groups in Hpos. rewrite Forall_forall in Hpos.
        specialize (Hpos t Ht). unfold number_of in Hc. rewrite F in Hc.
        simpl in Hc. lia.
      * assert (He : In e (filter (of_type (ts_type t)) (events w)))
          by (rewrite F; left; reflexivity).
        apply filter_In in He as [He Hty]. apply String.eqb_eq in Hty.
        rewrite <- Hty. apply in_map, He.
    + intro H. apply in_map_iff in H as (e & <- & He).
      apply (Permutation_in _ (Permutation_map _
               (Permutation_sym (sort_stats_perm groups)))).
      pose proof (stage_by_type_sums (Event.type e) (stage_by_source (events w)))
        as S2.
      pose proof (stage_by_source_sums (Event.type e) (events w)) as S1.
      fold groups in S2.
      assert (P : 1 <= number_of (of_type (Event.type e)) (events w))
        by (apply (number_of_positive _ e); [exact He|apply String.eqb_refl]).
      destruct (filter (fun t => ts_type t =? Event.type e)%string groups)
        as [|t rest] eqn:F; [simpl in S2; lia|].
      assert (Ht : In t (filter (fun t => ts_type t =? Event.type e)%string groups))
        by (rewrite F; left; reflexivity).
      apply filter_In in Ht as [Ht Hty]. apply String.eqb_eq in Hty.
      rewrite <- Hty. apply in_map, Ht.
  - intros t Ht.
    apply (Permutation_in _ (sort_stats_perm groups)) in Ht.
    destruct (Hcount t Ht) as (Hc & Hp & Hu).
    pose proof (stage_by_type_sources (stage_by_source (events w))) as Hs.
    fold groups in Hs. rewrite Forall_forall in Hs.
    destruct (Hs t Ht) as (H1 & H2 & H3 & H4). repeat split; assumption.
Qed.

End Statistics.

(* ================================================================== *)
(** ** Properties: the schemas as invariants of the store *)
(* ================================================================== *)

Module Schema.

Import Js Mongoose Async KafkaConsumer Observations Invariants Facts.
Local Open Scope list_scope.

Lemma User_document_valid rt id fields m doc :
  User_document rt id fields m = Some doc -> user_valid doc = true.
Proof.
  unfold User_document, user_valid. cbv zeta.
  destruct (_ || _)%bool; [discriminate|].
  destruct (castString (lookup "email" fields)) as [|e|]; try discriminate.
  destruct (castString (lookup "name" fields)) as [|n|]; try discriminate.
  match goal with
  | |- (if ?c then _ else _) = _ -> _ => destruct c eqn:V; [|discriminate]
  end.
  intro H; injection H as <-. cbn [User.email User.name User.age].
  apply andb_prop in V as [V _]. exact V.
Qed.

Lemma valid_ret {A} (a : A) : keeps_users_valid (ret a).
Proof. intros w H; exact H. Qed.

Lemma valid_throw {A} (e : Error) : keeps_users_valid (@throw A e).
Proof. intros w H; exact H. Qed.

Lemma valid_eval {A} (o : Outcome A) : keeps_users_valid (eval o).
Proof. intros w H; exact H. Qed.

Lemma valid_bind {A B} (m : M A) (k : A -> M B) :
  keeps_users_valid m -> (forall a, keeps_users_valid (k a)) ->
  keeps_users_valid (bind m k).
Proof.
  intros Hm Hk w H. unfold bind. specialize (Hm w H).
  destruct (m w) as [[a|e] w1]; simpl in *; [apply Hk, Hm|exact Hm].
Qed.

(** As [valid_bind], keeping what was read. *)
Lemma valid_bind_eval {A B} (o : Outcome A) (k : A -> M B) :
  (forall a, o = Return a -> keeps_users_valid (k a)) ->
  keeps_users_valid (bind (eval o) k).
Proof.
  intros Hk w H. unfold bind, eval.
  destruct o as [a|e]; [apply (Hk a eq_refl), H|exact H].
Qed.

Lemma valid_try_catch {A} (m : M A) (h : Error -> M A) :
  keeps_users_valid m -> (forall e, keeps_users_valid (h e)) ->
  keeps_users_valid (try_catch m h).
Proof.
  intros Hm Hh w H. unfold try_catch. specialize (Hm w H).
  destruct (m w) as [[a|e] w1]; simpl in *; [exact Hm|].
  apply Hh, Hm.
Qed.

Lemma valid_User_save rt fields m : keeps_users_valid (User_save rt fields m).
Proof.
  intros w H. unfold User_save.
  destruct (User_document _ _ _ _) as [doc|] eqn:D; [|exact H].
  cbn [users with_nextId].
  match goal with |- context [if ?c then _ else _] => destruct c end;
    [exact H|].
  unfold users_valid. cbn [snd users with_users].
  apply Forall_app. split; [exact H|].
  constructor; [|constructor]. exact (User_document_valid _ _ _ _ _ D).
Qed.

Lemma replace_user_valid d' : forall l,
  user_valid d' = true ->
  Forall (fun u => user_valid u = true) l ->
  Forall (fun u => user_valid u = true) (replace_user d' l).
Proof.
  induction l as [|u l IH]; intros Hd H; simpl; [constructor|].
  inversion H; subst.
  destruct (Nat.eqb (User._id u) (User._id d')); constructor; auto.
Qed.

Lemma apply_update_valid u d :
  holds valid_email (set_email u) = true ->
  holds valid_name (set_name u) = true ->
  holds valid_age (change (set_age u) None) = true ->
  user_valid d = true ->
  user_valid (apply_update u d) = true.
Proof.
  unfold user_valid, apply_update.
  destruct u as [[e|] [n|] [|a|] b]; simpl; intros He Hn Ha Hd;
    apply andb_prop in Hd as [Hd Hda]; apply andb_prop in Hd as [Hde Hdn];
    rewrite ?He, ?Hn, ?Ha, ?Hde, ?Hdn, ?Hda; reflexivity.
Qed.

Lemma update_text_validated v setters valid o :
  update_text v setters valid = Return o -> holds valid o = true.
Proof.
  unfold update_text. destruct v as [j|]; [|intro H; injection H as <-; auto].
  destruct (castString (Some j)) as [|s|];
    destruct j; try discriminate;
    (destruct (valid (setters s)) eqn:V; [|discriminate]);
    intro H; injection H as <-; exact V.
Qed.

Lemma update_age_validated v c :
  update_age v = Return c -> holds valid_age (change c None) = true.
Proof.
  unfold update_age. destruct v as [j|]; [|intro H; injection H as <-; auto].
  destruct (castNumber (Some j)) as [|a|]; try discriminate.
  - intro H; injection H as <-. reflexivity.
  - destruct (valid_age a) eqn:V; [|discriminate].
    intro H; injection H as <-. exact V.
Qed.

Lemma User_update_of_validated fields u :
  User_update_of fields = Return u ->
  holds valid_email (set_email u) = true
  /\ holds valid_name (set_name u) = true
  /\ holds valid_age (change (set_age u) None) = true.
Proof.
  unfold User_update_of.
  destruct (update_text (lookup "email" fields) _ _) as [e|] eqn:E;
    [|discriminate].
  destruct (update_text (lookup "name" fields) _ _) as [n|] eqn:N;
    [|discriminate].
  destruct (update_age _) as [a|] eqn:A; [|discriminate].
  destruct (update_isActive _) as [b|]; [|discriminate].
  intro H; injection H as <-. cbn [set_email set_name set_age].
  repeat split;
    eauto using update_text_validated, update_age_validated.
Qed.

Lemma valid_update rt id fields :
  is_foreign fields = false ->
  keeps_users_valid (User_findByIdAndUpdate rt id fields).
Proof.
  intros P w H. unfold User_findByIdAndUpdate. rewrite P.
  destruct (castObjectId id) as [|oid|]; [| |exact H]; cbv zeta;
    destruct (User_update_of fields) as [u|error] eqn:U; try exact H.
  destruct (find_user oid (users w)) as [d|] eqn:F; [|exact H].
  cbn [option_map].
  match goal with |- context [if ?c then _ else _] => destruct c end;
    [exact H|].
  unfold users_valid. cbn [snd users with_users].
  destruct (User_update_of_validated _ _ U) as (He & Hn & Ha).
  apply replace_user_valid; [|exact H].
  change (user_valid (with_id (User._id d) (apply_update u d)))
    with (user_valid (apply_update u d)).
  apply apply_update_valid; auto.
  unfold users_valid in H. rewrite Forall_forall in H.
  apply H, (Consumption.find_user_Some _ _ _ F).
Qed.

Lemma valid_deactivate id : keeps_users_valid (User_deactivate id).
Proof.
  intros w H. unfold User_deactivate.
  destruct (castObjectId id) as [|oid|]; try exact H.
  destruct (find_user oid (users w)) as [d|] eqn:F; [|exact H].
  unfold users_valid. cbn [snd users with_users].
  apply replace_user_valid; [|exact H].
  unfold users_valid in H. rewrite Forall_forall in H.
  apply (H d), (Consumption.find_user_Some _ _ _ F).
Qed.

Create HintDb valid discriminated.

#[export] Hint Resolve valid_ret valid_throw valid_eval valid_User_save
  valid_deactivate : valid.

Ltac valid :=
  repeat lazymatch goal with
    | |- keeps_users_valid (bind _ _) => apply valid_bind; [|intro]
    | |- keeps_users_valid (try_catch _ _) => apply valid_try_catch; [|intro]
    | |- keeps_users_valid (if ?c then _ else _) => destruct c
    | |- keeps_users_valid (match ?c with _ => _ end) => destruct c
    | |- keeps_users_valid _ => solve [auto with valid]
    end.

Lemma valid_processEvent rt eventData topic :
  plain_update eventData = true ->
  keeps_users_valid (processEvent rt eventData topic).
Proof.
  intro P. unfold processEvent, plain_update in *.
  apply valid_bind_eval; intros type Gt. rewrite Gt in P.
  apply valid_bind_eval; intros data Gd. rewrite Gd in P.
  apply valid_bind_eval; intros userId _.
  apply valid_try_catch; [|intro; apply valid_throw].
  destruct (is_type type "user.created");
    [unfold handleUserCreated; valid|].
  destruct (is_type type "user.updated").
  - cbn [negb orb] in P. apply negb_true_iff in P.
    unfold handleUserUpdated.
    apply valid_try_catch; [|intro; apply valid_throw].
    apply valid_bind; [|intro; apply valid_ret].
    apply valid_update, P.
  - unfold handleUserDeleted, handleOrderCreated, handleNotificationSent,
      handlePurchaseCreated.
    valid.
Qed.

Lemma decoded_event_valid rt p eventData w doc :
  decoded_event rt p eventData w = Some doc -> event_valid doc = true.
Proof.
  unfold decoded_event.
  destruct (get (Some eventData) "type") as [type|]; [|discriminate].
  destruct (get (Some eventData) "userId") as [userId|]; [|discriminate].
  destruct (get (Some eventData) "data") as [data|]; [|discriminate].
  intro D. apply Listing.Event_document_fields in D as (_ & Hs & _ & _ & Ht).
  unfold event_valid. rewrite Ht. cbn in Hs. rewrite Hs. reflexivity.
Qed.

Lemma events_valid_handleMessage rt parse p w :
  events_valid w -> events_valid (snd (handleMessage rt parse p w)).
Proof.
  intro He.
  destruct (Consumption.handleMessage_cases rt parse p w)
    as [(Ev & _)|(eventData & doc & D & Ev & _)];
    unfold events_valid; rewrite Ev; [exact He|].
  apply Forall_app. split; [exact He|].
  constructor; [|constructor]. exact (decoded_event_valid _ _ _ _ _ D).
Qed.

Lemma users_valid_handleMessage rt parse p w :
  plain_updates parse [p] = true ->
  users_valid w -> users_valid (snd (handleMessage rt parse p w)).
Proof.
  intros P Hu.
  destruct (Consumption.handleMessage_cases rt parse p w)
    as [(_ & Us & _)|(eventData & doc & _ & _ & Us & _ & raw & Hv & Hp)];
    unfold users_valid; rewrite Us; [exact Hu|].
  apply (valid_processEvent rt eventData (topic p)); [|exact Hu].
  cbn [plain_updates forallb] in P. rewrite Hv, Hp, andb_true_r in P. exact P.
Qed.

(** X15.  The consumer keeps the store within the schemas.  If every stored
    Event has a type and a source of [EventSchema]'s vocabularies, the same
    holds after any batch of messages: an Event is stored only after
    validation.  If moreover every stored User has an email, a name and an
    age that [UserSchema] accepts, and the update document of every
    [user.updated] message of the batch is a plain one (its keys are among
    [email], [name], [age], [isActive] and [updatedAt]: no update operator
    such as [$inc], which the update validators skip), the same holds of the
    Users afterwards: user creations are validated before they are inserted,
    plain updates run the validators, and deactivations touch [isActive]
    only. *)
Theorem X15_consumer_keeps_the_store_within_the_schemas rt parse batch :
  forall w,
  events_valid w ->
  events_valid (snd (consume rt parse batch w))
  /\ (users_valid w -> plain_updates parse batch = true ->
      users_valid (snd (consume rt parse batch w))).
Proof.
  induction batch as [|p rest IH]; intros w He; [split; auto|].
  rewrite Consumption.consume_step.
  destruct (IH _ (events_valid_handleMessage rt parse p w He)) as [IHe IHu].
  split; [exact IHe|].
  intros Hu P. cbn [plain_updates forallb] in P.
  apply andb_prop in P as [Pp Pr].
  apply IHu; [|exact Pr].
  apply users_valid_handleMessage; [|exact Hu].
  cbn [plain_updates forallb]. rewrite Pp. reflexivity.
Qed.

Lemma X15_schemas_witness :
  events_valid
    (snd (consume Samples.platform Samples.JSON_parse
            [ Samples.deliver_untimed "user-events" 5
                (Some Samples.body_user_created);
              Samples.deliver_untimed "user-events" 6
                (Some Samples.body_user_updated) ]
            Samples.world_with_alice))
  /\ (users_valid Samples.world_with_alice ->
      plain_updates Samples.JSON_parse
        [ Samples.deliver_untimed "user-events" 5
            (Some Samples.body_user_created);
          Samples.deliver_untimed "user-events" 6
            (Some Samples.body_user_updated) ] = true ->
      users_valid
        (snd (consume Samples.platform Samples.JSON_parse
                [ Samples.deliver_untimed "user-events" 5
                    (Some Samples.body_user_created);
                  Samples.deliver_untimed "user-events" 6
                    (Some Samples.body_user_updated) ]
                Samples.world_with_alice))).
Proof.
  apply (X15_consumer_keeps_the_store_within_the_schemas Samples.platform
           Samples.JSON_parse
           [ Samples.deliver_untimed "user-events" 5
               (Some Samples.body_user_created);
             Samples.deliver_untimed "user-events" 6
               (Some Samples.body_user_updated) ]
           Samples.world_with_alice).
  repeat constructor.
Defined.

End Schema.

(* ================================================================== *)
(** ** Properties: health endpoints *)
(* ================================================================== *)

Module Health.

Import Js HealthController.

(** X16.  The detailed health check and the readiness check agree: for every
    answer of the two probes (connected or not, running or not, or an
    exception), both endpoints answer with the same status code, which is
    200 exactly when the database probe reports a connection and the Kafka
    probe a running consumer, and 503 otherwise; the overall status of the
    detailed check is then [healthy] and otherwise [unhealthy], never
    [degraded]. *)
Theorem X16_detailed_health_agrees_with_readiness (database kafka : Outcome bool) :
  (fst (readinessCheck database kafka) = true
   <-> database = Return true /\ kafka = Return true)
  /\ (fst (detailedHealthCheck database kafka) = "healthy"
      <-> fst (readinessCheck database kafka) = true)
  /\ snd (detailedHealthCheck database kafka) = snd (readinessCheck database kafka)
  /\ snd (readinessCheck database kafka)
     = (if fst (readinessCheck database kafka) then 200 else 503)
  /\ (fst (detailedHealthCheck database kafka) = "healthy"
      \/ fst (detailedHealthCheck database kafka) = "unhealthy").
Proof.
  destruct database as [[]|e1], kafka as [[]|e2]; vm_compute;
    repeat split; auto; try discriminate;
    intros; try discriminate;
    match goal with
    | H : _ /\ _ |- _ => destruct H; discriminate
    | _ => idtac
    end.
Qed.

End Health.

(* ================================================================== *)
(** ** Properties: the consumer's life cycle *)
(* ================================================================== *)

Module ConsumerLifecycle.

Import Js Lifecycle.
Local Open Scope list_scope.

Lemma includes_In topic l : includes topic l = true <-> In topic l.
Proof.
  unfold includes. rewrite existsb_exists. split.
  - intros (x & Hx & E). apply String.eqb_eq in E. subst. exact Hx.
  - intro H. exists topic. split; [exact H|apply String.eqb_refl].
Qed.

Lemma includes_not_In topic l : includes topic l = false <-> ~ In topic l.
Proof.
  split.
  - intros H Hin. apply includes_In in Hin. congruence.
  - intro H. destruct (includes topic l) eqn:I; [|reflexivity].
    exfalso. apply H, includes_In, I.
Qed.

Lemma remove_first_In topic x : forall l,
  In x (remove_first topic l) -> In x l.
Proof.
  induction l as [|t l IH]; simpl; [tauto|].
  destruct (t =? topic)%string; simpl; intuition.
Qed.

Lemma remove_first_NoDup topic : forall l,
  NoDup l -> NoDup (remove_first topic l) /\ ~ In topic (remove_first topic l).
Proof.
  induction l as [|t l IH]; simpl; intro H; [split; [constructor|tauto]|].
  inversion H as [|? ? Hn Hl]; subst.
  destruct (t =? topic)%string eqn:E.
  - apply String.eqb_eq in E. subst. auto.
  - destruct (IH Hl) as [Hd Hnot]. apply String.eqb_neq in E. split.
    + constructor; [|exact Hd]. intro Hin. apply Hn.
      exact (remove_first_In _ _ _ Hin).
    + intros [Heq|Hin]; [exact (E Heq)|exact (Hnot Hin)].
Qed.

Lemma remove_first_snoc topic : forall l,
  ~ In topic l -> remove_first topic (l ++ [topic]) = l.
Proof.
  induction l as [|t l IH]; simpl; intro H.
  - rewrite String.eqb_refl. reflexivity.
  - destruct (t =? topic)%string eqn:E.
    + apply String.eqb_eq in E. exfalso. apply H. left. exact E.
    + f_equal. apply IH. intro. apply H. right. assumption.
Qed.

Section Client.

Variable client : list ClientCall -> ClientCall -> Outcome unit.
Variable config : Outcome unit.

Lemma start_effect k :
  topics (snd (start client config k)) = topics k
  /\ exists made, calls (snd (start client config k)) = calls k ++ made.
Proof.
  unfold start, call, set_running.
  destruct (isRunning k); [split; [reflexivity|exists []; symmetry; apply app_nil_r]|].
  destruct config; [|split; [reflexivity|exists []; symmetry; apply app_nil_r]].
  destruct (client (calls k) Connect); cbn [topics calls snd];
    [|split; [reflexivity|eauto]].
  destruct (client (calls k ++ [Connect]) (Subscribe (topics k)));
    cbn [topics calls snd]; [|split; [reflexivity|rewrite <- app_assoc; eauto]].
  destruct (client ((calls k ++ [Connect]) ++ [Subscribe (topics k)]) Run);
    cbn [topics calls snd]; (split; [reflexivity|rewrite <- !app_assoc; eauto]).
Qed.

Lemma stop_effect k :
  topics (snd (stop client k)) = topics k
  /\ exists made, calls (snd (stop client k)) = calls k ++ made.
Proof.
  unfold stop, call, set_running.
  destruct (isRunning k); cbn [negb];
    [|split; [reflexivity|exists []; symmetry; apply app_nil_r]].
  destruct (client (calls k) Disconnect); cbn [topics calls snd];
    (split; [reflexivity|eauto]).
Qed.

Lemma addTopic_effect topic k :
  NoDup (topics k) ->
  NoDup (topics (snd (addTopic client topic k)))
  /\ exists made, calls (snd (addTopic client topic k)) = calls k ++ made.
Proof.
  intro H. unfold addTopic, call.
  destruct (includes topic (topics k)) eqn:I; cbn [negb];
    [split; [exact H|exists []; symmetry; apply app_nil_r]|].
  cbn [isRunning topics calls].
  assert (Hn : NoDup (topics k ++ [topic])).
  { apply NoDup_app; [exact H|repeat constructor; intros []|].
    intros x Hx [<-|[]]. apply includes_not_In in I. exact (I Hx). }
  destruct (isRunning k); cbn [snd topics calls];
    (split; [exact Hn|]); [eauto|exists []; symmetry; apply app_nil_r].
Qed.

Lemma removeTopic_effect topic k :
  NoDup (topics k) ->
  NoDup (topics (snd (removeTopic topic k)))
  /\ calls (snd (removeTopic topic k)) = calls k.
Proof.
  intro H. unfold removeTopic.
  destruct (includes topic (topics k)); cbn [snd topics calls];
    [|split; [exact H|reflexivity]].
  split; [apply remove_first_NoDup, H|reflexivity].
Qed.

Lemma run_op_effect o k :
  NoDup (topics k) ->
  NoDup (topics (snd (run_op client config o k)))
  /\ exists made, calls (snd (run_op client config o k)) = calls k ++ made.
Proof.
  intro H. destruct o as [| |t|t]; cbn [run_op].
  - destruct (start_effect k) as [-> Hc]. auto.
  - destruct (stop_effect k) as [-> Hc]. auto.
  - apply addTopic_effect, H.
  - destruct (removeTopic_effect t k H) as [Hd ->].
    split; [exact Hd|exists []; symmetry; apply app_nil_r].
Qed.

(** X17.  Whatever is done with the consumer object, in whatever order and
    whether the client's calls succeed or throw, its topic list never holds
    a topic twice (the constructor's list does not, and the property is kept
    by [start], [stop], [addTopic] and [removeTopic]), and the calls already
    made on the client are never taken back. *)
Theorem X17_topics_stay_distinct (ops : list Op) : forall k,
  NoDup (topics k) ->
  NoDup (topics (run_ops client config ops k))
  /\ exists made, calls (run_ops client config ops k) = calls k ++ made.
Proof.
  induction ops as [|o ops IH]; intros k H; cbn [run_ops].
  - split; [exact H|exists []; symmetry; apply app_nil_r].
  - destruct (run_op_effect o k H) as [Hd [made1 Hc1]].
    destruct (IH _ Hd) as [Hd' [made2 Hc2]].
    split; [exact Hd'|]. exists (made1 ++ made2).
    rewrite Hc2, Hc1, app_assoc. reflexivity.
Qed.

(** X18.  Topics are added with a subscription and removed without one.
    After [addTopic] the topic is listed, even when the client refuses the
    subscription; [removeTopic] makes no call on the client at all, so a
    running consumer stays subscribed to a topic it no longer lists; in a
    list without repetitions the removed topic is gone; and adding a topic
    that was not listed and removing it again restores the list, leaving on
    a running consumer the one [subscribe] call. *)
Theorem X18_removing_a_topic_never_unsubscribes (topic : string) (k : Consumer) :
  includes topic (topics (snd (addTopic client topic k))) = true
  /\ calls (snd (removeTopic topic k)) = calls k
  /\ isRunning (snd (removeTopic topic k)) = isRunning k
  /\ (NoDup (topics k) ->
      includes topic (topics (snd (removeTopic topic k))) = false)
  /\ (includes topic (topics k) = false ->
      topics (snd (removeTopic topic (snd (addTopic client topic k)))) = topics k
      /\ calls (snd (removeTopic topic (snd (addTopic client topic k))))
         = (if isRunning k then calls k ++ [Subscribe [topic]] else calls k)).
Proof.
  assert (Hadd : includes topic (topics (snd (addTopic client topic k))) = true).
  { unfold addTopic, call. destruct (includes topic (topics k)) eqn:I;
      cbn [negb]; [exact I|].
    cbn [isRunning topics calls].
    destruct (isRunning k); cbn [snd topics];
      apply includes_In, in_or_app; right; left; reflexivity. }
  split; [exact Hadd|].
  split; [unfold removeTopic; destruct (includes topic (topics k)); reflexivity|].
  split; [unfold removeTopic; destruct (includes topic (topics k)); reflexivity|].
  split.
  - intro H. unfold removeTopic.
    destruct (includes topic (topics k)) eqn:I; cbn [snd topics]; [|exact I].
    apply includes_not_In, remove_first_NoDup, H.
  - intro I. unfold removeTopic. rewrite Hadd. cbn [snd topics calls].
    unfold addTopic, call. rewrite I. cbn [negb isRunning topics calls].
    apply includes_not_In in I.
    destruct (isRunning k); cbn [snd topics calls];
      (split; [apply remove_first_snoc, I|reflexivity]).
Qed.

(** X19.  [start] and [stop] keep the running flag truthful.  On a consumer
    that is not running, [start] calls [connect], [subscribe] with the
    topics listed at that moment and [run], in this order, and stops at the
    first call that throws; the flag is set exactly when [start] returns,
    which needs all three calls; a failed [start] never disconnects.  On a
    running consumer, [stop] makes the one [disconnect] call and clears the
    flag exactly when it returns.  Neither changes the topic list, and
    [start] on a running consumer, like [stop] on a stopped one, does
    nothing. *)
Theorem X19_start_and_stop_keep_the_flag_truthful (k : Consumer) :
  topics (snd (start client config k)) = topics k
  /\ topics (snd (stop client k)) = topics k
  /\ (isRunning k = true -> start client config k = (Return tt, k))
  /\ (isRunning k = false -> stop client k = (Return tt, k))
  /\ (isRunning k = false ->
      (fst (start client config k) = Return tt
       <-> isRunning (snd (start client config k)) = true)
      /\ (exists made rest,
            calls (snd (start client config k)) = calls k ++ made
            /\ made ++ rest = [Connect; Subscribe (topics k); Run]
            /\ (fst (start client config k) = Return tt -> rest = [])))
  /\ (isRunning k = true ->
      calls (snd (stop client k)) = calls k ++ [Disconnect]
      /\ (fst (stop client k) = Return tt
          <-> isRunning (snd (stop client k)) = false)).
Proof.
  split; [apply start_effect|]. split; [apply stop_effect|].
  split; [intro R; unfold start; rewrite R; reflexivity|].
  split; [intro R; unfold stop; rewrite R; reflexivity|].
  split.
  - intro R. unfold start, call, set_running. rewrite R.
    destruct config as [[]|e0].
    2:{ cbn [fst snd isRunning calls]. split.
        - split; intro H; [discriminate|congruence].
        - exists [], [Connect; Subscribe (topics k); Run].
          rewrite app_nil_r. repeat split. discriminate. }
    destruct (client (calls k) Connect) as [[]|e1];
      cbn [fst snd isRunning calls topics].
    2:{ split.
        - split; intro H; [discriminate|congruence].
        - exists [Connect], [Subscribe (topics k); Run].
          repeat split. discriminate. }
    destruct (client (calls k ++ [Connect]) (Subscribe (topics k))) as [[]|e2];
      cbn [fst snd isRunning calls topics].
    2:{ split.
        - split; intro H; [discriminate|congruence].
        - exists [Connect; Subscribe (topics k)], [Run].
          rewrite <- app_assoc. repeat split. discriminate. }
    destruct (client ((calls k ++ [Connect]) ++ [Subscribe (topics k)]) Run)
      as [[]|e3]; cbn [fst snd isRunning calls topics].
    + split; [split; reflexivity|].
      exists [Connect; Subscribe (topics k); Run], [].
      rewrite <- !app_assoc. repeat split.
    + split.
      * split; intro H; [discriminate|congruence].
      * exists [Connect; Subscribe (topics k); Run], [].
        rewrite <- !app_assoc. repeat split.
  - intro R. unfold stop, call, set_running. rewrite R. cbn [negb].
    destruct (client (calls k) Disconnect) as [[]|e];
      cbn [fst snd isRunning calls]; (split; [reflexivity|]).
    + split; reflexivity.
    + split; intro H; [discriminate|congruence].
Qed.

End Client.

Lemma X17_topics_witness :
  NoDup (topics
           (run_ops Requests.obliging_client (Return tt)
              [ OpAddTopic "audit-events"; OpStart; OpAddTopic "audit-events";
                OpRemoveTopic "order-events"; OpStop ]
              new_consumer))
  /\ exists made,
       calls (run_ops Requests.obliging_client (Return tt)
                [ OpAddTopic "audit-events"; OpStart; OpAddTopic "audit-events";
                  OpRemoveTopic "order-events"; OpStop ]
                new_consumer)
       = calls new_consumer ++ made.
Proof.
  apply (X17_topics_stay_distinct Requests.obliging_client (Return tt)
           [ OpAddTopic "audit-events"; OpStart; OpAddTopic "audit-events";
             OpRemoveTopic "order-events"; OpStop ]
           new_consumer).
  repeat (constructor; [simpl; intuition discriminate|]). constructor.
Defined.

End ConsumerLifecycle.

(* ================================================================== *)
(** ** Properties: the producer and its service *)
(* ================================================================== *)

Module Publishing.

Import Js KafkaProducer ProducerService Invariants.
Local Open Scope list_scope.

Section Service.

Variable JSON_stringify : json -> string.
Variables now_text now_iso : string.

(** [sendMessage] with a textual key is [sendMessageAny] at that key. *)
Lemma sendMessage_any topic message key p :
  sendMessage JSON_stringify now_text topic message key p
  = sendMessageAny JSON_stringify now_text topic message (option_map JStr key) p.
Proof. reflexivity. Qed.

Lemma or_default_truthy a : truthy (or_else a (Some (JStr "default"))) = true.
Proof. unfold or_else. destruct (truthy a) eqn:T; [exact T|reflexivity]. Qed.

Lemma or_else_truthy a b : truthy a = true -> or_else a b = a.
Proof. unfold or_else. intros ->. reflexivity. Qed.

Lemma sendMessageAny_returns topic message key p p' :
  sendMessageAny JSON_stringify now_text topic message key p = (Return tt, p') ->
  isConnected p = true
  /\ exists type userId,
       get (Some message) "type" = Return type
       /\ get (Some message) "userId" = Return userId
       /\ p' = mkProducer true
                 (sent p
                  ++ [ mkRecord topic
                         [ mkMessage
                             (or_else (or_else key userId) (Some (JStr "default")))
                             (JSON_stringify message) now_text
                             [ ("content-type", Some (JStr "application/json"));
                               ("source", Some (JStr "api"));
                               ("message-type",
                                or_else type (Some (JStr "unknown"))) ] ] ]).
Proof.
  unfold sendMessageAny. destruct (isConnected p) eqn:C; cbn [negb];
    [|discriminate].
  destruct (get (Some message) "type") as [type|]; [|discriminate].
  destruct (get (Some message) "userId") as [userId|]; [|discriminate].
  intro H; injection H as <-. split; [reflexivity|].
  exists type, userId. auto.
Qed.

Lemma sendMessageAny_throws topic message key p p' error :
  sendMessageAny JSON_stringify now_text topic message key p = (Throw error, p') ->
  p' = p.
Proof.
  unfold sendMessageAny. destruct (negb (isConnected p)); [congruence|].
  destruct (get (Some message) "type") as [type|];
    destruct (get (Some message) "userId") as [userId|]; congruence.
Qed.

(** X20.  What [sendMessage] hands to the broker.  When it returns, the
    producer was connected and exactly one record with one message went to
    the given topic; the message's value is the JSON text of the message;
    its key is never missing or empty (an explicit non-empty key is used as
    it is, otherwise the message's [userId] or ['default']); the
    [content-type] header is [application/json], the [source] header is
    always [api], whatever the message says its source is, and the
    [message-type] header is never empty. *)
Theorem X20_published_messages_carry_a_key (topic : string) (message : json)
  (key : Js.value) (p p' : Producer) :
  sendMessageAny JSON_stringify now_text topic message key p = (Return tt, p') ->
  isConnected p = true
  /\ isConnected p' = true
  /\ exists m,
       sent p' = sent p ++ [mkRecord topic [m]]
       /\ value m = JSON_stringify message
       /\ truthy (KafkaProducer.key m) = true
       /\ (truthy key = true -> KafkaProducer.key m = key)
       /\ header "content-type" (headers m) = Some (JStr "application/json")
       /\ header "source" (headers m) = Some (JStr "api")
       /\ truthy (header "message-type" (headers m)) = true.
Proof.
  intro H. apply sendMessageAny_returns in H as (C & type & userId & _ & _ & ->).
  split; [exact C|]. split; [reflexivity|].
  eexists. split; [reflexivity|]. cbn [value KafkaProducer.key headers header].
  split; [reflexivity|]. split; [apply or_default_truthy|].
  split.
  - intro T. rewrite (or_else_truthy key userId T). apply or_else_truthy, T.
  - cbn. repeat split. unfold or_else.
    destruct (truthy type) eqn:T; [exact T|reflexivity].
Qed.

(** X21.  [POST /produce] answers 200, 400 or 500, and [success] says
    whether it is 200.  It answers 200 only when the body named a non-empty
    topic and a message with a truthy [type], and it then handed exactly one
    record to the broker, on that topic, carrying the JSON text of the
    message, keyed by the message's [userId] if that is truthy and by
    ['default'] otherwise.  With 400 nothing is handed to the broker, and on
    a producer that is not connected the answer is never 200. *)
Theorem X21_produce_publishes_only_typed_messages (body : ProduceBody)
  (p p' : Producer) (r : HttpResponse) :
  post_produce JSON_stringify now_text body p = (r, p') ->
  (status r = 200 \/ status r = 400 \/ status r = 500)
  /\ success r = (status r =? 200)
  /\ (status r = 400 -> p' = p)
  /\ (isConnected p = false -> status r <> 200 /\ p' = p)
  /\ (status r = 200 ->
      exists topic message type userId m,
        body_topic body = Some topic /\ topic <> ""%string
        /\ body_message body = Some message
        /\ get (Some message) "type" = Return type /\ truthy type = true
        /\ get (Some message) "userId" = Return userId
        /\ sent p' = sent p ++ [mkRecord topic [m]]
        /\ value m = JSON_stringify message
        /\ KafkaProducer.key m = or_else userId (Some (JStr "default"))
        /\ header "message-type" (headers m) = type).
Proof.
  unfold post_produce.
  destruct (truthy (option_map JStr (body_topic body))) eqn:Tt;
    destruct (truthy (body_message body)) eqn:Tm; cbn [negb orb];
    try (intro H; injection H as <- <-; cbn; repeat split; auto;
         intros; discriminate).
  destruct (body_topic body) as [topic|] eqn:T; [|discriminate].
  destruct (body_message body) as [message|] eqn:M; [|discriminate].
  destruct (get (Some message) "type") as [type|e] eqn:G;
    [|intro H; injection H as <- <-; cbn; repeat split; auto;
      intros; discriminate].
  destruct (truthy type) eqn:Ty; cbn [negb];
    [|intro H; injection H as <- <-; cbn; repeat split; auto;
      intros; discriminate].
  destruct (get (Some message) "userId") as [userId|e] eqn:U;
    [|intro H; injection H as <- <-; cbn; repeat split; auto;
      intros; discriminate].
  destruct (sendMessageAny JSON_stringify now_text topic message userId p)
    as [[[]|e] p''] eqn:S; intro H; injection H as <- <-.
  - destruct (sendMessageAny_returns _ _ _ _ _ S)
      as (C & type' & userId' & G' & U' & ->).
    rewrite G in G'. rewrite U in U'. injection G' as <-. injection U' as <-.
    cbn [status success]. split; [auto|]. split; [reflexivity|].
    split; [discriminate|]. split; [congruence|].
    intros _. exists topic, message, type, userId. eexists.
    split; [reflexivity|].
    split; [cbn in Tt; intros ->; discriminate|].
    split; [reflexivity|]. split; [exact G|]. split; [exact Ty|].
    split; [exact U|]. split; [reflexivity|].
    cbn [value KafkaProducer.key headers header]. split; [reflexivity|].
    split.
    + unfold or_else. destruct (truthy userId) eqn:E; rewrite E; reflexivity.
    + cbn. apply or_else_truthy, Ty.
  - apply sendMessageAny_throws in S as ->.
    cbn. repeat split; auto; intros; discriminate.
Qed.

(** X22.  A purchase accepted by [POST /purchase] cannot be handled by the
    consumer.  When the endpoint answers 200, the body had a truthy
    [userId], and exactly one record went to [purchase-events], keyed by
    that [userId] and carrying the JSON text of a [purchase.created] message
    with the purchase fields under [data]; and whenever the consumer
    dispatches that message, on whatever topic and in whatever state of the
    store, [handlePurchaseCreated] throws, because it looks for the price
    under [data.data], and the store is left as it was. *)
Theorem X22_published_purchases_fail_in_the_consumer (purchaseData : json)
  (p p' : Producer) (r : HttpResponse) :
  post_purchase JSON_stringify now_text now_iso purchaseData p = (r, p') ->
  status r = 200 ->
  exists userId message m,
    get (Some purchaseData) "userId" = Return userId
    /\ truthy userId = true
    /\ sent p' = sent p ++ [mkRecord "purchase-events" [m]]
    /\ KafkaProducer.key m = userId
    /\ value m = JSON_stringify message
    /\ get (Some message) "type" = Return (Some (JStr "purchase.created"))
    /\ (forall rt topic w,
          exists error,
            KafkaConsumer.processEvent rt message topic w = (Throw error, w)).
Proof.
  unfold post_purchase.
  destruct (get (Some purchaseData) "userId") as [userId|] eqn:U;
    [|intro H; injection H as <- <-; discriminate].
  destruct (get (Some purchaseData) "username") as [username|] eqn:N;
    [|intro H; injection H as <- <-; discriminate].
  destruct (get (Some purchaseData) "data") as [data|] eqn:D;
    [|intro H; injection H as <- <-; discriminate].
  destruct (truthy userId) eqn:Tu; cbn [negb orb];
    [|intro H; injection H as <- <-; discriminate].
  destruct (negb (truthy username) || negb (truthy data))%bool;
    [intro H; injection H as <- <-; discriminate|].
  destruct (get data "price") as [price0|] eqn:P0;
    [|intro H; injection H as <- <-; discriminate].
  unfold sendPurchaseEvent. rewrite U, N, D, P0.
  destruct (get data "timestamp") as [timestamp|];
    [|intro H; injection H as <- <-; discriminate].
  destruct (get data "product") as [product|];
    [|intro H; injection H as <- <-; discriminate].
  destruct (get data "category") as [category|];
    [|intro H; injection H as <- <-; discriminate].
  match goal with
  | |- context [sendMessageAny _ _ _ ?msg _ _] => set (message := msg)
  end.
  destruct (sendMessageAny JSON_stringify now_text "purchase-events" message
              userId p) as [[[]|e] p''] eqn:S;
    intro H; injection H as <- <-; [|discriminate].
  intros _.
  destruct (sendMessageAny_returns _ _ _ _ _ S)
    as (C & type' & userId' & _ & _ & ->).
  exists userId, message. eexists.
  split; [reflexivity|]. split; [exact Tu|]. split; [reflexivity|].
  cbn [value KafkaProducer.key].
  split; [rewrite (or_else_truthy userId userId' Tu); apply or_else_truthy, Tu|].
  split; [reflexivity|]. split; [reflexivity|].
  intros rt topic w. subst message.
  destruct userId as [u|], username as [n|], price0 as [pr|],
    timestamp as [ts|], product as [pd|], category as [ct|];
    eexists; reflexivity.
Qed.

End Service.

Lemma X20_published_message_witness :
  isConnected Samples.connected = true
  /\ isConnected
       (snd (sendMessageAny Samples.JSON_stringify "1700000000500" "user-events"
               Samples.user_login_message None Samples.connected)) = true
  /\ exists m,
       sent (snd (sendMessageAny Samples.JSON_stringify "1700000000500"
                    "user-events" Samples.user_login_message None
                    Samples.connected))
       = sent Samples.connected ++ [mkRecord "user-events" [m]]
       /\ value m = Samples.JSON_stringify Samples.user_login_message
       /\ truthy (KafkaProducer.key m) = true
       /\ (truthy None = true -> KafkaProducer.key m = None)
       /\ header "content-type" (headers m) = Some (JStr "application/json")
       /\ header "source" (headers m) = Some (JStr "api")
       /\ truthy (header "message-type" (headers m)) = true.
Proof.
  apply (X20_published_messages_carry_a_key Samples.JSON_stringify
           "1700000000500" "user-events" Samples.user_login_message None
           Samples.connected).
  reflexivity.
Defined.

Lemma X21_produce_witness :
  (status (mkHttpResponse 200 true "Message sent to Kafka successfully") = 200
   \/ status (mkHttpResponse 200 true "Message sent to Kafka successfully") = 400
   \/ status (mkHttpResponse 200 true "Message sent to Kafka successfully") = 500)
  /\ success (mkHttpResponse 200 true "Message sent to Kafka successfully")
     = (status (mkHttpResponse 200 true "Message sent to Kafka successfully")
        =? 200)
  /\ (status (mkHttpResponse 200 true "Message sent to Kafka successfully") = 400 ->
      snd (post_produce Samples.JSON_stringify "1700000000500"
             Requests.produce_request Samples.connected)
      = Samples.connected)
  /\ (isConnected Samples.connected = false ->
      status (mkHttpResponse 200 true "Message sent to Kafka successfully") <> 200
      /\ snd (post_produce Samples.JSON_stringify "1700000000500"
                Requests.produce_request Samples.connected)
         = Samples.connected)
  /\ (status (mkHttpResponse 200 true "Message sent to Kafka successfully") = 200 ->
      exists topic message type userId m,
        body_topic Requests.produce_request = Some topic /\ topic <> ""%string
        /\ body_message Requests.produce_request = Some message
        /\ get (Some message) "type" = Return type /\ truthy type = true
        /\ get (Some message) "userId" = Return userId
        /\ sent (snd (post_produce Samples.JSON_stringify "1700000000500"
                        Requests.produce_request Samples.connected))
           = sent Samples.connected ++ [mkRecord topic [m]]
        /\ value m = Samples.JSON_stringify message
        /\ KafkaProducer.key m = or_else userId (Some (JStr "default"))
        /\ header "message-type" (headers m) = type).
Proof.
  apply (X21_produce_publishes_only_typed_messages Samples.JSON_stringify
           "1700000000500" Requests.produce_request Samples.connected).
  reflexivity.
Defined.

Lemma X22_purchase_witness :
  exists userId message m,
    get (Some Requests.purchase_request) "userId" = Return userId
    /\ truthy userId = true
    /\ sent (snd (post_purchase Samples.JSON_stringify "1700000000500"
                    "2023-12-01T10:00:00.000Z" Requests.purchase_request
                    Samples.connected))
       = sent Samples.connected ++ [mkRecord "purchase-events" [m]]
    /\ KafkaProducer.key m = userId
    /\ value m = Samples.JSON_stringify message
    /\ get (Some message) "type" = Return (Some (JStr "purchase.created"))
    /\ (forall rt topic w,
          exists error,
            KafkaConsumer.processEvent rt message topic w = (Throw error, w)).
Proof.
  apply (X22_published_purchases_fail_in_the_consumer Samples.JSON_stringify
           "1700000000500" "2023-12-01T10:00:00.000Z" Requests.purchase_request
           Samples.connected
           (snd (post_purchase Samples.JSON_stringify "1700000000500"
                   "2023-12-01T10:00:00.000Z" Requests.purchase_request
                   Samples.connected))
           (mkHttpResponse 200 true "Purchase event sent to Kafka successfully"));
    reflexivity.
Defined.

(** The message the service publishes for the sample purchase is the sample
    purchase document the consumer is given. *)
Example sample_purchase_is_published :
  map (fun r => map value (messages r))
    (sent (snd (post_purchase Samples.JSON_stringify "1700000000500"
                  "2023-12-01T10:00:00.000Z" Requests.purchase_request
                  Samples.connected)))
  = [[Samples.body_purchase]].
Proof. reflexivity. Qed.

End Publishing.
